(** * Rotating log writer (package logx): rotation rules and the writer

    A shallow embedding of [rotatelogger.go]: the two rotation rules
    ([DailyRotateRule], [SizeLimitRotateRule]) and the [RotateLogger]
    that owns the file handle.

    - Go's [int] is taken at 64 bits, with its wrap-around written out.
    - Strings and byte slices are byte strings.
    - The operating system is an explicit [World]: the files, the clock
      and its zone, a script of faults for the system calls to come, and
      the trace of what the program did.  The clock stands still during
      one call.
    - The functions of the packages [time], [strings] and
      [path/filepath] (Unix) that the code calls are modelled from their
      documentation, far enough for the names the rules build.
    - Goroutines are taken one step at a time: a [select] with several
      ready cases takes the one the scheduler picks, which the caller of
      the model passes in; the goroutine of [postRotate] is recorded as
      spawned and its body given apart.
    - The first part holds the definitions, the second the properties. *)

From Stdlib Require Import ZArith Lia Ascii String List Bool.
From Stdlib Require OrderedTypeEx.
From stdpp Require Import base decidable option list gmap strings sorting.

Local Open Scope Z_scope.

(** ** Go's [int] on a 64-bit platform *)

Module GoInt.

Definition int_bits : Z := 64.
Definition min_int : Z := - 2 ^ 63.
Definition max_int : Z := 2 ^ 63 - 1.

(** Two's complement wrap-around of an exact integer result. *)
Definition wrap (z : Z) : Z := (z + 2 ^ 63) mod 2 ^ 64 - 2 ^ 63.

Definition in_range (z : Z) : Prop := min_int <= z <= max_int.

Definition add (a b : Z) : Z := wrap (a + b).
Definition mul (a b : Z) : Z := wrap (a * b).
Definition neg (a : Z) : Z := wrap (- a).

End GoInt.

(** ** Constants of the package *)

Definition hoursPerDay : Z := 24.
Definition bufferSize : nat := 100.
Definition gzipExt : string := ".gz".
Definition megabyte : Z := 1024 * 1024.

(** Length of a Go string or byte slice, as an [int]. *)
Definition len (s : string) : Z := Z.of_nat (String.length s).
Definition blen (v : list Byte.byte) : Z := Z.of_nat (List.length v).

(** Go compares strings bytewise; so does [String.compare]. *)
Definition str_lt (a b : string) : bool := String.ltb a b.
Definition str_le (a b : string) : Prop := String.leb a b = true.

(** ** Package [time]: the part the rules use

    A [Time] is a count of nanoseconds since the Unix epoch; the local
    zone is a fixed offset in seconds east of UTC.  [Format] is modelled
    for the two layouts of the package, [dateFormat] (2006-01-02) and
    [time.RFC3339] (2006-01-02T15:04:05Z07:00), on the proleptic
    Gregorian calendar as [time.absDate] computes it. *)

Module GoTime.

Definition Time := Z.
Definition Duration := Z.

Definition Nanosecond : Duration := 1.
Definition Second : Duration := 1000000000.
Definition Minute : Duration := 60 * Second.
Definition Hour : Duration := 60 * Minute.

(** [t.Add(d)] *)
Definition Add (t : Time) (d : Duration) : Time := t + d.

(** Days between 0001-01-01 and 1970-01-01. *)
Definition unixToYear1 : Z := 719162.

Definition daysPer400Years : Z := 146097.
Definition daysPer100Years : Z := 36524.
Definition daysPer4Years : Z := 1461.

(** Local wall-clock seconds since 0001-01-01T00:00:00. *)
Definition abs_seconds (zone : Z) (t : Time) : Z :=
  t / Second + zone + unixToYear1 * 86400.

Definition isLeap (year : Z) : bool :=
  (year mod 4 =? 0) && (negb (year mod 100 =? 0) || (year mod 400 =? 0)).

(** Year and day of the year (from 0) of a day count since 0001-01-01:
    the 400, 100, 4 and 1 year cycles of [absDate]. *)
Definition year_yday (d : Z) : Z * Z :=
  let n400 := d / daysPer400Years in
  let d1 := d - daysPer400Years * n400 in
  let n100 := d1 / daysPer100Years in
  let n100 := n100 - Z.shiftr n100 2 in
  let d2 := d1 - daysPer100Years * n100 in
  let n4 := d2 / daysPer4Years in
  let d3 := d2 - daysPer4Years * n4 in
  let n := d3 / 365 in
  let n := n - Z.shiftr n 2 in
  let d4 := d3 - 365 * n in
  (1 + 400 * n400 + 100 * n100 + 4 * n4 + n, d4).

(** [daysBefore[m]]: days in a non-leap year before month [m+1]. *)
Definition daysBefore (m : Z) : Z :=
  match m with
  | 0 => 0 | 1 => 31 | 2 => 59 | 3 => 90 | 4 => 120 | 5 => 151 | 6 => 181
  | 7 => 212 | 8 => 243 | 9 => 273 | 10 => 304 | 11 => 334 | _ => 365
  end.

(** Month (1..12) and day of the month from the year and its day. *)
Definition month_day (year yday : Z) : Z * Z :=
  if isLeap year && (yday =? 31 + 29 - 1) then (2, 29)
  else
    let day := if isLeap year && (31 + 29 - 1 <? yday) then yday - 1 else yday in
    let month := day / 31 in
    let e := daysBefore (month + 1) in
    if e <=? day then (month + 2, day - e + 1)
    else (month + 1, day - daysBefore month + 1).

Record Civil := mkCivil {
  c_year : Z; c_month : Z; c_day : Z;
  c_hour : Z; c_min : Z; c_sec : Z
}.

Definition civil (zone : Z) (t : Time) : Civil :=
  let a := abs_seconds zone t in
  let d := a / 86400 in
  let s := a mod 86400 in
  let '(y, yd) := year_yday d in
  let '(m, dd) := month_day y yd in
  mkCivil y m dd (s / 3600) (s mod 3600 / 60) (s mod 60).

(** *** Decimal printing: [appendInt] *)

Definition digit (n : Z) : ascii := ascii_of_nat (48 + Z.to_nat (n mod 10)).

Fixpoint digits_aux (fuel : nat) (u : Z) (acc : string) : string :=
  match fuel with
  | O => acc
  | S f =>
      let acc' := String (digit u) acc in
      if u / 10 =? 0 then acc' else digits_aux f (u / 10) acc'
  end.

(** Decimal digits of [u >= 0], most significant first ("0" for 0). *)
Definition digits (u : Z) : string := digits_aux 20 u EmptyString.

Fixpoint zeros (n : nat) : string :=
  match n with O => EmptyString | S k => String "0"%char (zeros k) end.

(** [appendInt(b, x, width)]: sign, zero padding to [width], digits. *)
Definition appendInt (x : Z) (width : nat) : string :=
  let u := Z.abs x in
  let ds := digits u in
  (if x <? 0 then "-" else "") +:+ zeros (width - String.length ds) +:+ ds.

(** Layout [2006-01-02]. *)
Definition format_date (c : Civil) : string :=
  appendInt (c_year c) 4 +:+ "-" +:+ appendInt (c_month c) 2 +:+ "-"
  +:+ appendInt (c_day c) 2.

(** The zone suffix of layout element [Z07:00]; Go's division of the
    offset truncates. *)
Definition format_zone (zone : Z) : string :=
  if zone =? 0 then "Z"
  else
    let m := Z.quot zone 60 in
    (if m <? 0 then "-" else "+") +:+ appendInt (Z.abs m / 60) 2 +:+ ":"
    +:+ appendInt (Z.abs m mod 60) 2.

(** Layout [2006-01-02T15:04:05Z07:00]. *)
Definition format_rfc3339 (zone : Z) (c : Civil) : string :=
  format_date c +:+ "T" +:+ appendInt (c_hour c) 2 +:+ ":"
  +:+ appendInt (c_min c) 2 +:+ ":" +:+ appendInt (c_sec c) 2
  +:+ format_zone zone.

Inductive Layout := dateFormat | rfc3339DateFormat.

(** [t.Format(layout)] in the local zone. *)
Definition Format (zone : Z) (t : Time) (l : Layout) : string :=
  match l with
  | dateFormat => format_date (civil zone t)
  | rfc3339DateFormat => format_rfc3339 zone (civil zone t)
  end.

(** *** [Parse] with layout [time.RFC3339]

    The value is read element by element: four digits of year, two of
    month and of day, one or two of hour, two of minute and of second,
    an optional fraction, then [Z] or a signed [hh:mm] offset.  [None]
    stands for the [*ParseError] of the call. *)

Definition is_digit (c : ascii) : bool :=
  (48 <=? nat_of_ascii c)%nat && (nat_of_ascii c <=? 57)%nat.

Definition digit_val (c : ascii) : Z := Z.of_nat (nat_of_ascii c) - 48.

(** Exactly [n] digits at the head of [s]: their value, and the rest. *)
Fixpoint take_digits (n : nat) (acc : Z) (s : string) : option (Z * string) :=
  match n with
  | O => Some (acc, s)
  | S k =>
      match s with
      | String c rest =>
          if is_digit c then take_digits k (10 * acc + digit_val c) rest
          else None
      | EmptyString => None
      end
  end.

Definition expect (c : ascii) (s : string) : option string :=
  match s with
  | String a rest => if Ascii.eqb a c then Some rest else None
  | EmptyString => None
  end.

(** [getnum(s, false)]: one or two digits. *)
Definition getnum_free (s : string) : option (Z * string) :=
  match take_digits 2 0 s with
  | Some r => Some r
  | None => take_digits 1 0 s
  end.

(** A fraction of a second after the seconds: skipped digit by digit,
    its value truncated to nanoseconds. *)
Fixpoint fraction (s : string) (scale acc : Z) : Z * string :=
  match s with
  | String c rest =>
      if is_digit c then fraction rest (scale / 10) (acc + digit_val c * scale)
      else (acc, s)
  | EmptyString => (acc, s)
  end.

Definition parse_fraction (s : string) : Z * string :=
  match s with
  | String sep (String d _ as rest) =>
      if (Ascii.eqb sep "." || Ascii.eqb sep ",") && is_digit d
      then fraction rest 100000000 0
      else (0, s)
  | _ => (0, s)
  end.

(** The zone element: offset in seconds, and the rest. *)
Definition parse_zone (s : string) : option (Z * string) :=
  match s with
  | String "Z" rest => Some (0, rest)
  | String sign rest =>
      '(hh, r1) ← take_digits 2 0 rest;
      r2 ← expect ":" r1;
      '(mm, r3) ← take_digits 2 0 r2;
      if Ascii.eqb sign "+" then Some ((hh * 60 + mm) * 60, r3)
      else if Ascii.eqb sign "-" then Some (- ((hh * 60 + mm) * 60), r3)
      else None
  | EmptyString => None
  end.

Definition daysIn (month year : Z) : Z :=
  if (month =? 2) && isLeap year then 29
  else daysBefore month - daysBefore (month - 1).

(** Days from 0001-01-01 to the first day of [year]. *)
Definition year_start (year : Z) : Z :=
  let y := year - 1 in 365 * y + y / 4 - y / 100 + y / 400.

(** [Date(...).Unix()] in nanoseconds, for a date in UTC. *)
Definition unix_of_civil (year month day hour min sec : Z) : Z :=
  let yday := daysBefore (month - 1)
              + (if isLeap year && (3 <=? month) then 1 else 0) + day - 1 in
  (((year_start year + yday - unixToYear1) * 24 + hour) * 60 + min) * 60 + sec.

Definition Parse_rfc3339 (value : string) : option Time :=
  '(year, v) ← take_digits 4 0 value;
  v ← expect "-" v;
  '(month, v) ← take_digits 2 0 v;
  v ← expect "-" v;
  '(day, v) ← take_digits 2 0 v;
  v ← expect "T" v;
  '(hour, v) ← getnum_free v;
  v ← expect ":" v;
  '(min, v) ← take_digits 2 0 v;
  v ← expect ":" v;
  '(sec, v) ← take_digits 2 0 v;
  let '(nsec, v) := parse_fraction v in
  '(off, v) ← parse_zone v;
  if negb (String.eqb v "") then None
  else if (month <? 1) || (12 <? month) || (24 <=? hour) || (60 <=? min)
          || (60 <=? sec) || (day <? 1) || (daysIn month year <? day)
  then None
  else Some ((unix_of_civil year month day hour min sec - off) * Second + nsec).

(** The layout as a string, as a [*ParseError] carries it. *)
Definition layout_string (l : Layout) : string :=
  match l with
  | dateFormat => "2006-01-02"
  | rfc3339DateFormat => "2006-01-02T15:04:05Z07:00"
  end.

End GoTime.

(** ** Package [strings] and slicing *)

Module GoStrings.

Fixpoint has_prefix (p s : string) : bool :=
  match p, s with
  | EmptyString, _ => true
  | String a p', String b s' => Ascii.eqb a b && has_prefix p' s'
  | String _ _, EmptyString => false
  end.

Fixpoint contains_char (c : ascii) (s : string) : bool :=
  match s with
  | EmptyString => false
  | String a s' => Ascii.eqb a c || contains_char c s'
  end.

Fixpoint take (n : nat) (s : string) : string :=
  match n, s with
  | S k, String a s' => String a (take k s')
  | _, _ => EmptyString
  end.

(** [s[:len(s)-k]]: [None] is the run-time panic of a slice bound out
    of range. *)
Definition drop_suffix (k : nat) (s : string) : option string :=
  if (k <=? String.length s)%nat then Some (take (String.length s - k) s)
  else None.

Fixpoint rev_acc (s acc : string) : string :=
  match s with
  | EmptyString => acc
  | String a s' => rev_acc s' (String a acc)
  end.

Definition rev (s : string) : string := rev_acc s EmptyString.

(** Splitting at every non overlapping occurrence of a non empty [sep],
    left to right: [skip] bytes of a matched separator are still to be
    passed over, [cur] is the current piece, reversed. *)
Fixpoint split_go (sep s : string) (skip : nat) (cur : string) : list string :=
  match s with
  | EmptyString => [rev cur]
  | String a s' =>
      match skip with
      | S k => split_go sep s' k cur
      | O =>
          if has_prefix sep s
          then rev cur :: split_go sep s' (String.length sep - 1) EmptyString
          else split_go sep s' O (String a cur)
      end
  end.

Fixpoint explode (s : string) : list string :=
  match s with
  | EmptyString => []
  | String a s' => String a EmptyString :: explode s'
  end.

(** [strings.Split(s, sep)]; an empty [sep] splits after each byte. *)
Definition Split (s sep : string) : list string :=
  match sep with
  | EmptyString => explode s
  | _ => split_go sep s O EmptyString
  end.

Fixpoint Join (elems : list string) (sep : string) : string :=
  match elems with
  | [] => EmptyString
  | [e] => e
  | e :: rest => e +:+ sep +:+ Join rest sep
  end.

End GoStrings.

(** ** Package [path/filepath] (Unix) *)

Module Filepath.

Import GoStrings.

Definition Separator : ascii := "/"%char.

(** [Ext]: the suffix from the last dot of the last element. *)
Fixpoint Ext (path : string) : string :=
  match path with
  | EmptyString => EmptyString
  | String c rest =>
      match Ext rest with
      | EmptyString =>
          if Ascii.eqb c "." && negb (contains_char Separator rest)
          then path else EmptyString
      | e => e
      end
  end.

(** [Split]: the part up to and with the last separator, and the rest. *)
Fixpoint Split (path : string) : string * string :=
  match path with
  | EmptyString => (EmptyString, EmptyString)
  | String c rest =>
      let '(d, f) := Split rest in
      match d with
      | EmptyString =>
          if Ascii.eqb c Separator then (String c EmptyString, rest)
          else (EmptyString, path)
      | _ => (String c d, f)
      end
  end.

(** One path element met by [Clean]; the stack holds the kept elements,
    last one first. *)
Definition clean_step (rooted : bool) (stack : list string) (e : string)
  : list string :=
  if String.eqb e "" || String.eqb e "." then stack
  else if String.eqb e ".." then
    match stack with
    | top :: below =>
        if String.eqb top ".." then e :: stack else below
    | [] => if rooted then [] else [e]
    end
  else e :: stack.

(** [Clean]: the shortest equivalent path, by lexical processing. *)
Definition Clean (path : string) : string :=
  let rooted := has_prefix "/" path in
  let stack := fold_left (clean_step rooted) (GoStrings.Split path "/") [] in
  let out := (if rooted then "/" else "") +:+ GoStrings.Join (List.rev stack) "/" in
  if String.eqb out "" then "." else out.

(** [Join] of two elements. *)
Definition Join (a b : string) : string :=
  if negb (String.eqb a "") then Clean (a +:+ "/" +:+ b)
  else if negb (String.eqb b "") then Clean b
  else "".

Definition Dir (path : string) : string := Clean (fst (Split path)).

(** Removal of trailing separators. *)
Definition strip_trailing (path : string) : string :=
  let fix go (r : string) : string :=
    match r with
    | String c r' => if Ascii.eqb c Separator then go r' else r
    | EmptyString => EmptyString
    end in
  rev (go (rev path)).

Definition Base (path : string) : string :=
  if String.eqb path "" then "."
  else
    let p := snd (Split (strip_trailing path)) in
    if String.eqb p "" then "/" else p.

End Filepath.

(** *** Shell patterns: [Match]

    Names are taken as byte strings.  A pattern is read into terms:
    [*], [?], a character class, or a (possibly escaped) literal; a
    name matches when the terms can be laid along it, which is what the
    chunk by chunk search of [filepath.Match] decides. *)

Module Pattern.

Inductive term :=
| TStar
| TAny
| TLit (c : ascii)
| TClass (negated : bool) (ranges : list (ascii * ascii)).

(** [getEsc]: one possibly escaped character of a class and the rest,
    which must not be empty. *)
Definition getEsc (chunk : string) : option (ascii * string) :=
  match chunk with
  | EmptyString => None
  | String c rest =>
      if Ascii.eqb c "-" || Ascii.eqb c "]" then None
      else
        let body := if Ascii.eqb c "\" then rest else chunk in
        match body with
        | String r (String _ _ as nchunk) => Some (r, nchunk)
        | _ => None
        end
  end.

(** The ranges of a class up to the closing bracket. *)
Fixpoint class_ranges (fuel : nat) (nrange : nat) (chunk : string)
  : option (list (ascii * ascii) * string) :=
  match fuel with
  | O => None
  | S f =>
      match chunk, nrange with
      | String "]" rest, S _ => Some ([], rest)
      | _, _ =>
          '(lo, c1) ← getEsc chunk;
          '(hi, c2) ← match c1 with
                      | String "-" c1' => getEsc c1'
                      | _ => Some (lo, c1)
                      end;
          '(rs, rest) ← class_ranges f (S nrange) c2;
          Some ((lo, hi) :: rs, rest)
      end
  end.

(** Reading a pattern; [None] is [ErrBadPattern]. *)
Fixpoint parse (fuel : nat) (p : string) : option (list term) :=
  match fuel with
  | O => None
  | S f =>
      match p with
      | EmptyString => Some []
      | String "*" rest => cons TStar <$> parse f rest
      | String "?" rest => cons TAny <$> parse f rest
      | String "\" (String c rest) => cons (TLit c) <$> parse f rest
      | String "\" EmptyString => None
      | String "[" rest =>
          let '(neg, body) :=
            match rest with
            | String "^" r => (true, r)
            | _ => (false, rest)
            end in
          '(rs, rest') ← class_ranges (S (String.length body)) 0 body;
          cons (TClass neg rs) <$> parse f rest'
      | String c rest => cons (TLit c) <$> parse f rest
      end
  end.

Definition in_ranges (c : ascii) (rs : list (ascii * ascii)) : bool :=
  existsb (fun '(lo, hi) =>
    (nat_of_ascii lo <=? nat_of_ascii c)%nat
    && (nat_of_ascii c <=? nat_of_ascii hi)%nat) rs.

(** [*] takes any run of bytes other than the separator. *)
Fixpoint star (k : string -> bool) (s : string) : bool :=
  k s ||
  match s with
  | String c s' => negb (Ascii.eqb c Filepath.Separator) && star k s'
  | EmptyString => false
  end.

Fixpoint matches (ts : list term) (s : string) : bool :=
  match ts with
  | [] => String.eqb s ""
  | TStar :: ts' => star (matches ts') s
  | TAny :: ts' =>
      match s with
      | String c s' => negb (Ascii.eqb c Filepath.Separator) && matches ts' s'
      | EmptyString => false
      end
  | TLit a :: ts' =>
      match s with
      | String c s' => Ascii.eqb a c && matches ts' s'
      | EmptyString => false
      end
  | TClass neg rs :: ts' =>
      match s with
      | String c s' => xorb (in_ranges c rs) neg && matches ts' s'
      | EmptyString => false
      end
  end.

(** [Match(pattern, name)]; [None] is [ErrBadPattern]. *)
Definition Match (pattern name : string) : option bool :=
  ts ← parse (S (String.length pattern)) pattern;
  Some (matches ts name).

(** [hasMeta]: any of the magic characters. *)
Definition hasMeta (path : string) : bool :=
  GoStrings.contains_char "*" path || GoStrings.contains_char "?" path
  || GoStrings.contains_char "[" path || GoStrings.contains_char "\" path.

End Pattern.

(** ** The operating system: files, clock, faults and the trace *)

Inductive error :=
| ErrLogFileClosed                       (* "error: log file closed" *)
| ErrInvalid                             (* os.ErrInvalid: a nil *os.File *)
| ErrNotExist (path : string)
| ErrBadPattern
| ErrOS (code : nat)                     (* any other failure of a system call *)
| ErrParse (layout value : string)       (* *time.ParseError *)
| ErrInvalidBackup (file : string).      (* "Invalid backup log filename: %s" *)

(** The text of an error, as its [Error] method gives it. *)
Definition error_text (e : error) : string :=
  match e with
  | ErrLogFileClosed => "error: log file closed"
  | ErrInvalid => "invalid argument"
  | ErrNotExist path => "stat " +:+ path +:+ ": no such file or directory"
  | ErrBadPattern => "syntax error in pattern"
  | ErrOS _ => "input/output error"
  | ErrParse layout value =>
      "parsing time " +:+ value +:+ " as " +:+ layout +:+ ": cannot parse"
  | ErrInvalidBackup file => "Invalid backup log filename: " +:+ file
  end.

(** What the program does to its environment, oldest first; the calls
    into the rotation rule are recorded as well. *)
Inductive Event :=
| EvClose (path : string) (res : option error)
| EvStat (path : string) (res : option error)
| EvRename (old new : string) (res : option error)
| EvCreate (path : string) (res : option error)
| EvWrite (path : string) (data : list Byte.byte) (res : option error)
| EvSync (path : string) (res : option error)
| EvRemove (path : string) (res : option error)
| EvMkdirAll (path : string) (res : option error)
| EvOpenAppend (path : string) (res : option error)
| EvSpawn (file : string)                (* the goroutine of postRotate *)
| EvStderr (line : string)               (* package log, fmt.Printf *)
| EvLog (msg : string)                   (* Error, Errorf of logx *)
| EvShallRotate (cur n : Z) (res : bool)
| EvMarkRotated
| EvBackupFileName (name : string).

(** Files live under their cleaned path.  [faults] scripts the system
    calls still to come: each call takes the head, and [Some e] makes
    it fail with [e]; an exhausted script lets every call succeed. *)
Record World := mkWorld {
  files : gmap string (list Byte.byte);
  now : GoTime.Time;
  zone : Z;
  faults : list (option error);
  trace : list Event
}.

Definition set_files (fs : gmap string (list Byte.byte)) (w : World) : World :=
  mkWorld fs (now w) (zone w) (faults w) (trace w).
Definition set_faults (fl : list (option error)) (w : World) : World :=
  mkWorld (files w) (now w) (zone w) fl (trace w).
Definition set_trace (tr : list Event) (w : World) : World :=
  mkWorld (files w) (now w) (zone w) (faults w) tr.

(** Computations in the world. *)
Definition M (A : Type) : Type := World -> A * World.

#[global] Instance M_ret : MRet M := fun A a w => (a, w).
#[global] Instance M_bind : MBind M :=
  fun A B f m w => let '(a, w') := m w in f a w'.

Definition get_world : M World := fun w => (w, w).
Definition emit (e : Event) : M unit :=
  fun w => (tt, set_trace (trace w ++ [e]) w).
Definition update_files (f : gmap string (list Byte.byte) -> gmap string (list Byte.byte))
  : M unit :=
  fun w => (tt, set_files (f (files w)) w).

(** The next entry of the fault script. *)
Definition fault : M (option error) :=
  fun w =>
    match faults w with
    | [] => (None, w)
    | f :: rest => (f, set_faults rest w)
    end.

(** The events a computation added to the trace. *)
Definition new_events (w w' : World) : list Event :=
  drop (length (trace w)) (trace w').

#[global] Instance str_le_dec : RelDecision str_le.
Proof. intros a b. unfold str_le. apply _. Defined.

(** [sort.Strings] *)
Definition sortStrings (l : list string) : list string := merge_sort str_le l.

Module FS.

Fixpoint ancestors (fuel : nat) (p : string) : list string :=
  match fuel with
  | O => []
  | S f =>
      let d := Filepath.Dir p in
      if String.eqb d p then [] else d :: ancestors f d
  end.

(** Files, and the directories above them. *)
Definition entries (fs : gmap string (list Byte.byte)) : list string :=
  let ps := elements (dom fs) in
  ps ++ flat_map (fun p => ancestors (S (String.length p)) p) ps.

Definition exists_path (fs : gmap string (list Byte.byte)) (p : string) : bool :=
  bool_decide (Filepath.Clean p ∈ entries fs).

(** [Readdirnames] of a directory, sorted as [glob] sorts them. *)
Definition readdirnames (fs : gmap string (list Byte.byte)) (dir : string)
  : list string :=
  let d := Filepath.Clean dir in
  sortStrings (remove_dups
    (Filepath.Base <$>
       filter (fun p => Filepath.Dir p = d /\ p <> d) (entries fs))).

(** [glob(dir, pattern, nil)]: the names of [dir] matching [pattern]. *)
Definition glob (fs : gmap string (list Byte.byte)) (dir pattern : string)
  : list string :=
  Filepath.Join dir <$>
    filter (fun n => Pattern.Match pattern n = Some true) (readdirnames fs dir).

Definition cleanGlobPath (path : string) : string :=
  if String.eqb path "" then "."
  else if String.eqb path "/" then "/"
  else GoStrings.take (String.length path - 1) path.

(** [filepath.Glob]: it ignores I/O errors; its only error is
    [ErrBadPattern]. *)
Fixpoint Glob (fuel : nat) (fs : gmap string (list Byte.byte)) (pattern : string)
  : list string + error :=
  match Pattern.Match pattern "" with
  | None => inr ErrBadPattern
  | Some _ =>
      if negb (Pattern.hasMeta pattern) then
        inl (if exists_path fs pattern then [pattern] else [])
      else
        let '(dir, file) := Filepath.Split pattern in
        let dir := cleanGlobPath dir in
        if negb (Pattern.hasMeta dir) then inl (glob fs dir file)
        else if String.eqb dir pattern then inr ErrBadPattern
        else
          match fuel with
          | O => inr ErrBadPattern
          | S f =>
              match Glob f fs dir with
              | inr e => inr e
              | inl m => inl (flat_map (fun d => glob fs d file) m)
              end
          end
  end.

End FS.

(** *** System calls *)

Definition time_Now : M GoTime.Time := fun w => (now w, w).

Definition time_Format (t : GoTime.Time) (l : GoTime.Layout) : M string :=
  fun w => (GoTime.Format (zone w) t l, w).

Definition filepath_Glob (pattern : string) : M (list string + error) :=
  fun w => (FS.Glob (String.length pattern) (files w) pattern, w).

Definition os_Stat (path : string) : M (option error) :=
  f ← fault;
  w ← get_world;
  let res :=
    match f with
    | Some e => Some e
    | None => if FS.exists_path (files w) path then None
              else Some (ErrNotExist path)
    end in
  emit (EvStat path res);; mret res.

Definition os_Rename (old new : string) : M (option error) :=
  f ← fault;
  w ← get_world;
  let o := Filepath.Clean old in
  let res :=
    match f with
    | Some e => Some e
    | None => match files w !! o with
              | Some _ => None
              | None => Some (ErrNotExist old)
              end
    end in
  match res, files w !! o with
  | None, Some c => update_files (fun fs => <[Filepath.Clean new := c]> (delete o fs))
  | _, _ => mret tt
  end;;
  emit (EvRename old new res);; mret res.

(** [os.Create]: the file is created empty, or truncated. *)
Definition os_Create (path : string) : M (option string * option error) :=
  f ← fault;
  match f with
  | Some e => emit (EvCreate path (Some e));; mret (None, Some e)
  | None =>
      update_files (fun fs => <[Filepath.Clean path := []]> fs);;
      emit (EvCreate path None);; mret (Some path, None)
  end.

Definition os_Remove (path : string) : M (option error) :=
  f ← fault;
  w ← get_world;
  let p := Filepath.Clean path in
  let res :=
    match f with
    | Some e => Some e
    | None => match files w !! p with
              | Some _ => None
              | None => Some (ErrNotExist path)
              end
    end in
  match res with
  | None => update_files (fun fs => delete p fs)
  | Some _ => mret tt
  end;;
  emit (EvRemove path res);; mret res.

(** Methods of an open [*os.File], named by the path it was opened at.
    A failed write leaves the file as it was. *)
Definition file_Close (fp : string) : M (option error) :=
  f ← fault; emit (EvClose fp f);; mret f.

Definition file_Sync (fp : string) : M (option error) :=
  f ← fault; emit (EvSync fp f);; mret f.

Definition file_Write (fp : string) (data : list Byte.byte) : M (option error) :=
  f ← fault;
  match f with
  | Some e => mret tt
  | None =>
      update_files (fun fs => alter (fun c => c ++ data) (Filepath.Clean fp) fs)
  end;;
  emit (EvWrite fp data f);; mret f.

(** ** Rotation rules *)

(** The [RotateRule] interface.  A method runs in the world (it reads
    the clock, lists files, logs); [MarkRotated] has a pointer receiver
    and returns the rule it leaves behind. *)
Class RotateRule (R : Type) := {
  BackupFileName : R -> M string;
  MarkRotated : R -> M R;
  OutdatedFiles : R -> M (list string);
  ShallRotate : R -> Z -> Z -> M bool
}.

Record DailyRotateRule := mkDaily {
  rotatedTime : string;
  filename : string;
  delimiter : string;
  days : Z;
  gzip : bool
}.

Record SizeLimitRotateRule := mkSizeLimit {
  daily :> DailyRotateRule;
  maxSize : Z;
  maxBackups : Z
}.

Definition set_rotatedTime (t : string) (r : DailyRotateRule) : DailyRotateRule :=
  mkDaily t (filename r) (delimiter r) (days r) (gzip r).

Definition getNowDate : M string :=
  t ← time_Now; time_Format t GoTime.dateFormat.

Definition getNowDateInRFC3339Format : M string :=
  t ← time_Now;
  time_Format (GoTime.Add t ((-24 * 60 + 5) * GoTime.Minute)) GoTime.rfc3339DateFormat.

(** [-time.Hour * time.Duration(hoursPerDay*days)], in 64-bit arithmetic. *)
Definition keep_duration (days : Z) : GoTime.Duration :=
  GoInt.mul (GoInt.neg GoTime.Hour) (GoInt.mul hoursPerDay days).

Module Daily.

(** [DefaultRotateRule] *)
Definition DefaultRotateRule (filename delimiter : string) (days : Z) (gzip : bool)
  : M DailyRotateRule :=
  d ← getNowDate; mret (mkDaily d filename delimiter days gzip).

Definition BackupFileName (r : DailyRotateRule) : M string :=
  d ← getNowDate; mret (filename r +:+ delimiter r +:+ d).

Definition MarkRotated (r : DailyRotateRule) : M DailyRotateRule :=
  d ← getNowDate; mret (set_rotatedTime d r).

Definition pattern (r : DailyRotateRule) : string :=
  if gzip r then filename r +:+ delimiter r +:+ "*" +:+ gzipExt
  else filename r +:+ delimiter r +:+ "*".

Definition boundaryFile (r : DailyRotateRule) : M string :=
  t ← time_Now;
  boundary ← time_Format (GoTime.Add t (keep_duration (days r))) GoTime.dateFormat;
  mret (filename r +:+ delimiter r +:+ boundary
        +:+ (if gzip r then gzipExt else "")).

Definition OutdatedFiles (r : DailyRotateRule) : M (list string) :=
  if days r <=? 0 then mret []
  else
    g ← filepath_Glob (pattern r);
    match g with
    | inr err =>
        emit (EvLog ("failed to delete outdated log files, error: "
                     +:+ error_text err));;
        mret []
    | inl files =>
        bf ← boundaryFile r;
        mret (filter (fun file => str_lt file bf = true) files)
    end.

Definition ShallRotate (r : DailyRotateRule) (currentSize writeLen : Z) : M bool :=
  d ← getNowDate;
  mret ((0 <? len (rotatedTime r)) && negb (String.eqb d (rotatedTime r))).

End Daily.

#[global] Instance DailyRotateRule_rule : RotateRule DailyRotateRule := {
  BackupFileName := Daily.BackupFileName;
  MarkRotated := Daily.MarkRotated;
  OutdatedFiles := Daily.OutdatedFiles;
  ShallRotate := Daily.ShallRotate
}.

Module SizeLimit.

(** [NewSizeLimitRotateRule] *)
Definition NewSizeLimitRotateRule (filename delimiter : string)
    (days maxSize maxBackups : Z) (gzip : bool) : M SizeLimitRotateRule :=
  d ← getNowDateInRFC3339Format;
  mret (mkSizeLimit (mkDaily d filename delimiter days gzip) maxSize maxBackups).

Definition ShallRotate (r : SizeLimitRotateRule) (currentSize writeLen : Z) : M bool :=
  mret ((0 <? maxSize r)
        && (GoInt.mul (maxSize r) megabyte <? GoInt.add currentSize writeLen)).

(** [parseFilename]: its argument is not used, the rule's file name is.
    The extension is a suffix of the base name, so the slice is in
    range. *)
Definition parseFilename (r : SizeLimitRotateRule) (file : string)
  : string * string * string * string :=
  let dir := Filepath.Dir (filename r) in
  let logname := Filepath.Base (filename r) in
  let ext := Filepath.Ext (filename r) in
  let prefix := GoStrings.take (String.length logname - String.length ext) logname in
  (dir, logname, ext, prefix).

Definition BackupFileName (r : SizeLimitRotateRule) : M string :=
  let dir := Filepath.Dir (filename r) in
  let '(_, _, ext, prefix) := parseFilename r (filename r) in
  timestamp ← getNowDateInRFC3339Format;
  mret (Filepath.Join dir (prefix +:+ delimiter r +:+ timestamp +:+ ext)).

Definition MarkRotated (r : SizeLimitRotateRule) : M SizeLimitRotateRule :=
  d ← getNowDateInRFC3339Format;
  mret (mkSizeLimit (set_rotatedTime d r) (maxSize r) (maxBackups r)).

Definition pattern (r : SizeLimitRotateRule) : string :=
  let '(dir, _, ext, prefix) := parseFilename r (filename r) in
  if gzip r
  then dir +:+ "/" +:+ prefix +:+ delimiter r +:+ "*" +:+ ext +:+ gzipExt
  else dir +:+ "/" +:+ prefix +:+ delimiter r +:+ "*" +:+ ext.

(** The boundary name [bf] of the age test. *)
Definition boundaryFile (r : SizeLimitRotateRule) : M string :=
  let '(dir, _, ext, prefix) := parseFilename r (filename r) in
  t ← time_Now;
  boundary ← time_Format (GoTime.Add t (keep_duration (days r)))
                         GoTime.rfc3339DateFormat;
  let bf := Filepath.Join dir (prefix +:+ delimiter r +:+ boundary +:+ ext) in
  mret (if gzip r then bf +:+ gzipExt else bf).

(** The test on the number of backups: the files put into [outdated],
    and those left in [files]. *)
Definition too_many (r : SizeLimitRotateRule) (files : list string)
  : list string * list string :=
  if (0 <? maxBackups r) && (maxBackups r <? Z.of_nat (length files)) then
    let k := Z.to_nat (Z.of_nat (length files) - maxBackups r) in
    (take k files, drop k files)
  else ([], files).

(** The loop of the age test: it stops at the first file not before [bf]. *)
Fixpoint too_old (bf : string) (files : list string) : list string :=
  match files with
  | f :: rest => if str_lt f bf then f :: too_old bf rest else []
  | [] => []
  end.

(** The map [outdated] at the end of [OutdatedFiles], as the set of
    its keys. *)
Definition outdated_set (r : SizeLimitRotateRule) (globbed : list string)
    (bf : string) : gset string :=
  let files := sortStrings globbed in
  let '(excess, files) := too_many r files in
  let old := if 0 <? days r then too_old bf files else [] in
  list_to_set excess ∪ list_to_set old.

(** The result ranges over a Go map, in an order the language leaves
    open: it is some enumeration without repetition of the key set. *)
Definition OutdatedFiles (r : SizeLimitRotateRule) : M (list string) :=
  g ← filepath_Glob (pattern r);
  match g with
  | inr err =>
      emit (EvStderr ("failed to delete outdated log files, error: "
                      +:+ error_text err));;
      emit (EvLog ("failed to delete outdated log files, error: "
                   +:+ error_text err));;
      mret []
  | inl files =>
      bf ← boundaryFile r;
      mret (elements (outdated_set r files bf))
  end.

(** [time.Parse(rfc3339DateFormat, value)] *)
Definition time_Parse (value : string) : GoTime.Time + error :=
  match GoTime.Parse_rfc3339 value with
  | Some t => inl t
  | None => inr (ErrParse (GoTime.layout_string GoTime.rfc3339DateFormat) value)
  end.

(** The first two statements of [parseBackupTime]: the name without
    its [.gz] and without its extension; [None] is a run-time panic (a
    slice bound out of range). *)
Definition stem (r : SizeLimitRotateRule) (file : string) : option string :=
  file ← (if gzip r then GoStrings.drop_suffix (String.length gzipExt) file
          else Some file);
  GoStrings.drop_suffix (String.length (Filepath.Ext file)) file.

(** [parseBackupTime]: the variable [t] is declared and never assigned. *)
Definition parseBackupTime (r : SizeLimitRotateRule) (file : string)
  : M (option (GoTime.Time + error)) :=
  match stem r file with
  | None => mret None
  | Some file =>
      let s := GoStrings.Split file (delimiter r) in
      let t := "" in
      if negb (length s =? 2)%nat then
        emit (EvLog ("Invalid backup log filename: " +:+ file));;
        mret (Some (inr (ErrInvalidBackup file)))
      else
        match time_Parse t with
        | inr err =>
            emit (EvLog ("Failed to parse backup time from backup log file: "
                         +:+ file));;
            mret (Some (inr err))
        | inl parsed => mret (Some (inl parsed))
        end
  end.

End SizeLimit.

#[global] Instance SizeLimitRotateRule_rule : RotateRule SizeLimitRotateRule := {
  BackupFileName := SizeLimit.BackupFileName;
  MarkRotated := SizeLimit.MarkRotated;
  OutdatedFiles := SizeLimit.OutdatedFiles;
  ShallRotate := SizeLimit.ShallRotate
}.

(** ** The rotating logger *)

Module Logger.

(** What a call that may wait on the channel comes to. *)
Inductive WriteResult :=
| Blocked
| Returned (n : Z) (err : option error).

Section WithRule.

Context {R : Type} `{RotateRule R}.

(** [channel] holds the records sent and not yet received, oldest
    first; [done] tells whether the channel of that name is closed;
    [waitGroup] counts the running workers. *)
Record RotateLogger := mkLogger {
  filename : string;
  backup : string;
  fp : option string;
  channel : list (list Byte.byte);
  done : bool;
  rule : R;
  compress : bool;
  waitGroup : nat;
  closeOnce : bool;
  currentSize : Z
}.

Definition set_backup (b : string) (l : RotateLogger) : RotateLogger :=
  mkLogger (filename l) b (fp l) (channel l) (done l) (rule l) (compress l)
           (waitGroup l) (closeOnce l) (currentSize l).
Definition set_fp (f : option string) (l : RotateLogger) : RotateLogger :=
  mkLogger (filename l) (backup l) f (channel l) (done l) (rule l) (compress l)
           (waitGroup l) (closeOnce l) (currentSize l).
Definition set_channel (c : list (list Byte.byte)) (l : RotateLogger) : RotateLogger :=
  mkLogger (filename l) (backup l) (fp l) c (done l) (rule l) (compress l)
           (waitGroup l) (closeOnce l) (currentSize l).
Definition set_done (d : bool) (l : RotateLogger) : RotateLogger :=
  mkLogger (filename l) (backup l) (fp l) (channel l) d (rule l) (compress l)
           (waitGroup l) (closeOnce l) (currentSize l).
Definition set_rule (r : R) (l : RotateLogger) : RotateLogger :=
  mkLogger (filename l) (backup l) (fp l) (channel l) (done l) r (compress l)
           (waitGroup l) (closeOnce l) (currentSize l).
Definition set_waitGroup (n : nat) (l : RotateLogger) : RotateLogger :=
  mkLogger (filename l) (backup l) (fp l) (channel l) (done l) (rule l) (compress l)
           n (closeOnce l) (currentSize l).
Definition set_closeOnce (b : bool) (l : RotateLogger) : RotateLogger :=
  mkLogger (filename l) (backup l) (fp l) (channel l) (done l) (rule l) (compress l)
           (waitGroup l) b (currentSize l).
Definition set_currentSize (n : Z) (l : RotateLogger) : RotateLogger :=
  mkLogger (filename l) (backup l) (fp l) (channel l) (done l) (rule l) (compress l)
           (waitGroup l) (closeOnce l) n.

(** The calls into the rule, recorded. *)
Definition rule_BackupFileName (l : RotateLogger) : M string :=
  n ← BackupFileName (rule l); emit (EvBackupFileName n);; mret n.

Definition rule_ShallRotate (l : RotateLogger) (cur n : Z) : M bool :=
  b ← ShallRotate (rule l) cur n; emit (EvShallRotate cur n b);; mret b.

Definition rule_MarkRotated (l : RotateLogger) : M RotateLogger :=
  r ← MarkRotated (rule l); emit EvMarkRotated;; mret (set_rule r l).

Definition getBackupFilename (l : RotateLogger) : M string :=
  if len (backup l) =? 0 then rule_BackupFileName l else mret (backup l).

(** [init]: the backup name, then the file created (with its
    directories) or opened for appending. *)
Definition init (l : RotateLogger) : M (option error * RotateLogger) :=
  b ← rule_BackupFileName l;
  let l := set_backup b l in
  st ← os_Stat (filename l);
  match st with
  | Some _ =>
      let basePath := Filepath.Dir (filename l) in
      st' ← os_Stat basePath;
      mk ← match st' with
           | Some _ => f ← fault; emit (EvMkdirAll basePath f);; mret f
           | None => mret None
           end;
      match mk with
      | Some e => mret (Some e, l)
      | None =>
          '(h, err) ← os_Create (filename l);
          mret (err, set_fp h l)
      end
  | None =>
      f ← fault;
      emit (EvOpenAppend (filename l) f);;
      match f with
      | Some e => mret (Some e, set_fp None l)
      | None => mret (None, set_fp (Some (filename l)) l)
      end
  end.

(** [postRotate] starts a goroutine and returns. *)
Definition postRotate (l : RotateLogger) (file : string) : M unit :=
  emit (EvSpawn file).

(** [maybeDeleteOutdatedFiles], run by that goroutine. *)
Definition maybeDeleteOutdatedFiles (l : RotateLogger) : M unit :=
  files ← OutdatedFiles (rule l);
  (fix loop (fs : list string) : M unit :=
     match fs with
     | [] => mret tt
     | file :: rest =>
         e ← os_Remove file;
         match e with
         | Some _ => emit (EvLog ("failed to remove outdated file: " +:+ file))
         | None => mret tt
         end;;
         loop rest
     end) files.

(** [rotate]; [fs.CloseOnExec] sets a flag of the descriptor that
    nothing here observes. *)
Definition rotate (l : RotateLogger) : M (option error * RotateLogger) :=
  '(err, l) ← match fp l with
              | Some f => e ← file_Close f; mret (e, set_fp None l)
              | None => mret (None, l)
              end;
  match err with
  | Some e => mret (Some e, l)
  | None =>
      st ← os_Stat (filename l);
      err ← (if bool_decide (st = None) && (0 <? len (backup l)) then
               backupFilename ← getBackupFilename l;
               e ← os_Rename (filename l) backupFilename;
               match e with
               | Some _ => mret e
               | None => postRotate l backupFilename;; mret None
               end
             else mret None);
      match err with
      | Some e => mret (Some e, l)
      | None =>
          b ← rule_BackupFileName l;
          let l := set_backup b l in
          '(h, err) ← os_Create (filename l);
          mret (err, set_fp h l)
      end
  end.

(** [write]: what the worker does with one record. *)
Definition write (v : list Byte.byte) (l : RotateLogger) : M RotateLogger :=
  b ← rule_ShallRotate l (currentSize l) (blen v);
  l ← (if (b : bool) then
         '(err, l) ← rotate l;
         match err with
         | Some e => emit (EvStderr (error_text e));; mret l
         | None =>
             l ← rule_MarkRotated l;
             mret (set_currentSize 0 l)
         end
       else mret l) : M RotateLogger;
  match fp l with
  | Some f =>
      file_Write f v;;
      mret (set_currentSize (GoInt.add (currentSize l) (blen v)) l)
  | None => mret l
  end.

(** The worker while [Close] waits for it: [done] is closed, so each
    turn of its [select] may take the next record, if there is one, or
    leave; [picks] are the choices of the scheduler ([true]: receive). *)
Fixpoint worker_drain (picks : list bool) (l : RotateLogger) : M RotateLogger :=
  match channel l, picks with
  | v :: q, true :: picks' =>
      l ← write v (set_channel q l);
      worker_drain picks' l
  | _, _ => mret (set_waitGroup 0 l)
  end.

(** One turn of the worker's [select]; [None] when it has to wait. *)
Definition worker_step (pick_recv : bool) (l : RotateLogger)
  : M (option RotateLogger) :=
  match channel l, done l with
  | [], false => mret None
  | v :: q, false => l ← write v (set_channel q l); mret (Some l)
  | [], true => mret (Some (set_waitGroup 0 l))
  | v :: q, true =>
      if pick_recv then l ← write v (set_channel q l); mret (Some l)
      else mret (Some (set_waitGroup 0 l))
  end.

Definition startWorker (l : RotateLogger) : RotateLogger :=
  set_waitGroup (S (waitGroup l)) l.

(** [NewLogger] *)
Definition NewLogger (filename : string) (rule : R) (compress : bool)
  : M (option RotateLogger * option error) :=
  let l := mkLogger filename "" None [] false rule compress 0 false 0 in
  '(err, l) ← init l;
  match err with
  | Some e => mret (None, Some e)
  | None => mret (Some (startWorker l), None)
  end.

(** [Close]: the body runs under [closeOnce]; the error variable is
    local to each call. *)
Definition Close (picks : list bool) (l : RotateLogger)
  : M (option error * RotateLogger) :=
  if closeOnce l then mret (None, l)
  else
    let l := set_done true (set_closeOnce true l) in
    l ← (if (waitGroup l =? 0)%nat then mret l else worker_drain picks l);
    match fp l with
    | None => mret (Some ErrInvalid, l)
    | Some f =>
        e ← file_Sync f;
        match e with
        | Some _ => mret (e, l)
        | None => e ← file_Close f; mret (e, l)
        end
    end.

(** The two cases of the [select] in [Write]. *)
Definition enqueue (data : list Byte.byte) (l : RotateLogger)
  : M (WriteResult * RotateLogger) :=
  mret (Returned (blen data) None, set_channel (channel l ++ [data]) l).

Definition refuse (data : list Byte.byte) (l : RotateLogger)
  : M (WriteResult * RotateLogger) :=
  emit (EvStderr (String.string_of_list_byte data));;
  mret (Returned 0 (Some ErrLogFileClosed), l).

(** [Write]: a [select] over sending on the channel, which is possible
    while fewer than [bufferSize] records wait in it, and receiving
    from [done], which is possible once it is closed.  When both are
    possible the scheduler picks one ([pick_send]). *)
Definition Write (pick_send : bool) (data : list Byte.byte) (l : RotateLogger)
  : M (WriteResult * RotateLogger) :=
  match bool_decide (length (channel l) < bufferSize)%nat, done l with
  | false, false => mret (Blocked, l)
  | true, false => enqueue data l
  | false, true => refuse data l
  | true, true => if pick_send then enqueue data l else refuse data l
  end.

End WithRule.

Arguments RotateLogger R : clear implicits.

End Logger.

(** A rule whose naming, marking and rotation test leave the world as
    it is: they read the clock and nothing else.  Both rules of the
    package are of that kind. *)
Class RuleReadsOnly (R : Type) `{RotateRule R} : Prop := {
  BackupFileName_world : forall (r : R) w, snd (BackupFileName r w) = w;
  MarkRotated_world : forall (r : R) w, snd (MarkRotated r w) = w;
  ShallRotate_world : forall (r : R) cur n w, snd (ShallRotate r cur n w) = w
}.

(** ** Notions used in the statements *)

(** *** The calendar *)

(** The local day of a time, counted from 0001-01-01, and the year the
    calendar gives it. *)
Definition local_day (zone : Z) (t : GoTime.Time) : Z :=
  GoTime.abs_seconds zone t / 86400.

Definition local_year (zone : Z) (t : GoTime.Time) : Z :=
  fst (GoTime.year_yday (local_day zone t)).

(** Years written with four digits. *)
Definition four_digit_year (zone : Z) (t : GoTime.Time) : Prop :=
  0 <= local_year zone t <= 9999.

(** [month_day] by leap flag. *)
Definition month_day_l (leap : bool) (yday : Z) : Z * Z :=
  if leap && (yday =? 31 + 29 - 1) then (2, 29)
  else
    let day := if leap && (31 + 29 - 1 <? yday) then yday - 1 else yday in
    let month := day / 31 in
    let e := GoTime.daysBefore (month + 1) in
    if e <=? day then (month + 2, day - e + 1)
    else (month + 1, day - GoTime.daysBefore month + 1).

(** Lexicographic order on pairs and on calendar dates. *)
Definition pair_lt (a b : Z * Z) : bool :=
  (fst a <? fst b) || ((fst a =? fst b) && (snd a <? snd b)).

(** Checks over a range of integers, for facts settled by running
    the printing functions. *)
Definition all_in (lo n : Z) (P : Z -> bool) : bool :=
  forallb P (seqZ lo n).

(** The printed date of a day counted from 0001-01-01, and the printed
    RFC 3339 time of a local second counted from there. *)
Definition date_string (d : Z) : string :=
  let '(y, yd) := GoTime.year_yday d in
  let '(m, dd) := GoTime.month_day y yd in
  GoTime.appendInt y 4 +:+ "-" +:+ GoTime.appendInt m 2 +:+ "-"
  +:+ GoTime.appendInt dd 2.

Definition stamp_string (zone a : Z) : string :=
  let s := a mod 86400 in
  date_string (a / 86400) +:+ "T" +:+ GoTime.appendInt (s / 3600) 2 +:+ ":"
  +:+ GoTime.appendInt (s mod 3600 / 60) 2 +:+ ":"
  +:+ GoTime.appendInt (s mod 60) 2 +:+ GoTime.format_zone zone.

Definition day_year (d : Z) : Z := fst (GoTime.year_yday d).

(** Largest number of days whose duration in nanoseconds fits 64 bits. *)
Definition max_keep_days : Z := 106751.

(** *** Names, paths and the logger *)

(** The fields of a logger that only [Write], [Close] and the worker's
    own loop set. *)
Definition same_frame {R : Type} (l l' : Logger.RotateLogger R) : Prop :=
  Logger.filename l' = Logger.filename l
  /\ Logger.done l' = Logger.done l
  /\ Logger.compress l' = Logger.compress l
  /\ Logger.closeOnce l' = Logger.closeOnce l.

(** What closing the handle adds to the trace when it succeeds. *)
Definition close_events {R : Type} (l : Logger.RotateLogger R) : list Event :=
  match Logger.fp l with Some f => [EvClose f None] | None => [] end.

(** The file name and delimiter of a rule are plain: the delimiter is
    not empty and has no separator, neither holds a pattern character,
    and the file name ends in a proper name. *)
Definition plain_names (r : DailyRotateRule) : Prop :=
  delimiter r <> ""
  /\ Pattern.hasMeta (filename r +:+ delimiter r) = false
  /\ GoStrings.contains_char "/" (delimiter r) = false
  /\ snd (Filepath.Split (filename r)) <> ""
  /\ snd (Filepath.Split (filename r)) <> ".".

(** A pattern term for each byte of a literal string. *)
Fixpoint literal_terms (s : string) : list Pattern.term :=
  match s with
  | EmptyString => []
  | String c s' => Pattern.TLit c :: literal_terms s'
  end.

(** What [Clean] leaves of [x] in front of a last element joined to it. *)
Definition clean_prefix (x : string) : string :=
  let rooted := GoStrings.has_prefix "/" (x +:+ "/") in
  let st := fold_left (Filepath.clean_step rooted) (GoStrings.Split x "/") [] in
  (if rooted then "/" else "") +:+
  match List.rev st with
  | [] => ""
  | ys => GoStrings.Join ys "/" +:+ "/"
  end.

(** The name under which the backup made in [w] is listed later: the
    name of [BackupFileName], compressed or not. *)
Definition listed_backup (r : SizeLimitRotateRule) (w : World) : string :=
  fst (SizeLimit.BackupFileName r w) +:+ (if gzip r then gzipExt else "").

(** ** Concrete rules, worlds and loggers used as inputs *)

Definition size_rule (maxSize : Z) : SizeLimitRotateRule :=
  mkSizeLimit (mkDaily "" "app.log" "-" 0 false) maxSize 0.

Definition quiet_world : World :=
  mkWorld ∅ (1700000000 * GoTime.Second) 0 [] [].

(** An open logger over the size rule, its worker running. *)
Definition closing_logger : Logger.RotateLogger SizeLimitRotateRule :=
  Logger.mkLogger "app.log" "app-old.log" (Some "app.log") [] false
    (size_rule 1) false 1 false 0.

(** The target file exists; the close and the [Stat] will succeed and
    the rename will fail. *)
Definition rename_fails_world : World :=
  mkWorld {[ "app.log" := [Byte.x61] ]} (1700000000 * GoTime.Second) 0
    [None; None; Some (ErrOS 13)] [].

(** A logger whose file has reached the budget of 1 MB, and a world
    where every call succeeds. *)
Definition full_logger : Logger.RotateLogger SizeLimitRotateRule :=
  Logger.mkLogger "app.log" "app-old.log" (Some "app.log") [] false
    (size_rule 1) false 1 false 1048576.

Definition rotating_world : World :=
  mkWorld {[ "app.log" := [Byte.x61] ]} (1700000000 * GoTime.Second) 0 [] [].

(** A size rule with a delimiter, for backup names. *)
Definition name_rule (gz : bool) : SizeLimitRotateRule :=
  mkSizeLimit (mkDaily "" "app.log" "-" 0 gz) 1 0.

(** Five backups of [app.log] under the size rule, beside the active
    file and an unrelated one. *)
Definition five_backups_world : World :=
  mkWorld {[ "app.log" := [Byte.x61];
             "app-2023-11-10T08:00:00Z.log" := [];
             "app-2023-11-12T08:00:00Z.log" := [];
             "app-2023-11-09T08:00:00Z.log" := [];
             "app-2023-11-13T08:00:00Z.log" := [];
             "app-2023-11-11T08:00:00Z.log" := [];
             "other.log" := [] ]}
    (1700000000 * GoTime.Second) 0 [] [].

Definition keep_two (days : Z) : SizeLimitRotateRule :=
  mkSizeLimit (mkDaily "" "app.log" "-" days false) 1 2.

Definition five_backups : list string :=
  ["app-2023-11-09T08:00:00Z.log"; "app-2023-11-10T08:00:00Z.log";
   "app-2023-11-11T08:00:00Z.log"; "app-2023-11-12T08:00:00Z.log";
   "app-2023-11-13T08:00:00Z.log"].

(** The daily rule with a window of three days, and a world at
    2023-11-14 holding the active file and backups of four and of two
    days ago. *)
Definition three_days (delim : string) : DailyRotateRule :=
  mkDaily "2023-11-14" "app.log" delim 3 false.

Definition daily_world : World :=
  mkWorld {[ "app.log" := [Byte.x61];
             "app.log-2023-11-10" := [];
             "app.log-2023-11-12" := [] ]}
    (1700000000 * GoTime.Second) 0 [] [].

(** The size rule keeping backups for [days] days, without a bound on
    their number, and the world five minutes and one second after
    [quiet_world], in which the backup made then is listed. *)
Definition keep_days (days : Z) : SizeLimitRotateRule :=
  mkSizeLimit (mkDaily "" "app.log" "-" days false) 1 0.

Definition five_minutes_later : World :=
  mkWorld {[ "app.log" := []; "app-2023-11-13T22:18:20Z.log" := [Byte.x61] ]}
    (1700000301 * GoTime.Second) 0 [] [].

(** *** Notions about the logger at work *)

(** The files a rotation leaves: the old content under the cached
    backup name, when there is one, and an empty target. *)
Definition rotated_files {R : Type} (l : Logger.RotateLogger R)
    (c : list Byte.byte) (fs : gmap string (list Byte.byte))
  : gmap string (list Byte.byte) :=
  <[Filepath.Clean (Logger.filename l) := []]>
    (if 0 <? len (Logger.backup l)
     then <[Filepath.Clean (Logger.backup l) := c]>
            (delete (Filepath.Clean (Logger.filename l)) fs)
     else fs).

(** The events [rotate] can add to the trace. *)
Definition rotate_kind (e : Event) : Prop :=
  match e with
  | EvClose _ _ | EvStat _ _ | EvRename _ _ _ | EvCreate _ _
  | EvSpawn _ | EvBackupFileName _ => True
  | _ => False
  end.

(** How many of [n] waiting records the worker takes before it leaves,
    when the scheduler's choices are [picks]. *)
Fixpoint taken (picks : list bool) (n : nat) : nat :=
  match picks, n with
  | true :: picks', S m => S (taken picks' m)
  | _, _ => O
  end.

(** The paths of the removals in a list of events, in their order. *)
Definition removals (evs : list Event) : list string :=
  omap (fun e => match e with EvRemove p _ => Some p | _ => None end) evs.

(** [s] ends in [sfx]. *)
Definition has_suffix (sfx s : string) : Prop := exists q, s = q +:+ sfx.

(** *** More inputs *)

(** A logger that has counted the one byte in the target file of
    [rotating_world], and a world where the next call fails. *)
Definition counted_logger : Logger.RotateLogger SizeLimitRotateRule :=
  Logger.mkLogger "app.log" "app-old.log" (Some "app.log") [] false
    (size_rule 1) false 1 false 1.

Definition next_call_fails_world : World :=
  mkWorld {[ "app.log" := [Byte.x61] ]} (1700000000 * GoTime.Second) 0
    [Some (ErrOS 5)] [].

(** An open logger under a size rule without a budget, two records
    waiting in its channel. *)
Definition queued_logger : Logger.RotateLogger SizeLimitRotateRule :=
  Logger.mkLogger "app.log" "app-old.log" (Some "app.log")
    [[Byte.x62]; [Byte.x63]] false (size_rule 0) false 1 false 1.

(** Loggers for the clean-up: under the rule that keeps two backups,
    in [five_backups_world], and under the daily rule of
    [daily_world]. *)
Definition cleaning_logger : Logger.RotateLogger SizeLimitRotateRule :=
  Logger.mkLogger "app.log" "" None [] false (keep_two 0) false 0 false 0.

Definition daily_logger : Logger.RotateLogger DailyRotateRule :=
  Logger.mkLogger "app.log" "" None [] false (three_days "-") false 0 false 0.

(** Four days before [daily_world], and the day after that, the target
    file holding one byte. *)
Definition four_days_before : World :=
  mkWorld ∅ ((1700000000 - 4 * 86400) * GoTime.Second) 0 [] [].

Definition next_day_world : World :=
  mkWorld {[ "app.log" := [Byte.x61] ]}
    ((1700000000 - 3 * 86400) * GoTime.Second) 0 [] [].

(** *** Daily backups as the clean-up lists them *)

(** The name of the daily backup of the local day [d], counted from
    0001-01-01: the rule's file name as it is given, the delimiter and
    the printed date, with [.gz] under a rule set to gzip. *)
Definition dated_backup (r : DailyRotateRule) (d : Z) : string :=
  filename r +:+ delimiter r +:+ date_string d
  +:+ (if gzip r then gzipExt else "").

(** The file name of a rule is a clean path: [Clean] leaves it as it
    is, and its last element is not the parent directory. *)
Definition clean_file_name (r : DailyRotateRule) : Prop :=
  Filepath.Clean (filename r) = filename r
  /\ snd (Filepath.Split (filename r)) <> "..".

(** The local day of the boundary of the daily age test: the day of
    the instant [days] times 24 hours before now, under the offset that
    [Format] applies to that instant. *)
Definition boundary_day (r : DailyRotateRule) (w : World) : Z :=
  local_day (zone w) (GoTime.Add (now w) (keep_duration (days r))).

(** The daily rule with a window of three days for a given file name,
    and a world at 2023-11-14 holding [a.log] and its backups of four
    and of two days ago. *)
Definition three_days_of (name : string) : DailyRotateRule :=
  mkDaily "2023-11-14" name "-" 3 false.

Definition a_log_world : World :=
  mkWorld {[ "a.log" := [Byte.x61];
             "a.log-2023-11-10" := [];
             "a.log-2023-11-12" := [] ]}
    (1700000000 * GoTime.Second) 0 [] [].


(** * Properties of the model *)

(** ** Sanity checks of the library models and integer facts *)

Lemma wrap_in_range z : GoInt.in_range (GoInt.wrap z).
Proof.
  unfold GoInt.in_range, GoInt.wrap, GoInt.min_int, GoInt.max_int.
  pose proof (Z.mod_pos_bound (z + 2 ^ 63) (2 ^ 64) ltac:(lia)). lia.
Qed.

Lemma wrap_id z : GoInt.in_range z -> GoInt.wrap z = z.
Proof.
  unfold GoInt.in_range, GoInt.wrap, GoInt.min_int, GoInt.max_int. intros H.
  rewrite Z.mod_small by lia. lia.
Qed.

Example format_date_epoch :
  GoTime.Format 0 0 GoTime.dateFormat = "1970-01-01".
Proof. reflexivity. Qed.

Example format_date_leap :
  GoTime.Format 0 (1709164800 * GoTime.Second) GoTime.dateFormat = "2024-02-29".
Proof. reflexivity. Qed.

Example format_date_eoy :
  GoTime.Format 0 (1735689599 * GoTime.Second) GoTime.dateFormat = "2024-12-31".
Proof. reflexivity. Qed.

Example format_rfc3339_zone :
  GoTime.Format 28800 (1700000000 * GoTime.Second + 5) GoTime.rfc3339DateFormat
  = "2023-11-15T06:13:20+08:00".
Proof. reflexivity. Qed.

Example format_rfc3339_utc :
  GoTime.Format 0 (951782400 * GoTime.Second) GoTime.rfc3339DateFormat
  = "2000-02-29T00:00:00Z".
Proof. reflexivity. Qed.

Example split_two : GoStrings.Split "app-2024" "-" = ["app"; "2024"].
Proof. reflexivity. Qed.

Example split_overlap : GoStrings.Split "a--b---c" "--" = ["a"; "b"; "-c"].
Proof. reflexivity. Qed.

Example split_none : GoStrings.Split "" "-" = [""].
Proof. reflexivity. Qed.

Example split_ends : GoStrings.Split "-a-" "-" = [""; "a"; ""].
Proof. reflexivity. Qed.

Example split_empty_sep : GoStrings.Split "abc" "" = ["a"; "b"; "c"].
Proof. reflexivity. Qed.

Example ext_log : Filepath.Ext "logs/app.v1.log" = ".log". Proof. reflexivity. Qed.

Example ext_none : Filepath.Ext "logs.d/app" = "". Proof. reflexivity. Qed.

Example dir_plain : Filepath.Dir "app.log" = ".". Proof. reflexivity. Qed.

Example dir_nested : Filepath.Dir "/var//log/./x/../app.log" = "/var/log".
Proof. reflexivity. Qed.

Example base_nested : Filepath.Base "/var/log/app.log" = "app.log".
Proof. reflexivity. Qed.

Example clean_dotdot : Filepath.Clean "../a/../../b/" = "../../b".
Proof. reflexivity. Qed.

Example clean_root : Filepath.Clean "/../a/.." = "/". Proof. reflexivity. Qed.

Example join_dot : Filepath.Join "." "app-x.log" = "app-x.log".
Proof. reflexivity. Qed.

Example join_dir : Filepath.Join "./logs" "app-x.log" = "logs/app-x.log".
Proof. reflexivity. Qed.
Example match_star : Pattern.Match "app.log-*" "app.log-2024-01-02" = Some true.
Proof. reflexivity. Qed.
Example match_star_gz : Pattern.Match "app-*.log.gz" "app-2024.log" = Some false.
Proof. reflexivity. Qed.
Example match_star_sep : Pattern.Match "a*" "ab/c" = Some false.
Proof. reflexivity. Qed.
Example match_class : Pattern.Match "[a-c]?\*" "bz*" = Some true.
Proof. reflexivity. Qed.
Example match_bad : Pattern.Match "a[" "a" = None.
Proof. reflexivity. Qed.
Example match_bad_class : Pattern.Match "[]a]" "a" = None.
Proof. reflexivity. Qed.
Example match_neg : Pattern.Match "[^a-c]x" "dx" = Some true.
Proof. reflexivity. Qed.

Example parse_rfc3339_ok :
  GoTime.Parse_rfc3339 "2023-11-15T06:13:20+08:00" = Some (1700000000 * GoTime.Second).
Proof. reflexivity. Qed.
Example parse_rfc3339_utc :
  GoTime.Parse_rfc3339 "2000-02-29T00:00:00.5Z"
  = Some (951782400 * GoTime.Second + 500000000).
Proof. reflexivity. Qed.
Example parse_rfc3339_bad_day : GoTime.Parse_rfc3339 "2001-02-29T00:00:00Z" = None.
Proof. reflexivity. Qed.
Example parse_rfc3339_empty : GoTime.Parse_rfc3339 "" = None.
Proof. reflexivity. Qed.

(** ** What the system calls do *)

Ltac mopen := unfold mbind, M_bind, mret, M_ret; cbn beta iota zeta.

Ltac splits := repeat match goal with |- _ /\ _ => split end.

Lemma file_Close_spec f w :
  exists e, file_Close f w = (e, set_trace (trace w ++ [EvClose f e]) (set_faults (tail (faults w)) w)).
Proof.
  unfold file_Close, fault. mopen. destruct w as [fs n z fl tr]; destruct fl; simpl; eauto.
Qed.

Lemma os_Stat_spec p w :
  exists w' r, os_Stat p w = (r, w') /\ trace w' = trace w ++ [EvStat p r]
    /\ files w' = files w
    /\ (r = None -> FS.exists_path (files w) p = true).
Proof.
  unfold os_Stat, fault, get_world, emit. mopen.
  destruct w as [fs n z fl tr]; destruct fl as [| [e |] fl];
    cbn [faults trace files set_trace set_faults];
    try (destruct (FS.exists_path fs p) eqn:E);
    eexists; eexists; repeat split; eauto; discriminate.
Qed.

Lemma os_Rename_spec a b w :
  exists w' r, os_Rename a b w = (r, w') /\ trace w' = trace w ++ [EvRename a b r]
    /\ (r <> None -> files w' = files w).
Proof.
  unfold os_Rename, fault, get_world, emit, update_files. mopen.
  destruct w as [fs n z fl tr]; destruct fl as [|[e|] fl]; simpl.
  - destruct (fs !! Filepath.Clean a) eqn:E; simpl; eexists; eexists; repeat split; eauto; congruence.
  - destruct (fs !! Filepath.Clean a) eqn:E; simpl; eexists; eexists; repeat split; eauto; congruence.
  - destruct (fs !! Filepath.Clean a) eqn:E; simpl; eexists; eexists; repeat split; eauto; congruence.
Qed.

Lemma os_Create_spec p w :
  exists w' h e, os_Create p w = (h, e, w') /\ trace w' = trace w ++ [EvCreate p e]
    /\ (e = None -> h = Some p /\ files w' = <[Filepath.Clean p := []]> (files w))
    /\ (e <> None -> h = None /\ files w' = files w).
Proof.
  unfold os_Create, fault, get_world, emit, update_files. mopen.
  destruct w as [fs n z fl tr]; destruct fl as [|[e|] fl]; simpl;
   eexists; eexists; eexists; repeat split; eauto; congruence.
Qed.

Lemma file_Write_spec f v w :
  exists w' e, file_Write f v w = (e, w') /\ trace w' = trace w ++ [EvWrite f v e]
    /\ files w' = (if e is Some _ then files w else alter (fun c => c ++ v) (Filepath.Clean f) (files w)).
Proof.
  unfold file_Write, fault, get_world, emit, update_files. mopen.
  destruct w as [fs n z fl tr]; destruct fl as [|[e|] fl]; simpl;
   eexists; eexists; repeat split; eauto; congruence.
Qed.

(** ** The order on strings *)

Module StrOrder.

Import OrderedTypeEx.

Abbreviation lts := String_as_OT.lt.

Lemma str_lt_iff a b : str_lt a b = true <-> lts a b.
Proof.
  unfold str_lt, String.ltb. rewrite <- String_as_OT.cmp_lt.
  unfold String_as_OT.cmp. destruct (String.compare a b); intuition discriminate.
Qed.

Lemma str_le_iff a b : str_le a b <-> a = b \/ lts a b.
Proof.
  unfold str_le, String.leb. rewrite <- String_as_OT.cmp_lt.
  unfold String_as_OT.cmp.
  destruct (String.compare a b) eqn:E.
  - apply String.compare_eq_iff in E. intuition.
  - intuition.
  - split; [discriminate |]. intros [-> | Hlt]; [| discriminate].
    assert (String.compare b b = Eq) by (apply String_as_OT.cmp_eq; reflexivity).
    congruence.
Qed.

Lemma lts_irrefl a : ~ lts a a.
Proof. intros Hl. exact (String_as_OT.lt_not_eq _ _ Hl eq_refl). Qed.

Lemma lts_trans a b c : lts a b -> lts b c -> lts a c.
Proof. apply String_as_OT.lt_trans. Qed.

Lemma lts_tail a s1 s2 : lts s1 s2 -> lts (String a s1) (String a s2).
Proof. apply String_as_OT.lts_tail. Qed.

Lemma str_lt_trans a b c :
  str_lt a b = true -> str_lt b c = true -> str_lt a c = true.
Proof. rewrite !str_lt_iff. apply String_as_OT.lt_trans. Qed.

Lemma str_le_lt_trans a b c :
  str_le a b -> str_lt b c = true -> str_lt a c = true.
Proof.
  rewrite str_le_iff, !str_lt_iff. intros [-> | Hab] Hbc; [assumption |].
  eapply String_as_OT.lt_trans; eassumption.
Qed.

Lemma str_lt_irrefl a : str_lt a a = false.
Proof.
  destruct (str_lt a a) eqn:E; [| reflexivity].
  apply str_lt_iff in E. destruct (lts_irrefl _ E).
Qed.

Lemma str_lt_asym a b : str_lt a b = true -> str_lt b a = false.
Proof.
  intros Hab. destruct (str_lt b a) eqn:E; [| reflexivity].
  pose proof (str_lt_trans _ _ _ Hab E) as Haa.
  rewrite str_lt_irrefl in Haa. discriminate.
Qed.

#[global] Instance str_le_trans : Transitive str_le.
Proof.
  intros a b c. rewrite !str_le_iff.
  intros [-> | Hab] [-> | Hbc]; auto.
  right. eapply String_as_OT.lt_trans; eassumption.
Qed.

#[global] Instance str_le_total : Total str_le.
Proof. intros a b. apply String.leb_total. Qed.

(** A common prefix does not count. *)
Lemma lts_app_l p a b : lts a b -> lts (p +:+ a) (p +:+ b).
Proof.
  intros Hl. induction p; simpl; [assumption |].
  apply String_as_OT.lts_tail. exact IHp.
Qed.

(** Between strings of one length the first difference decides,
    whatever follows. *)
Lemma lts_app_same_length a b x y :
  lts a b -> String.length a = String.length b -> lts (a +:+ x) (b +:+ y).
Proof.
  intros Hl. revert x y. induction Hl; intros x y Hlen; simpl in *.
  - discriminate.
  - apply String_as_OT.lts_tail. apply IHHl. congruence.
  - apply String_as_OT.lts_head. assumption.
Qed.

Lemma lts_app_r_inv p a b : lts (p +:+ a) (p +:+ b) -> lts a b.
Proof.
  induction p; simpl; intros Hl; [assumption |].
  apply IHp. eapply String_as_OT.lts_tail_unique. exact Hl.
Qed.

Lemma length_append a b :
  String.length (a +:+ b) = (String.length a + String.length b)%nat.
Proof.
  induction a as [| c a IHa]; [reflexivity |].
  change (S (String.length (a +:+ b)) = S (String.length a + String.length b)).
  f_equal. exact IHa.
Qed.

Lemma append_assoc a b c : (a +:+ b) +:+ c = a +:+ (b +:+ c).
Proof.
  induction a as [| x a IHa]; [reflexivity |].
  change (String x ((a +:+ b) +:+ c) = String x (a +:+ (b +:+ c))).
  f_equal. exact IHa.
Qed.

Lemma append_nil_r a : a +:+ "" = a.
Proof.
  induction a as [| x a IHa]; [reflexivity |].
  change (String x (a +:+ "") = String x a). f_equal. exact IHa.
Qed.

End StrOrder.

Lemma sortStrings_sorted l : StronglySorted str_le (sortStrings l).
Proof. apply StronglySorted_merge_sort; apply _. Qed.

Lemma sortStrings_perm l : sortStrings l ≡ₚ l.
Proof. apply merge_sort_Permutation. Qed.

(** ** Patterns, paths and [Glob] *)

Module PathFacts.
Import GoStrings StrOrder.

Lemma contains_char_app c a b :
  contains_char c (a +:+ b) = contains_char c a || contains_char c b.
Proof.
  induction a as [| x a IH]; [reflexivity |].
  change (contains_char c (String x (a +:+ b))
          = contains_char c (String x a) || contains_char c b).
  cbn [contains_char]. rewrite IH, orb_assoc. reflexivity.
Qed.

Lemma hasMeta_app a b :
  Pattern.hasMeta (a +:+ b) = Pattern.hasMeta a || Pattern.hasMeta b.
Proof.
  unfold Pattern.hasMeta. rewrite !contains_char_app.
  repeat match goal with |- context [contains_char ?c ?s] =>
    destruct (contains_char c s); cbn [orb] end; reflexivity.
Qed.

Lemma hasMeta_cons c s :
  Pattern.hasMeta (String c s) = false ->
  c <> "*"%char /\ c <> "?"%char /\ c <> "["%char /\ c <> "\"%char
  /\ Pattern.hasMeta s = false.
Proof.
  unfold Pattern.hasMeta. cbn [contains_char].
  rewrite !orb_false_iff, !Ascii.eqb_neq. intuition.
Qed.

(** A literal string is read as its bytes. *)
Lemma parse_literal s : forall k rest,
  Pattern.hasMeta s = false ->
  Pattern.parse (String.length s + k) (s +:+ rest)
  = (app (literal_terms s)) <$> Pattern.parse k rest.
Proof.
  induction s as [| c s IH]; intros k rest Hm.
  - cbn [String.length Nat.add literal_terms app]. change ("" +:+ rest) with rest.
    destruct (Pattern.parse k rest); reflexivity.
  - apply hasMeta_cons in Hm as (H1 & H2 & H3 & H4 & Hm).
    change (String c s +:+ rest) with (String c (s +:+ rest)).
    cbn [String.length Nat.add]. cbn [Pattern.parse].
    rewrite (IH k rest Hm).
    destruct c as [[] [] [] [] [] [] [] []]; try congruence;
      destruct (Pattern.parse k rest); reflexivity.
Qed.

(** A name matching a literal prefix starts with it. *)
Lemma matches_literal s : forall ts n,
  Pattern.matches (literal_terms s ++ ts) n = true ->
  exists rest, n = s +:+ rest /\ Pattern.matches ts rest = true.
Proof.
  induction s as [| c s IH]; intros ts n Hm.
  - exists n. split; [reflexivity | exact Hm].
  - cbn [literal_terms app Pattern.matches] in Hm.
    destruct n as [| a n]; [discriminate |].
    apply andb_true_iff in Hm as [Hc Hm]. apply Ascii.eqb_eq in Hc. subst a.
    destruct (IH ts n Hm) as (rest & -> & Hr).
    exists rest. split; [reflexivity | exact Hr].
Qed.

Lemma matches_literal_only s n :
  Pattern.matches (literal_terms s) n = true -> n = s.
Proof.
  intros Hm. rewrite <- (app_nil_r (literal_terms s)) in Hm.
  apply matches_literal in Hm as (rest & -> & Hr).
  cbn [Pattern.matches] in Hr. apply String.eqb_eq in Hr. subst rest.
  apply append_nil_r.
Qed.

(** What [*] takes has no separator. *)
Lemma star_no_separator k : forall s,
  (forall x, k x = true -> contains_char "/" x = false) ->
  Pattern.star k s = true -> contains_char "/" s = false.
Proof.
  induction s as [| c s IH]; intros Hk Hs.
  - reflexivity.
  - cbn [Pattern.star] in Hs. apply orb_true_iff in Hs as [Hs | Hs].
    + exact (Hk _ Hs).
    + apply andb_true_iff in Hs as [Hc Hs].
      cbn [contains_char]. unfold Filepath.Separator in Hc.
      apply negb_true_iff in Hc. rewrite Hc. cbn [orb]. apply IH; assumption.
Qed.

(** *** Splitting at the separator, and [Clean] *)

Lemma split_go_no_separator n : forall cur,
  contains_char "/" n = false ->
  split_go "/" n 0 cur = [rev_acc cur n].
Proof.
  induction n as [| a n IH]; intros cur Hn.
  - reflexivity.
  - cbn [contains_char] in Hn. apply orb_false_iff in Hn as [Ha Hn].
    cbn [split_go has_prefix]. rewrite Ascii.eqb_sym, Ha. cbn [andb].
    rewrite IH by exact Hn. reflexivity.
Qed.

Lemma split_go_snoc n x : forall cur,
  contains_char "/" n = false ->
  split_go "/" (x +:+ "/" +:+ n) 0 cur = split_go "/" x 0 cur ++ [n].
Proof.
  induction x as [| a x IH]; intros cur Hn.
  - change ("" +:+ "/" +:+ n) with (String "/" n).
    cbn [split_go has_prefix Ascii.eqb Bool.eqb andb String.length Nat.sub].
    rewrite split_go_no_separator by exact Hn. reflexivity.
  - change (String a x +:+ "/" +:+ n) with (String a (x +:+ "/" +:+ n)).
    cbn [split_go has_prefix String.length Nat.sub].
    destruct (Ascii.eqb "/" a); cbn [andb]; rewrite IH by exact Hn; reflexivity.
Qed.

Lemma Join_snoc ys n :
  GoStrings.Join (ys ++ [n]) "/"
  = match ys with
    | [] => n
    | _ => GoStrings.Join ys "/" +:+ "/" +:+ n
    end.
Proof.
  induction ys as [| y ys IH]; [reflexivity |].
  destruct ys as [| y' ys].
  - reflexivity.
  - change ((y :: y' :: ys) ++ [n]) with (y :: (y' :: ys) ++ [n]).
    cbn [GoStrings.Join app] in *. rewrite IH.
    rewrite !append_assoc. reflexivity.
Qed.

Lemma Split_no_separator x :
  contains_char "/" x = false -> Filepath.Split x = ("", x).
Proof.
  induction x as [| c x IH]; intros Hx; [reflexivity |].
  cbn [contains_char] in Hx. apply orb_false_iff in Hx as [Hc Hx].
  cbn [Filepath.Split]. rewrite (IH Hx). unfold Filepath.Separator.
  rewrite Hc. reflexivity.
Qed.

Lemma Split_app_no_separator p x :
  contains_char "/" x = false ->
  Filepath.Split (p +:+ x) = (fst (Filepath.Split p), snd (Filepath.Split p) +:+ x).
Proof.
  intros Hx. induction p as [| c p IH].
  - change ("" +:+ x) with x. rewrite Split_no_separator by exact Hx. reflexivity.
  - change (String c p +:+ x) with (String c (p +:+ x)).
    cbn [Filepath.Split]. rewrite IH.
    destruct (Filepath.Split p) as [d f]. cbn [fst snd].
    destruct d; [| reflexivity].
    destruct (Ascii.eqb c Filepath.Separator); reflexivity.
Qed.

Lemma Split_separator_end q : Filepath.Split (q +:+ "/") = (q +:+ "/", "").
Proof.
  induction q as [| c q IH]; [reflexivity |].
  change (String c q +:+ "/") with (String c (q +:+ "/")).
  cbn [Filepath.Split]. rewrite IH.
  destruct q; reflexivity.
Qed.

(** The last element of a path that ends in a name without separator. *)
Lemma Split_last q n :
  contains_char "/" n = false ->
  q = "" \/ (exists q', q = q' +:+ "/") ->
  snd (Filepath.Split (q +:+ n)) = n.
Proof.
  intros Hn Hq. rewrite Split_app_no_separator by exact Hn. cbn [snd].
  destruct Hq as [-> | [q' ->]]; [reflexivity |].
  rewrite Split_separator_end. reflexivity.
Qed.

Lemma Split_slash p : GoStrings.Split p "/" = split_go "/" p 0 "".
Proof. reflexivity. Qed.

Lemma clean_step_name rooted st n :
  n <> "" -> n <> "." -> n <> ".." ->
  Filepath.clean_step rooted st n = n :: st.
Proof.
  intros H0 H1 H2. unfold Filepath.clean_step.
  apply String.eqb_neq in H0, H1, H2. rewrite H0, H1, H2. reflexivity.
Qed.

Lemma has_prefix_separator x n :
  has_prefix "/" (x +:+ "/" +:+ n) = has_prefix "/" (x +:+ "/").
Proof. destruct x; reflexivity. Qed.

(** [Clean] keeps a proper last element, behind a prefix that the
    path before it fixes. *)
Lemma Clean_snoc_name x n :
  contains_char "/" n = false -> n <> "" -> n <> "." -> n <> ".." ->
  Filepath.Clean (x +:+ "/" +:+ n) = clean_prefix x +:+ n.
Proof.
  intros Hn H0 H1 H2. unfold Filepath.Clean, clean_prefix. cbv zeta.
  rewrite !Split_slash, !split_go_snoc by exact Hn.
  rewrite !fold_left_app. cbn [fold_left].
  rewrite !clean_step_name by assumption.
  rewrite !has_prefix_separator.
  set (rooted := has_prefix "/" (x +:+ "/")).
  set (st := fold_left (Filepath.clean_step rooted) (split_go "/" x 0 "") []).
  cbn [List.rev]. rewrite !Join_snoc.
  set (pre := if rooted then "/" else "").
  assert (Hout : pre +:+ match List.rev st with
                         | [] => n
                         | _ => GoStrings.Join (List.rev st) "/" +:+ "/" +:+ n
                         end
                 = (pre +:+ match List.rev st with
                            | [] => ""
                            | y :: ys => GoStrings.Join (y :: ys) "/" +:+ "/"
                            end) +:+ n).
  { destruct (List.rev st) as [| y ys].
    - rewrite append_assoc. reflexivity.
    - rewrite !append_assoc. reflexivity. }
  rewrite !Hout.
  destruct (String.eqb _ "") eqn:E; [| reflexivity].
  apply String.eqb_eq in E. apply (f_equal String.length) in E.
  rewrite length_append in E. destruct n; [congruence | cbn in E; lia].
Qed.

Lemma clean_prefix_shape x :
  clean_prefix x = "" \/ exists q', clean_prefix x = q' +:+ "/".
Proof.
  unfold clean_prefix. cbv zeta.
  set (rooted := has_prefix "/" (x +:+ "/")).
  destruct (List.rev _) as [| y ys].
  - destruct rooted; [right; exists ""; reflexivity | left; reflexivity].
  - right. exists ((if rooted then "/" else "") +:+ GoStrings.Join (y :: ys) "/").
    rewrite append_assoc. reflexivity.
Qed.

Lemma Clean_last_element x n :
  contains_char "/" n = false -> n <> "" -> n <> "." -> n <> ".." ->
  exists q, Filepath.Clean (x +:+ "/" +:+ n) = q +:+ n
            /\ (q = "" \/ exists q', q = q' +:+ "/").
Proof.
  intros Hn H0 H1 H2. exists (clean_prefix x). split.
  - apply Clean_snoc_name; assumption.
  - apply clean_prefix_shape.
Qed.

Lemma Clean_nonempty p : Filepath.Clean p <> "".
Proof.
  unfold Filepath.Clean. cbv zeta.
  destruct (String.eqb _ "") eqn:E; [discriminate |].
  apply String.eqb_neq in E. exact E.
Qed.

(** Joining a proper name to a directory puts it behind the cleaned
    directory. *)
Lemma Join_name d n :
  d <> "" ->
  contains_char "/" n = false -> n <> "" -> n <> "." -> n <> ".." ->
  Filepath.Join d n = clean_prefix d +:+ n.
Proof.
  intros Hd Hn H0 H1 H2. unfold Filepath.Join.
  apply String.eqb_neq in Hd. rewrite Hd. cbn [negb].
  apply Clean_snoc_name; assumption.
Qed.

Lemma Clean_name n :
  contains_char "/" n = false -> n <> "" -> n <> "." -> n <> ".." ->
  Filepath.Clean n = n.
Proof.
  intros Hn H0 H1 H2. unfold Filepath.Clean. cbv zeta.
  assert (Hr : has_prefix "/" n = false).
  { destruct n as [| c n]; [congruence |]. cbn [contains_char] in Hn.
    apply orb_false_iff in Hn as [Hc _]. cbn [has_prefix].
    rewrite Ascii.eqb_sym, Hc. reflexivity. }
  rewrite !Hr, !Split_slash, !split_go_no_separator by exact Hn.
  cbn [rev_acc fold_left]. rewrite !clean_step_name by assumption.
  cbn [List.rev app GoStrings.Join]. change ("" +:+ n) with n.
  destruct (String.eqb n "") eqn:E; [| reflexivity].
  apply String.eqb_eq in E. congruence.
Qed.

(** The last element of a joined path is the name joined. *)
Lemma Join_last_element d n :
  contains_char "/" n = false -> n <> "" -> n <> "." -> n <> ".." ->
  snd (Filepath.Split (Filepath.Join d n)) = n.
Proof.
  intros Hn H0 H1 H2. unfold Filepath.Join.
  destruct (String.eqb d "") eqn:Ed; cbn [negb].
  - apply String.eqb_neq in H0 as E0. rewrite E0. cbn [negb].
    rewrite Clean_name by assumption.
    rewrite Split_no_separator by exact Hn. reflexivity.
  - destruct (Clean_last_element d n Hn H0 H1 H2) as (q & -> & Hq).
    apply Split_last; assumption.
Qed.


Lemma Split_parts p : p = fst (Filepath.Split p) +:+ snd (Filepath.Split p).
Proof.
  induction p as [| c p IH]; [reflexivity |].
  cbn [Filepath.Split]. destruct (Filepath.Split p) as [d f]. cbn [fst snd] in *.
  destruct d.
  - destruct (Ascii.eqb c Filepath.Separator) eqn:Hc; cbn [fst snd].
    + change ("" +:+ f) with f in IH. subst f. reflexivity.
    + reflexivity.
  - cbn [fst snd]. change (String c (String a d) +:+ f)
      with (String c (String a d +:+ f)). rewrite <- IH. reflexivity.
Qed.

Lemma Split_snd_no_separator p :
  contains_char "/" (snd (Filepath.Split p)) = false.
Proof.
  induction p as [| c p IH]; [reflexivity |].
  cbn [Filepath.Split]. pose proof (Split_parts p) as Hp.
  destruct (Filepath.Split p) as [d f]. cbn [fst snd] in *.
  destruct d.
  - change ("" +:+ f) with f in Hp. subst f.
    destruct (Ascii.eqb c Filepath.Separator) eqn:Hc; cbn [snd].
    + exact IH.
    + cbn [contains_char]. unfold Filepath.Separator in Hc. rewrite Hc. exact IH.
  - exact IH.
Qed.

(** What [Glob] returns for a pattern with a wildcard: a directory
    joined with a name that matches the last element of the pattern. *)
Lemma Glob_results fuel fs P files :
  FS.Glob fuel fs P = inl files ->
  Pattern.hasMeta P = true ->
  forall f, f ∈ files ->
  exists d n, f = Filepath.Join d n
              /\ Pattern.Match (snd (Filepath.Split P)) n = Some true.
Proof.
  intros Hg Hm f Hf.
  assert (Hglob : forall d file, f ∈ FS.glob fs d file ->
            exists d n, f = Filepath.Join d n /\ Pattern.Match file n = Some true).
  { intros d file Hin. unfold FS.glob in Hin.
    apply list_elem_of_fmap in Hin as (n & -> & Hn).
    apply list_elem_of_filter in Hn as [Hn _]. eauto. }
  destruct fuel as [| fuel]; cbn [FS.Glob] in Hg;
    destruct (Pattern.Match P ""); try discriminate;
    rewrite Hm in Hg; cbn [negb] in Hg;
    destruct (Filepath.Split P) as [dir file]; cbn [snd];
    destruct (negb (Pattern.hasMeta (FS.cleanGlobPath dir)));
    try (injection Hg as <-; eapply Hglob; eassumption);
    destruct (String.eqb (FS.cleanGlobPath dir) P); try discriminate.
  destruct (FS.Glob fuel fs (FS.cleanGlobPath dir)) as [m | e]; [| discriminate].
  injection Hg as <-.
  apply list_elem_of_In, in_flat_map in Hf as (d & _ & Hf).
  apply list_elem_of_In in Hf. eapply Hglob; eassumption.
Qed.


(** The names the pattern of the daily rule matches: the last element
    of the file name, the delimiter, and a rest without separator. *)
Lemma daily_pattern_match b delim (gz : bool) n :
  Pattern.hasMeta (b +:+ delim) = false ->
  Pattern.Match (b +:+ delim +:+ (if gz then "*" +:+ gzipExt else "*")) n = Some true ->
  exists rest, n = b +:+ delim +:+ rest /\ contains_char "/" rest = false.
Proof.
  intros Hm. unfold Pattern.Match.
  rewrite <- append_assoc.
  replace (S (String.length ((b +:+ delim) +:+ (if gz then "*" +:+ gzipExt else "*"))))
    with (String.length (b +:+ delim)
          + S (String.length (if gz then "*" +:+ gzipExt else "*")))%nat
    by (rewrite (length_append (b +:+ delim)); lia).
  rewrite parse_literal by exact Hm.
  assert (Hp : exists sfx,
    Pattern.parse (S (String.length (if gz then "*" +:+ gzipExt else "*")))
      (if gz then "*" +:+ gzipExt else "*")
    = Some (Pattern.TStar :: literal_terms sfx) /\ contains_char "/" sfx = false).
  { destruct gz; [exists ".gz" | exists ""]; split; reflexivity. }
  destruct Hp as (sfx & -> & Hsfx). cbn [fmap option_fmap option_map mbind option_bind].
  intros [= Hmatch].
  apply matches_literal in Hmatch as (rest & -> & Hr).
  exists rest. split; [apply append_assoc |].
  cbn [Pattern.matches] in Hr.
  apply (star_no_separator (Pattern.matches (literal_terms sfx))); [| exact Hr].
  intros x Hx. apply matches_literal_only in Hx. subst x. exact Hsfx.
Qed.

Lemma proper_name_with_delimiter b delim rest :
  b <> "" -> b <> "." -> delim <> "" ->
  let n := b +:+ delim +:+ rest in n <> "" /\ n <> "." /\ n <> "..".
Proof.
  intros Hb Hdot Hd. cbv zeta.
  destruct b as [| c1 b]; [congruence |].
  destruct delim as [| c2 delim]; [congruence |].
  destruct b as [| c3 b].
  - change (String c1 "" +:+ String c2 delim +:+ rest)
      with (String c1 (String c2 (delim +:+ rest))).
    splits; try discriminate. intros [= -> _ _]. congruence.
  - change (String c1 (String c3 b) +:+ String c2 delim +:+ rest)
      with (String c1 (String c3 (b +:+ String c2 delim +:+ rest))).
    splits; try discriminate. intros [= _ _ Hn].
    destruct b; discriminate.
Qed.

(** With plain names the active file is not among the matches. *)
Lemma Daily_glob_excludes_active (r : DailyRotateRule) w files :
  plain_names r ->
  fst (filepath_Glob (Daily.pattern r) w) = inl files ->
  filename r ∉ files.
Proof.
  intros (Hd & Hm & Hsep & Hb & Hdot) Hg Hin.
  pose proof (Split_parts (filename r)) as Hparts.
  pose proof (Split_snd_no_separator (filename r)) as Hbsep.
  set (d0 := fst (Filepath.Split (filename r))) in *.
  set (b0 := snd (Filepath.Split (filename r))) in *.
  assert (Hpat : Daily.pattern r
                 = filename r +:+ delimiter r
                   +:+ (if gzip r then "*" +:+ gzipExt else "*")).
  { unfold Daily.pattern. destruct (gzip r); reflexivity. }
  assert (Htail : contains_char "/" (delimiter r +:+
                    (if gzip r then "*" +:+ gzipExt else "*")) = false).
  { rewrite contains_char_app, Hsep. destruct (gzip r); reflexivity. }
  assert (Hmeta : Pattern.hasMeta (Daily.pattern r) = true).
  { rewrite Hpat, !hasMeta_app. destruct (gzip r);
      rewrite !orb_true_iff; right; right; reflexivity. }
  unfold filepath_Glob in Hg. cbn [fst] in Hg.
  destruct (Glob_results _ _ _ _ Hg Hmeta _ Hin) as (d & n & Hf & Hmatch).
  rewrite Hpat in Hmatch.
  rewrite Split_app_no_separator in Hmatch by exact Htail.
  cbn [snd] in Hmatch. fold b0 in Hmatch.
  assert (Hmb : Pattern.hasMeta (b0 +:+ delimiter r) = false).
  { rewrite Hparts, append_assoc, hasMeta_app in Hm.
    apply orb_false_iff in Hm as [_ Hm]. exact Hm. }
  apply daily_pattern_match in Hmatch as (rest & Hn & Hrest); [| exact Hmb].
  destruct (proper_name_with_delimiter b0 (delimiter r) rest Hb Hdot Hd)
    as (N0 & N1 & N2).
  rewrite <- Hn in N0, N1, N2.
  assert (Hnsep : contains_char "/" n = false).
  { rewrite Hn, !contains_char_app, Hbsep, Hsep, Hrest. reflexivity. }
  pose proof (Join_last_element d n Hnsep N0 N1 N2) as Hlast.
  rewrite <- Hf in Hlast. fold b0 in Hlast.
  rewrite Hn in Hlast. apply (f_equal String.length) in Hlast.
  rewrite !length_append in Hlast.
  destruct (delimiter r); [congruence | cbn in Hlast; lia].
Qed.

End PathFacts.

(** ** The base name and the extension *)

Module BaseFacts.
Import GoStrings StrOrder PathFacts.

Lemma rev_acc_app s : forall acc, rev_acc s acc = rev s +:+ acc.
Proof.
  unfold rev. induction s as [| c s IH]; intros acc; [reflexivity |].
  cbn [rev_acc]. rewrite (IH (String c acc)), (IH (String c "")).
  rewrite append_assoc. reflexivity.
Qed.

Lemma rev_acc_snoc s c : forall acc,
  rev_acc (s +:+ String c "") acc = String c (rev_acc s acc).
Proof.
  induction s as [| a s IH]; intros acc; [reflexivity |].
  change (String a s +:+ String c "") with (String a (s +:+ String c "")).
  cbn [rev_acc]. apply IH.
Qed.

Lemma rev_snoc s c : rev (s +:+ String c "") = String c (rev s).
Proof. apply rev_acc_snoc. Qed.

Lemma rev_cons c s : rev (String c s) = rev s +:+ String c "".
Proof. unfold rev. cbn [rev_acc]. apply rev_acc_app. Qed.

(** A path whose last element is not empty ends in a byte other than
    the separator. *)
Lemma last_element_nonempty p :
  snd (Filepath.Split p) <> "" ->
  exists q c, p = q +:+ String c "" /\ Ascii.eqb c "/" = false.
Proof.
  induction p as [| a p IH]; [intros Hn; exfalso; apply Hn; reflexivity |].
  cbn [Filepath.Split]. pose proof (Split_parts p) as Hp.
  destruct (Filepath.Split p) as [d f]. cbn [fst snd] in *.
  destruct d.
  - change ("" +:+ f) with f in Hp. subst f.
    destruct (Ascii.eqb a Filepath.Separator) eqn:Ha; cbn [snd]; intros Hn.
    + destruct (IH Hn) as (q & c & -> & Hc).
      exists (String a q), c. split; [reflexivity | exact Hc].
    + destruct p as [| b p].
      * exists "", a. split; [reflexivity | exact Ha].
      * destruct (IH ltac:(discriminate)) as (q & c & Hq & Hc).
        exists (String a q), c. rewrite Hq. split; [reflexivity | exact Hc].
  - intros Hn. destruct (IH Hn) as (q & c & -> & Hc).
    exists (String a q), c. split; [reflexivity | exact Hc].
Qed.

Lemma strip_trailing_id p :
  snd (Filepath.Split p) <> "" -> Filepath.strip_trailing p = p.
Proof.
  intros Hn. destruct (last_element_nonempty p Hn) as (q & c & -> & Hc).
  unfold Filepath.strip_trailing. rewrite rev_snoc.
  unfold Filepath.Separator. rewrite Hc. rewrite rev_cons.
  f_equal. clear. unfold rev.
  assert (Hrr : forall s acc, rev_acc (rev_acc s acc) "" = rev_acc acc s).
  { induction s as [| a s IH]; intros acc; [reflexivity |].
    cbn [rev_acc]. rewrite IH. reflexivity. }
  apply (Hrr q "").
Qed.

(** The extension is part of the last element. *)
Lemma Ext_within_last_element p :
  (String.length (Filepath.Ext p) <= String.length (snd (Filepath.Split p)))%nat.
Proof.
  induction p as [| c p IH]; [reflexivity |].
  cbn [Filepath.Ext Filepath.Split].
  pose proof (Split_parts p) as Hp.
  destruct (Filepath.Ext p) as [| e0 e] eqn:He.
  - destruct (Ascii.eqb c "." && negb (contains_char Filepath.Separator p)) eqn:Hdot.
    + apply andb_true_iff in Hdot as [Hc Hs]. apply negb_true_iff in Hs.
      apply Ascii.eqb_eq in Hc. subst c.
      rewrite (Split_no_separator p Hs). reflexivity.
    + cbn. lia.
  - destruct (Filepath.Split p) as [d f]. cbn [fst snd] in *.
    destruct d.
    + change ("" +:+ f) with f in Hp. subst f.
      destruct (Ascii.eqb c Filepath.Separator); cbn [snd String.length] in *; lia.
    + cbn [snd]. exact IH.
Qed.

(** The slice [logname[:len(logname)-len(ext)]] of [parseFilename] is
    always in range. *)
Lemma parseFilename_in_range p :
  (String.length (Filepath.Ext p) <= String.length (Filepath.Base p))%nat.
Proof.
  pose proof (Ext_within_last_element p) as Hle.
  unfold Filepath.Base.
  destruct (String.eqb p "") eqn:Hp.
  - apply String.eqb_eq in Hp. subst p. cbn. lia.
  - destruct (string_dec (snd (Filepath.Split p)) "") as [He | Hne].
    + rewrite He in Hle. cbn in Hle.
      assert (Filepath.Ext p = "") as -> by (destruct (Filepath.Ext p); [reflexivity | cbn in Hle; lia]).
      cbn. lia.
    + rewrite strip_trailing_id by exact Hne.
      apply String.eqb_neq in Hne. rewrite Hne. exact Hle.
Qed.

End BaseFacts.

(** ** The calendar and the order of printed times *)

Module TimeFacts.

Import GoTime StrOrder.

Lemma all_in_spec lo n P :
  all_in lo n P = true -> forall x, lo <= x < lo + n -> P x = true.
Proof.
  unfold all_in. rewrite forallb_forall. intros Hall x Hx.
  apply Hall. apply list_elem_of_In. apply elem_of_seqZ. lia.
Qed.

Lemma shiftr2 n : Z.shiftr n 2 = n / 4.
Proof. rewrite Z.shiftr_div_pow2 by lia. reflexivity. Qed.

(** The cycles of [year_yday] find the year whose days hold [d]. *)
Lemma year_yday_spec d :
  let '(y, yd) := year_yday d in
  d = year_start y + yd /\ 0 <= yd /\ year_start y + yd < year_start (y + 1).
Proof.
  unfold year_yday, year_start, daysPer400Years, daysPer100Years, daysPer4Years.
  rewrite !shiftr2. cbv zeta.
  Z.div_mod_to_equations. lia.
Qed.

Lemma year_start_mono a b : a <= b -> year_start a <= year_start b.
Proof.
  unfold year_start. cbv zeta. intros Hab.
  Z.div_mod_to_equations. lia.
Qed.

Lemma year_length y :
  year_start (y + 1) - year_start y = if isLeap y then 366 else 365.
Proof.
  unfold year_start, isLeap. cbv zeta.
  destruct (y mod 4 =? 0) eqn:E4; destruct (y mod 100 =? 0) eqn:E100;
    destruct (y mod 400 =? 0) eqn:E400; cbn [andb orb negb];
    rewrite ?Z.eqb_eq, ?Z.eqb_neq in *;
    Z.div_mod_to_equations; lia.
Qed.

(** Later days have a later year, or the same year and a later day. *)
Lemma year_yday_mono d1 d2 :
  d1 < d2 ->
  let '(y1, yd1) := year_yday d1 in
  let '(y2, yd2) := year_yday d2 in
  y1 < y2 \/ (y1 = y2 /\ yd1 < yd2).
Proof.
  intros Hlt.
  pose proof (year_yday_spec d1) as H1. pose proof (year_yday_spec d2) as H2.
  destruct (year_yday d1) as [y1 yd1], (year_yday d2) as [y2 yd2].
  destruct (Z.lt_trichotomy y1 y2) as [Hy | [Hy | Hy]].
  - left. exact Hy.
  - right. subst y2. lia.
  - exfalso. pose proof (year_start_mono (y2 + 1) y1 ltac:(lia)). lia.
Qed.

Lemma month_day_check_leap :
  all_in 0 366 (fun a =>
    let '(m, d) := month_day_l true a in
    (1 <=? m) && (m <=? 12) && (1 <=? d) && (d <=? 31)
    && all_in (a + 1) (365 - a) (fun b =>
         pair_lt (month_day_l true a) (month_day_l true b))) = true.
Proof. vm_compute. reflexivity. Qed.

Lemma month_day_check_common :
  all_in 0 365 (fun a =>
    let '(m, d) := month_day_l false a in
    (1 <=? m) && (m <=? 12) && (1 <=? d) && (d <=? 31)
    && all_in (a + 1) (364 - a) (fun b =>
         pair_lt (month_day_l false a) (month_day_l false b))) = true.
Proof. vm_compute. reflexivity. Qed.

Lemma month_day_l_facts (leap : bool) a :
  0 <= a -> a < (if leap then 366 else 365) ->
  (let '(m, d) := month_day_l leap a in 1 <= m <= 12 /\ 1 <= d <= 31)
  /\ forall b, a < b -> b < (if leap then 366 else 365) ->
       pair_lt (month_day_l leap a) (month_day_l leap b) = true.
Proof.
  intros H0 H1. destruct leap.
  - pose proof (all_in_spec _ _ _ month_day_check_leap a ltac:(lia)) as Hx.
    cbv beta in Hx.
    destruct (month_day_l true a) as [m d] eqn:E.
    apply andb_true_iff in Hx as [Hr Hx]. split.
    + rewrite !andb_true_iff, !Z.leb_le in Hr. lia.
    + intros b Hab Hb. exact (all_in_spec _ _ _ Hx b ltac:(lia)).
  - pose proof (all_in_spec _ _ _ month_day_check_common a ltac:(lia)) as Hx.
    cbv beta in Hx.
    destruct (month_day_l false a) as [m d] eqn:E.
    apply andb_true_iff in Hx as [Hr Hx]. split.
    + rewrite !andb_true_iff, !Z.leb_le in Hr. lia.
    + intros b Hab Hb. exact (all_in_spec _ _ _ Hx b ltac:(lia)).
Qed.

Lemma month_day_l_eq y yd : month_day y yd = month_day_l (isLeap y) yd.
Proof. reflexivity. Qed.

Lemma month_day_range y yd :
  0 <= yd -> yd < (if isLeap y then 366 else 365) ->
  let '(m, d) := month_day y yd in 1 <= m <= 12 /\ 1 <= d <= 31.
Proof.
  intros H0 H1. rewrite month_day_l_eq.
  exact (proj1 (month_day_l_facts (isLeap y) yd H0 H1)).
Qed.

Lemma month_day_mono y a b :
  0 <= a -> a < b -> b < (if isLeap y then 366 else 365) ->
  pair_lt (month_day y a) (month_day y b) = true.
Proof.
  intros H0 Hab H1. rewrite !month_day_l_eq.
  apply (proj2 (month_day_l_facts (isLeap y) a H0 ltac:(lia))); assumption.
Qed.

(** *** Fixed-width decimal fields sort as numbers *)

Lemma appendInt2_check :
  all_in 0 100 (fun a =>
    (String.length (appendInt a 2) =? 2)%nat
    && all_in (a + 1) (99 - a) (fun b => str_lt (appendInt a 2) (appendInt b 2)))
  = true.
Proof. vm_compute. reflexivity. Qed.

Lemma appendInt4_check :
  all_in 0 10000 (fun a =>
    (String.length (appendInt a 4) =? 4)%nat
    && ((a =? 9999) || str_lt (appendInt a 4) (appendInt (a + 1) 4))) = true.
Proof. vm_compute. reflexivity. Qed.

Lemma appendInt2_length a : 0 <= a < 100 -> String.length (appendInt a 2) = 2%nat.
Proof.
  intros Ha. pose proof (all_in_spec _ _ _ appendInt2_check a ltac:(lia)) as Hx.
  cbv beta in Hx. apply andb_true_iff in Hx as [Hx _].
  apply Nat.eqb_eq in Hx. exact Hx.
Qed.

Lemma appendInt2_mono a b :
  0 <= a -> a < b -> b < 100 -> lts (appendInt a 2) (appendInt b 2).
Proof.
  intros H0 Hab Hb.
  pose proof (all_in_spec _ _ _ appendInt2_check a ltac:(lia)) as Hx.
  cbv beta in Hx. apply andb_true_iff in Hx as [_ Hx].
  apply str_lt_iff. exact (all_in_spec _ _ _ Hx b ltac:(lia)).
Qed.

Lemma appendInt4_length a : 0 <= a <= 9999 -> String.length (appendInt a 4) = 4%nat.
Proof.
  intros Ha. pose proof (all_in_spec _ _ _ appendInt4_check a ltac:(lia)) as Hx.
  cbv beta in Hx. apply andb_true_iff in Hx as [Hx _].
  apply Nat.eqb_eq in Hx. exact Hx.
Qed.

Lemma appendInt4_succ a :
  0 <= a < 9999 -> lts (appendInt a 4) (appendInt (a + 1) 4).
Proof.
  intros Ha. pose proof (all_in_spec _ _ _ appendInt4_check a ltac:(lia)) as Hx.
  cbv beta in Hx. apply andb_true_iff in Hx as [_ Hx].
  apply orb_true_iff in Hx as [Hx | Hx]; [apply Z.eqb_eq in Hx; lia |].
  apply str_lt_iff. exact Hx.
Qed.

Lemma appendInt4_mono a b :
  0 <= a -> a < b -> b <= 9999 -> lts (appendInt a 4) (appendInt b 4).
Proof.
  intros H0 Hab Hb.
  replace b with (a + 1 + Z.of_nat (Z.to_nat (b - a - 1))) in Hb |- * by lia.
  clear Hab. generalize dependent (Z.to_nat (b - a - 1)). intros n.
  induction n as [| n IH]; intros Hb.
  - replace (a + 1 + Z.of_nat 0) with (a + 1) by lia.
    apply appendInt4_succ. lia.
  - eapply lts_trans; [apply IH; lia |].
    replace (a + 1 + Z.of_nat (S n)) with (a + 1 + Z.of_nat n + 1) by lia.
    apply appendInt4_succ. lia.
Qed.

(** *** Printed dates and times *)

Lemma Format_date_string zone t :
  Format zone t dateFormat = date_string (local_day zone t).
Proof.
  unfold Format, civil, date_string, local_day, format_date.
  destruct (year_yday _) as [y yd]. destruct (month_day y yd) as [m dd].
  reflexivity.
Qed.

Lemma Format_stamp_string zone t :
  Format zone t rfc3339DateFormat = stamp_string zone (abs_seconds zone t).
Proof.
  unfold Format, civil, stamp_string, date_string, format_rfc3339, format_date.
  cbv zeta.
  destruct (year_yday _) as [y yd]. destruct (month_day y yd) as [m dd].
  cbn [c_year c_month c_day c_hour c_min c_sec].
  reflexivity.
Qed.

(** The year, month and day of a day, with their ranges. *)
Lemma civil_ranges d :
  let '(y, yd) := year_yday d in
  let '(m, dd) := month_day y yd in
  1 <= m <= 12 /\ 1 <= dd <= 31.
Proof.
  pose proof (year_yday_spec d) as Hs.
  destruct (year_yday d) as [y yd].
  pose proof (year_length y) as Hl.
  apply month_day_range; destruct (isLeap y); lia.
Qed.

Lemma date_string_length d :
  0 <= day_year d <= 9999 -> String.length (date_string d) = 10%nat.
Proof.
  unfold day_year, date_string. intros Hy.
  pose proof (civil_ranges d) as Hr.
  destruct (year_yday d) as [y yd]. cbn [fst] in Hy.
  destruct (month_day y yd) as [m dd].
  rewrite !length_append, appendInt4_length, !appendInt2_length by lia.
  reflexivity.
Qed.

Lemma day_year_mono d1 d2 : d1 <= d2 -> day_year d1 <= day_year d2.
Proof.
  intros Hle. unfold day_year.
  destruct (Z.eq_dec d1 d2) as [-> | Hne]; [lia |].
  pose proof (year_yday_mono d1 d2 ltac:(lia)) as Hm.
  destruct (year_yday d1), (year_yday d2). cbn [fst]. lia.
Qed.

(** Dates with four-digit years sort as the days do. *)
Theorem date_string_mono d1 d2 :
  d1 < d2 -> 0 <= day_year d1 -> day_year d2 <= 9999 ->
  lts (date_string d1) (date_string d2).
Proof.
  intros Hlt Hlo Hhi.
  pose proof (day_year_mono d1 d2 ltac:(lia)) as Hyy.
  unfold day_year, date_string in *.
  pose proof (year_yday_mono d1 d2 Hlt) as Hm.
  pose proof (year_yday_spec d1) as Hs1. pose proof (year_yday_spec d2) as Hs2.
  pose proof (civil_ranges d1) as Hr1. pose proof (civil_ranges d2) as Hr2.
  destruct (year_yday d1) as [y1 yd1], (year_yday d2) as [y2 yd2].
  cbn [fst] in *.
  destruct Hm as [Hy | [<- Hyd]].
  - destruct (month_day y1 yd1) as [m1 dd1], (month_day y2 yd2) as [m2 dd2].
    apply lts_app_same_length.
    + apply appendInt4_mono; lia.
    + rewrite !appendInt4_length by lia. reflexivity.
  - pose proof (year_length y1) as Hl.
    pose proof (month_day_mono y1 yd1 yd2 ltac:(lia) Hyd
                  ltac:(destruct (isLeap y1); lia)) as Hp.
    destruct (month_day y1 yd1) as [m1 dd1], (month_day y1 yd2) as [m2 dd2].
    unfold pair_lt in Hp. cbn [fst snd] in Hp.
    apply lts_app_l. apply (lts_app_l "-").
    apply orb_true_iff in Hp as [Hp | Hp].
    + apply Z.ltb_lt in Hp. apply lts_app_same_length.
      * apply appendInt2_mono; lia.
      * rewrite !appendInt2_length by lia. reflexivity.
    + apply andb_true_iff in Hp as [He Hp].
      apply Z.eqb_eq in He. apply Z.ltb_lt in Hp. subst m2.
      apply lts_app_l. apply (lts_app_l "-").
      apply appendInt2_mono; lia.
Qed.

(** The time of day, printed, sorts as the seconds do. *)
Lemma time_of_day_mono s1 s2 z :
  0 <= s1 -> s1 < s2 -> s2 < 86400 ->
  lts (appendInt (s1 / 3600) 2 +:+ ":" +:+ appendInt (s1 mod 3600 / 60) 2 +:+ ":"
       +:+ appendInt (s1 mod 60) 2 +:+ z)
      (appendInt (s2 / 3600) 2 +:+ ":" +:+ appendInt (s2 mod 3600 / 60) 2 +:+ ":"
       +:+ appendInt (s2 mod 60) 2 +:+ z).
Proof.
  intros H0 Hlt H1.
  assert (Hh : s1 / 3600 < s2 / 3600
               \/ (s1 / 3600 = s2 / 3600
                   /\ (s1 mod 3600 / 60 < s2 mod 3600 / 60
                       \/ (s1 mod 3600 / 60 = s2 mod 3600 / 60
                           /\ s1 mod 60 < s2 mod 60))))
    by (Z.div_mod_to_equations; lia).
  assert (Hb1 : 0 <= s1 / 3600 < 24 /\ 0 <= s1 mod 3600 / 60 < 60 /\ 0 <= s1 mod 60 < 60)
    by (Z.div_mod_to_equations; lia).
  assert (Hb2 : 0 <= s2 / 3600 < 24 /\ 0 <= s2 mod 3600 / 60 < 60 /\ 0 <= s2 mod 60 < 60)
    by (Z.div_mod_to_equations; lia).
  destruct Hh as [Hh | [-> [Hm | [-> Hs]]]].
  - apply lts_app_same_length; [apply appendInt2_mono; lia |].
    rewrite !appendInt2_length by lia. reflexivity.
  - apply lts_app_l. apply (lts_app_l ":").
    apply lts_app_same_length; [apply appendInt2_mono; lia |].
    rewrite !appendInt2_length by lia. reflexivity.
  - apply lts_app_l. apply (lts_app_l ":"). apply lts_app_l. apply (lts_app_l ":").
    apply lts_app_same_length; [apply appendInt2_mono; lia |].
    rewrite !appendInt2_length by lia. reflexivity.
Qed.

(** RFC 3339 times of one zone with four-digit years sort as the
    seconds do. *)
Theorem stamp_string_mono zone a1 a2 :
  a1 < a2 -> 0 <= day_year (a1 / 86400) -> day_year (a2 / 86400) <= 9999 ->
  lts (stamp_string zone a1) (stamp_string zone a2).
Proof.
  intros Hlt Hlo Hhi. unfold stamp_string. cbv zeta.
  assert (Hd : a1 / 86400 < a2 / 86400
               \/ (a1 / 86400 = a2 / 86400 /\ a1 mod 86400 < a2 mod 86400))
    by (Z.div_mod_to_equations; lia).
  destruct Hd as [Hd | [Hd Hs]].
  - apply lts_app_same_length.
    + apply date_string_mono; assumption.
    + pose proof (day_year_mono (a1 / 86400) (a2 / 86400) ltac:(lia)).
      rewrite !date_string_length by lia. reflexivity.
  - rewrite Hd. apply lts_app_l. apply (lts_app_l "T").
    apply time_of_day_mono; [| assumption |];
      Z.div_mod_to_equations; lia.
Qed.

End TimeFacts.
(** ** The retention window as a duration *)

Lemma keep_duration_exact n :
  - max_keep_days <= n <= max_keep_days ->
  keep_duration n = - (n * 86400 * GoTime.Second).
Proof.
  unfold max_keep_days, keep_duration, GoInt.mul, GoInt.neg, hoursPerDay,
    GoTime.Hour, GoTime.Minute, GoTime.Second.
  intros Hn.
  rewrite (wrap_id (- _)) by (unfold GoInt.in_range, GoInt.min_int, GoInt.max_int; lia).
  rewrite (wrap_id (24 * n)) by (unfold GoInt.in_range, GoInt.min_int, GoInt.max_int; lia).
  rewrite wrap_id by (unfold GoInt.in_range, GoInt.min_int, GoInt.max_int; lia).
  lia.
Qed.

Lemma abs_seconds_Add zone t n :
  GoTime.abs_seconds zone (GoTime.Add t (- (n * GoTime.Second)))
  = GoTime.abs_seconds zone t - n.
Proof.
  unfold GoTime.abs_seconds, GoTime.Add, GoTime.Second.
  replace (t + - (n * 1000000000)) with (t + (- n) * 1000000000) by lia.
  rewrite Z.div_add by lia. lia.
Qed.

Lemma local_day_keep zone t n :
  - max_keep_days <= n <= max_keep_days ->
  local_day zone (GoTime.Add t (keep_duration n)) = local_day zone t - n.
Proof.
  intros Hn. rewrite keep_duration_exact by exact Hn.
  unfold local_day.
  replace (n * 86400 * GoTime.Second) with ((n * 86400) * GoTime.Second) by lia.
  rewrite abs_seconds_Add.
  replace (GoTime.abs_seconds zone t - n * 86400)
    with (GoTime.abs_seconds zone t + (- n) * 86400) by lia.
  rewrite Z.div_add by lia. lia.
Qed.

(** ** The time stamp of the size rule *)

Module StampFacts.

Import GoStrings GoTime StrOrder PathFacts.

Lemma digit_no_separator u : Ascii.eqb (digit u) "/" = false.
Proof.
  unfold digit. pose proof (Z.mod_pos_bound u 10 ltac:(lia)) as Hb.
  assert (Hc : u mod 10 = 0 \/ u mod 10 = 1 \/ u mod 10 = 2 \/ u mod 10 = 3
               \/ u mod 10 = 4 \/ u mod 10 = 5 \/ u mod 10 = 6 \/ u mod 10 = 7
               \/ u mod 10 = 8 \/ u mod 10 = 9) by lia.
  repeat destruct Hc as [-> | Hc]; try rewrite Hc; reflexivity.
Qed.

Lemma digits_aux_no_separator fuel : forall u acc,
  contains_char "/" acc = false ->
  contains_char "/" (digits_aux fuel u acc) = false.
Proof.
  induction fuel as [| f IH]; intros u acc Hacc; [exact Hacc |].
  cbn [digits_aux].
  assert (Hnew : contains_char "/" (String (digit u) acc) = false)
    by (cbn [contains_char]; rewrite digit_no_separator; exact Hacc).
  destruct (u / 10 =? 0); [exact Hnew | apply IH; exact Hnew].
Qed.

Lemma zeros_no_separator n : contains_char "/" (zeros n) = false.
Proof. induction n; [reflexivity | exact IHn]. Qed.

Lemma appendInt_no_separator x w : contains_char "/" (appendInt x w) = false.
Proof.
  unfold appendInt. cbv zeta.
  rewrite !contains_char_app, zeros_no_separator.
  unfold digits. rewrite digits_aux_no_separator by reflexivity.
  destruct (x <? 0); reflexivity.
Qed.

Lemma format_zone_no_separator zone : contains_char "/" (format_zone zone) = false.
Proof.
  unfold format_zone. destruct (zone =? 0); [reflexivity |]. cbv zeta.
  rewrite !contains_char_app, !appendInt_no_separator.
  destruct (Z.quot zone 60 <? 0); reflexivity.
Qed.

Lemma stamp_string_no_separator zone a :
  contains_char "/" (stamp_string zone a) = false.
Proof.
  unfold stamp_string, date_string. cbv zeta.
  destruct (year_yday _) as [y yd]. destruct (month_day y yd) as [m dd].
  rewrite !contains_char_app, !appendInt_no_separator, format_zone_no_separator.
  reflexivity.
Qed.

Lemma stamp_string_length zone a :
  0 <= day_year (a / 86400) <= 9999 ->
  String.length (stamp_string zone a) = (19 + String.length (format_zone zone))%nat.
Proof.
  intros Hy. unfold stamp_string. cbv zeta.
  rewrite !length_append, TimeFacts.date_string_length by exact Hy.
  rewrite !TimeFacts.appendInt2_length by (Z.div_mod_to_equations; lia).
  reflexivity.
Qed.

(** Times of one zone with four-digit years: the printed order is the
    order of the seconds, in both directions. *)
Lemma stamp_string_lt_iff zone a1 a2 e :
  0 <= day_year (a1 / 86400) <= 9999 -> 0 <= day_year (a2 / 86400) <= 9999 ->
  lts (stamp_string zone a1 +:+ e) (stamp_string zone a2 +:+ e) <-> a1 < a2.
Proof.
  intros H1 H2. split.
  - intros Hl. destruct (Z.lt_trichotomy a1 a2) as [Hlt | [-> | Hgt]];
      [assumption | |]; exfalso.
    + exact (lts_irrefl _ Hl).
    + assert (Hr : lts (stamp_string zone a2 +:+ e) (stamp_string zone a1 +:+ e)).
      { apply lts_app_same_length.
        - apply TimeFacts.stamp_string_mono; lia.
        - rewrite !stamp_string_length by assumption. reflexivity. }
      exact (lts_irrefl _ (lts_trans _ _ _ Hl Hr)).
  - intros Hlt. apply lts_app_same_length.
    + apply TimeFacts.stamp_string_mono; lia.
    + rewrite !stamp_string_length by assumption. reflexivity.
Qed.

Lemma getNowDateInRFC3339Format_eq w :
  getNowDateInRFC3339Format w
  = (stamp_string (zone w) (abs_seconds (zone w) (now w) - 86100), w).
Proof.
  unfold getNowDateInRFC3339Format, time_Now, time_Format.
  unfold mbind, M_bind. rewrite TimeFacts.Format_stamp_string.
  replace ((-24 * 60 + 5) * Minute) with (- (86100 * Second))
    by (unfold Minute, Second; lia).
  rewrite abs_seconds_Add. reflexivity.
Qed.

Lemma boundary_stamp_eq zone t n :
  - max_keep_days <= n <= max_keep_days ->
  Format zone (Add t (keep_duration n)) rfc3339DateFormat
  = stamp_string zone (abs_seconds zone t - n * 86400).
Proof.
  intros Hn. rewrite TimeFacts.Format_stamp_string, keep_duration_exact by exact Hn.
  replace (n * 86400 * Second) with ((n * 86400) * Second) by lia.
  rewrite abs_seconds_Add. reflexivity.
Qed.

End StampFacts.

(** ** The two rules only read the world *)

#[global] Instance Daily_reads_only : RuleReadsOnly DailyRotateRule.
Proof. split; intros; reflexivity. Qed.

#[global] Instance SizeLimit_reads_only : RuleReadsOnly SizeLimitRotateRule.
Proof.
  split; intros; reflexivity.
Qed.

(** ** [SizeLimitRotateRule.ShallRotate] *)

(** With 64-bit wrap-around the test is the comparison of the wrapped
    product with the wrapped sum. *)
Lemma SizeLimit_ShallRotate_wrapped (r : SizeLimitRotateRule) cur n w :
  fst (SizeLimit.ShallRotate r cur n w) = true <->
  0 < maxSize r /\ GoInt.wrap (maxSize r * 1048576) < GoInt.wrap (cur + n).
Proof.
  unfold SizeLimit.ShallRotate, GoInt.mul, GoInt.add, megabyte. simpl.
  rewrite andb_true_iff, !Z.ltb_lt. reflexivity.
Qed.

(** C2, as stated, fails where the sum overflows: a budget of 1 MB, a
    counter at the largest int and one more byte. *)
Lemma C2_counterexample :
  ~ (fst (SizeLimit.ShallRotate (size_rule 1) GoInt.max_int 1 quiet_world) = true
     <-> 0 < maxSize (size_rule 1)
         /\ maxSize (size_rule 1) * 1048576 < GoInt.max_int + 1).
Proof.
  intros [_ Hback].
  assert (Hf : fst (SizeLimit.ShallRotate (size_rule 1) GoInt.max_int 1 quiet_world) = false)
    by reflexivity.
  rewrite Hback in Hf; [discriminate |].
  simpl. unfold GoInt.max_int. lia.
Qed.

(** C2 (amended): whenever neither the product [maxSize*1048576] nor the
    sum [cur+len] overflows a 64-bit int, [ShallRotate(cur, len)] is true
    iff the budget is strictly positive and [maxSize*1048576 < cur+len];
    with [maxSize = 0] it is false for every [cur] and [len]. *)
Theorem C2_SizeLimit_ShallRotate (r : SizeLimitRotateRule) w :
  (forall cur n,
      GoInt.in_range (maxSize r * 1048576) -> GoInt.in_range (cur + n) ->
      (fst (SizeLimit.ShallRotate r cur n w) = true <->
       0 < maxSize r /\ maxSize r * 1048576 < cur + n))
  /\ (maxSize r = 0 -> forall cur n, fst (SizeLimit.ShallRotate r cur n w) = false).
Proof.
  split.
  - intros cur n Hm Hs. rewrite SizeLimit_ShallRotate_wrapped.
    rewrite !wrap_id by assumption. reflexivity.
  - intros Hz cur n. unfold SizeLimit.ShallRotate. simpl. rewrite Hz. reflexivity.
Qed.

Lemma C2_witness :
  (fst (SizeLimit.ShallRotate (size_rule 1) 1048576 1 quiet_world) = true <->
   0 < maxSize (size_rule 1) /\ maxSize (size_rule 1) * 1048576 < 1048576 + 1)
  /\ fst (SizeLimit.ShallRotate (size_rule 0) 5 7 quiet_world) = false.
Proof.
  split.
  - apply (proj1 (C2_SizeLimit_ShallRotate (size_rule 1) quiet_world));
      unfold GoInt.in_range, GoInt.min_int, GoInt.max_int; simpl; lia.
  - apply (proj2 (C2_SizeLimit_ShallRotate (size_rule 0) quiet_world)). reflexivity.
Defined.

(** ** [DailyRotateRule.ShallRotate] and [MarkRotated] *)

Lemma getNowDate_eq w :
  getNowDate w = (date_string (local_day (zone w) (now w)), w).
Proof.
  unfold getNowDate, time_Now, time_Format. mopen.
  rewrite TimeFacts.Format_date_string. reflexivity.
Qed.

Lemma date_string_nonempty d : date_string d <> "".
Proof.
  unfold date_string. destruct (GoTime.year_yday d) as [y yd].
  destruct (GoTime.month_day y yd) as [m dd]. intros Heq.
  apply (f_equal String.length) in Heq.
  rewrite !StrOrder.length_append in Heq. cbn in Heq. lia.
Qed.

Lemma len_pos_iff s : (0 <? len s) = true <-> s <> "".
Proof.
  unfold len. destruct s; cbn [String.length].
  - split; [discriminate | congruence].
  - split; [discriminate |]. intros _. apply Z.ltb_lt. lia.
Qed.

(** Days with four-digit years have different printed dates. *)
Lemma date_string_inj d1 d2 :
  0 <= day_year d1 <= 9999 -> 0 <= day_year d2 <= 9999 ->
  date_string d1 = date_string d2 -> d1 = d2.
Proof.
  intros H1 H2 Heq.
  destruct (Z.lt_trichotomy d1 d2) as [Hlt | [Heq' | Hgt]]; [| assumption |];
    exfalso.
  - pose proof (TimeFacts.date_string_mono d1 d2 Hlt ltac:(lia) ltac:(lia)) as Hl.
    rewrite Heq in Hl. exact (StrOrder.lts_irrefl _ Hl).
  - pose proof (TimeFacts.date_string_mono d2 d1 ltac:(lia) ltac:(lia) ltac:(lia)) as Hl.
    rewrite Heq in Hl. exact (StrOrder.lts_irrefl _ Hl).
Qed.

(** C7: the daily rule asks for a rotation exactly when it holds a
    marker and the local date, printed as YYYY-MM-DD, is not that
    marker; the sizes play no part.  [MarkRotated] sets the marker to
    the date of the day, after which the answer is false as long as the
    date is the same and true once it differs; for times of four-digit
    years the date is the same exactly on the same local day. *)
Theorem C7_Daily_ShallRotate (r : DailyRotateRule) w :
  (forall cur n,
      fst (Daily.ShallRotate r cur n w) = true <->
      rotatedTime r <> "" /\ fst (getNowDate w) <> rotatedTime r)
  /\ (forall cur n cur' n',
        Daily.ShallRotate r cur n w = Daily.ShallRotate r cur' n' w)
  /\ (let r' := fst (Daily.MarkRotated r w) in
      rotatedTime r' = fst (getNowDate w)
      /\ forall w' cur n,
           (fst (Daily.ShallRotate r' cur n w') = false <->
            fst (getNowDate w') = fst (getNowDate w))
           /\ (local_day (zone w') (now w') = local_day (zone w) (now w) ->
               fst (Daily.ShallRotate r' cur n w') = false)
           /\ (four_digit_year (zone w) (now w) ->
               four_digit_year (zone w') (now w') ->
               local_day (zone w') (now w') <> local_day (zone w) (now w) ->
               fst (Daily.ShallRotate r' cur n w') = true)).
Proof.
  assert (Hsr : forall (r0 : DailyRotateRule) cur n w0,
    fst (Daily.ShallRotate r0 cur n w0)
    = (0 <? len (rotatedTime r0))
      && negb (String.eqb (date_string (local_day (zone w0) (now w0)))
                 (rotatedTime r0))).
  { intros. unfold Daily.ShallRotate. mopen. rewrite getNowDate_eq. reflexivity. }
  splits.
  - intros cur n. rewrite Hsr, getNowDate_eq. cbn [fst].
    rewrite andb_true_iff, len_pos_iff, negb_true_iff, String.eqb_neq.
    reflexivity.
  - intros. reflexivity.
  - unfold Daily.MarkRotated. mopen. rewrite !getNowDate_eq. cbn [fst].
    cbn [rotatedTime set_rotatedTime].
    set (today := date_string (local_day (zone w) (now w))).
    assert (Hne : (0 <? len today) = true)
      by (apply len_pos_iff, date_string_nonempty).
    assert (Hiff : forall w' cur n,
      fst (Daily.ShallRotate (set_rotatedTime today r) cur n w') = false <->
      date_string (local_day (zone w') (now w')) = today).
    { intros. rewrite Hsr. cbn [rotatedTime set_rotatedTime]. rewrite Hne.
      cbn [andb]. rewrite negb_false_iff, String.eqb_eq. reflexivity. }
    split; [reflexivity |]. intros w' cur n. splits.
    + rewrite getNowDate_eq. apply Hiff.
    + intros Hday. apply Hiff. unfold today. rewrite Hday. reflexivity.
    + intros Hy Hy' Hday.
      destruct (fst (Daily.ShallRotate (set_rotatedTime today r) cur n w')) eqn:E;
        [reflexivity |].
      apply Hiff in E. unfold today in E.
      apply date_string_inj in E; [contradiction | |]; assumption.
Qed.

Lemma C7_witness :
  let w := quiet_world in
  let next_day := mkWorld ∅ (1700000000 * GoTime.Second + 24 * GoTime.Hour) 0 [] [] in
  let r' := fst (Daily.MarkRotated (mkDaily "" "app.log" "-" 3 false) w) in
  fst (Daily.ShallRotate r' 0 10 w) = false
  /\ fst (Daily.ShallRotate r' 0 10 next_day) = true.
Proof.
  pose proof (C7_Daily_ShallRotate (mkDaily "" "app.log" "-" 3 false) quiet_world)
    as (_ & _ & _ & H).
  split.
  - apply (H quiet_world 0 10). reflexivity.
  - apply (H (mkWorld ∅ (1700000000 * GoTime.Second + 24 * GoTime.Hour) 0 [] []) 0 10).
    + vm_compute. split; discriminate.
    + vm_compute. split; discriminate.
    + vm_compute. discriminate.
Defined.

(** ** [DailyRotateRule.OutdatedFiles] *)

Lemma Daily_boundaryFile_eq (r : DailyRotateRule) w :
  Daily.boundaryFile r w
  = (filename r +:+ delimiter r
     +:+ date_string (local_day (zone w) (GoTime.Add (now w) (keep_duration (days r))))
     +:+ (if gzip r then gzipExt else ""), w).
Proof.
  unfold Daily.boundaryFile, time_Now, time_Format. mopen.
  rewrite TimeFacts.Format_date_string. reflexivity.
Qed.

Lemma Daily_OutdatedFiles_eq (r : DailyRotateRule) w :
  fst (Daily.OutdatedFiles r w)
  = if days r <=? 0 then []
    else match fst (filepath_Glob (Daily.pattern r) w) with
         | inl files =>
             filter (fun f => str_lt f (fst (Daily.boundaryFile r w)) = true) files
         | inr _ => []
         end.
Proof.
  unfold Daily.OutdatedFiles. destruct (days r <=? 0); [reflexivity |].
  unfold filepath_Glob. mopen. cbn [fst].
  destruct (FS.Glob _ _ _) as [files | e]; [| reflexivity].
  rewrite Daily_boundaryFile_eq. reflexivity.
Qed.

(** C8, as stated, fails for the empty delimiter: the pattern is then
    the file name followed by a wildcard, the active file matches it,
    and its name is a proper prefix of the boundary name. *)
Lemma C8_counterexample :
  filename (three_days "") ∈ fst (Daily.OutdatedFiles (three_days "") daily_world).
Proof.
  replace (fst (Daily.OutdatedFiles (three_days "") daily_world))
    with ["app.log"; "app.log-2023-11-10"; "app.log-2023-11-12"]
    by (vm_compute; reflexivity).
  apply list_elem_of_here.
Qed.

(** The goroutine of [postRotate] then removes the active file. *)
Example empty_delimiter_removes_active_file :
  let l := Logger.mkLogger "app.log" "" (Some "app.log") [] false
             (three_days "") false 1 false 0 in
  files (snd (Logger.maybeDeleteOutdatedFiles l daily_world)) !! "app.log" = None.
Proof. vm_compute. reflexivity. Qed.

(** ** [SizeLimitRotateRule.OutdatedFiles] *)

(** On a sorted list the age loop, which stops at the first file not
    before the boundary, finds every file before the boundary. *)
Lemma too_old_sorted bf l :
  StronglySorted str_le l ->
  forall f, f ∈ SizeLimit.too_old bf l <-> f ∈ l /\ str_lt f bf = true.
Proof.
  induction 1 as [| a l Hs IH Hall]; intros f; simpl.
  - split; [intros Hin | intros [Hin _]]; inversion Hin.
  - destruct (str_lt a bf) eqn:Ha.
    + rewrite !elem_of_cons, IH. split.
      * intros [-> | [Hin Hlt]]; auto.
      * intros [[-> | Hin] Hlt]; auto.
    + split; [intros Hin; inversion Hin |].
      intros [Hin Hlt]. exfalso.
      apply elem_of_cons in Hin as [-> | Hin]; [congruence |].
      rewrite Forall_forall in Hall.
      assert (str_lt a bf = true)
        by (eapply StrOrder.str_le_lt_trans; [apply Hall, Hin | exact Hlt]).
      congruence.
Qed.

Lemma too_many_split (r : SizeLimitRotateRule) l :
  let k := if (0 <? maxBackups r) && (maxBackups r <? Z.of_nat (length l))
           then Z.to_nat (Z.of_nat (length l) - maxBackups r) else 0%nat in
  SizeLimit.too_many r l = (take k l, drop k l).
Proof.
  unfold SizeLimit.too_many. cbv zeta.
  destruct ((0 <? maxBackups r) && (maxBackups r <? Z.of_nat (length l)));
    reflexivity.
Qed.

Lemma SizeLimit_OutdatedFiles_unfold (r : SizeLimitRotateRule) w files :
  fst (filepath_Glob (SizeLimit.pattern r) w) = inl files ->
  fst (SizeLimit.OutdatedFiles r w)
  = elements (SizeLimit.outdated_set r files (fst (SizeLimit.boundaryFile r w))).
Proof.
  unfold SizeLimit.OutdatedFiles, filepath_Glob. mopen. cbn [fst]. intros ->.
  unfold SizeLimit.boundaryFile, time_Now, time_Format. mopen.
  destruct (SizeLimit.parseFilename r (filename r)) as [[[dir lg] ext] prefix].
  reflexivity.
Qed.

(** Membership in the result: cut by the count test, or a survivor
    before the age boundary. *)
Lemma SizeLimit_OutdatedFiles_mem (r : SizeLimitRotateRule) w files :
  fst (filepath_Glob (SizeLimit.pattern r) w) = inl files ->
  let sorted := sortStrings files in
  let n := length files in
  let k := if (0 <? maxBackups r) && (maxBackups r <? Z.of_nat n)
           then Z.to_nat (Z.of_nat n - maxBackups r) else 0%nat in
  let bf := fst (SizeLimit.boundaryFile r w) in
  forall f, f ∈ fst (SizeLimit.OutdatedFiles r w) <->
    f ∈ take k sorted
    \/ (0 < days r /\ f ∈ drop k sorted /\ str_lt f bf = true).
Proof.
  intros Hglob sorted n k bf f.
  assert (Hlen : length sorted = n)
    by (unfold sorted, n; rewrite (sortStrings_perm files); reflexivity).
  assert (Hsorted : StronglySorted str_le sorted) by apply sortStrings_sorted.
  rewrite (SizeLimit_OutdatedFiles_unfold r w files Hglob).
  fold bf. unfold SizeLimit.outdated_set. fold sorted.
  pose proof (too_many_split r sorted) as Hs. cbv zeta in Hs.
  rewrite Hlen in Hs. fold k in Hs. rewrite Hs.
  rewrite elem_of_elements, elem_of_union, !elem_of_list_to_set.
  destruct (0 <? days r) eqn:Hd.
  - apply Z.ltb_lt in Hd.
    rewrite too_old_sorted
      by (eapply StronglySorted_app_1_r; rewrite take_drop; exact Hsorted).
    tauto.
  - apply Z.ltb_ge in Hd. rewrite elem_of_nil. intuition lia.
Qed.

(** The same five backups with a window of two days, at
    2023-11-14T22:13:20Z: the count test cuts the three oldest, and the
    age test reports the fourth, which is among the two newest. *)
Example outdated_with_window :
  let out := fst (SizeLimit.OutdatedFiles (keep_two 2) five_backups_world) in
  (list_to_set out : gset string) = list_to_set (take 4 five_backups)
  /\ length out = 4%nat
  /\ fst (SizeLimit.boundaryFile (keep_two 2) five_backups_world)
     = "app-2023-11-12T22:13:20Z.log".
Proof.
  split; [| split; reflexivity].
  refine (bool_decide_unpack _ _). vm_compute. exact I.
Qed.
(** ** [parseBackupTime] never yields a time *)

Example stem_plain : SizeLimit.stem (name_rule false) "app-2024.log" = Some "app-2024".
Proof. reflexivity. Qed.
Example stem_gz : SizeLimit.stem (name_rule true) "app-2024.log.gz" = Some "app-2024".
Proof. reflexivity. Qed.
Example stem_panics : SizeLimit.stem (name_rule true) "ab" = None.
Proof. reflexivity. Qed.

(** C5: the string handed to [time.Parse] is the never assigned [t],
    the empty string.  So a name whose stem splits into exactly two
    parts gets the parse error of the empty value, and no name at all
    gets a time. *)
Theorem C5_parseBackupTime_never_parses (r : SizeLimitRotateRule) file w :
  (forall t, fst (SizeLimit.parseBackupTime r file w) <> Some (inl t))
  /\ (forall name,
        SizeLimit.stem r file = Some name ->
        length (GoStrings.Split name (delimiter r)) = 2%nat ->
        fst (SizeLimit.parseBackupTime r file w)
        = Some (inr (ErrParse "2006-01-02T15:04:05Z07:00" ""))).
Proof.
  unfold SizeLimit.parseBackupTime. split.
  - intros t. destruct (SizeLimit.stem r file) as [name |]; [| discriminate].
    cbv zeta. destruct (negb _); discriminate.
  - intros name -> Hlen. cbv zeta. rewrite Hlen. reflexivity.
Qed.

Lemma C5_witness :
  fst (SizeLimit.parseBackupTime (name_rule true)
         "app-20231113T221820Z.log.gz" quiet_world)
  = Some (inr (ErrParse "2006-01-02T15:04:05Z07:00" "")).
Proof.
  apply (proj2 (C5_parseBackupTime_never_parses (name_rule true)
                  "app-20231113T221820Z.log.gz" quiet_world)
           "app-20231113T221820Z").
  - reflexivity.
  - reflexivity.
Defined.

(** ** The size rule names backups a day early *)

Lemma long_name_proper n :
  (3 <= String.length n)%nat -> n <> "" /\ n <> "." /\ n <> "..".
Proof.
  intros Hl. splits; intros ->; cbn in Hl; lia.
Qed.

(** A backup name of the size rule, cleaned: the cleaned directory,
    then prefix, delimiter, time stamp and extension. *)
Lemma SizeLimit_name_shape dir prefix delim ext zone a :
  dir <> "" ->
  GoStrings.contains_char "/" (prefix +:+ delim +:+ ext) = false ->
  0 <= day_year (a / 86400) <= 9999 ->
  Filepath.Join dir (prefix +:+ delim +:+ stamp_string zone a +:+ ext)
  = clean_prefix dir +:+ prefix +:+ delim +:+ stamp_string zone a +:+ ext.
Proof.
  intros Hd Hsep Hy.
  rewrite !PathFacts.contains_char_app in Hsep.
  apply orb_false_iff in Hsep as [Hp Hsep]. apply orb_false_iff in Hsep as [Hdl He].
  assert (Hlen : (3 <= String.length
                    (prefix +:+ delim +:+ stamp_string zone a +:+ ext))%nat).
  { rewrite !StrOrder.length_append, StampFacts.stamp_string_length by exact Hy. lia. }
  destruct (long_name_proper _ Hlen) as (N0 & N1 & N2).
  apply PathFacts.Join_name; try assumption.
  rewrite !PathFacts.contains_char_app, Hp, Hdl, He,
    StampFacts.stamp_string_no_separator. reflexivity.
Qed.

(** C10: the size rule stamps [MarkRotated] and [BackupFileName] with
    the time 1435 minutes (23 h 55 min) before now, while the boundary
    of [OutdatedFiles] is counted from now itself.  So a backup is named
    as if made almost a day earlier, and it sorts before the boundary,
    and is reported outdated, as soon as its age exceeds the window less
    23 h 55 min. *)
Theorem C10_SizeLimit_stamp_shift (r : SizeLimitRotateRule) w :
  let shifted := GoTime.Add (now w) (- (1435 * GoTime.Minute)) in
  let stamp := GoTime.Format (zone w) shifted GoTime.rfc3339DateFormat in
  let '(dir, _, ext, prefix) := SizeLimit.parseFilename r (filename r) in
  fst (getNowDateInRFC3339Format w) = stamp
  /\ rotatedTime (fst (SizeLimit.MarkRotated r w)) = stamp
  /\ fst (SizeLimit.BackupFileName r w)
     = Filepath.Join dir (prefix +:+ delimiter r +:+ stamp +:+ ext)
  /\ fst (SizeLimit.boundaryFile r w)
     = Filepath.Join dir
         (prefix +:+ delimiter r
          +:+ GoTime.Format (zone w) (GoTime.Add (now w) (keep_duration (days r)))
                GoTime.rfc3339DateFormat
          +:+ ext)
       +:+ (if gzip r then gzipExt else "")
  /\ forall w',
       zone w' = zone w ->
       0 < days r <= max_keep_days ->
       GoStrings.contains_char "/" (prefix +:+ delimiter r +:+ ext) = false ->
       four_digit_year (zone w) shifted ->
       four_digit_year (zone w') (GoTime.Add (now w') (keep_duration (days r))) ->
       let age := now w' / GoTime.Second - now w / GoTime.Second in
       (str_lt (listed_backup r w) (fst (SizeLimit.boundaryFile r w')) = true
        <-> days r * 86400 - 86100 < age)
       /\ (maxBackups r = 0 ->
           forall files,
             fst (filepath_Glob (SizeLimit.pattern r) w') = inl files ->
             listed_backup r w ∈ files ->
             (listed_backup r w ∈ fst (SizeLimit.OutdatedFiles r w')
              <-> days r * 86400 - 86100 < age)).
Proof.
  cbv zeta.
  assert (Hshift : - (1435 * GoTime.Minute) = (-24 * 60 + 5) * GoTime.Minute)
    by reflexivity.
  assert (Hbf : forall w0, fst (SizeLimit.boundaryFile r w0)
    = Filepath.Join (Filepath.Dir (filename r))
        (GoStrings.take (String.length (Filepath.Base (filename r))
                         - String.length (Filepath.Ext (filename r)))
                        (Filepath.Base (filename r))
         +:+ delimiter r
         +:+ GoTime.Format (zone w0) (GoTime.Add (now w0) (keep_duration (days r)))
               GoTime.rfc3339DateFormat
         +:+ Filepath.Ext (filename r))
      +:+ (if gzip r then gzipExt else "")).
  { intros w0. unfold SizeLimit.boundaryFile, SizeLimit.parseFilename,
      time_Now, time_Format. mopen. cbn [fst].
    destruct (gzip r); [reflexivity |]. rewrite StrOrder.append_nil_r. reflexivity. }
  assert (Hname : forall w0, fst (SizeLimit.BackupFileName r w0)
    = Filepath.Join (Filepath.Dir (filename r))
        (GoStrings.take (String.length (Filepath.Base (filename r))
                         - String.length (Filepath.Ext (filename r)))
                        (Filepath.Base (filename r))
         +:+ delimiter r
         +:+ GoTime.Format (zone w0) (GoTime.Add (now w0) (- (1435 * GoTime.Minute)))
               GoTime.rfc3339DateFormat
         +:+ Filepath.Ext (filename r))).
  { intros w0. unfold SizeLimit.BackupFileName, SizeLimit.parseFilename,
      getNowDateInRFC3339Format, time_Now, time_Format. mopen. reflexivity. }
  pose proof (Hbf w) as Hbfw. pose proof (Hname w) as Hnamew.
  unfold SizeLimit.parseFilename in *. cbv zeta.
  set (dir := Filepath.Dir (filename r)) in *.
  set (ext := Filepath.Ext (filename r)) in *.
  set (prefix := GoStrings.take _ _) in *.
  splits.
  - reflexivity.
  - reflexivity.
  - exact Hnamew.
  - exact Hbfw.
  - intros w' Hz Hd Hsep Hy Hy'. cbv zeta.
    set (A := GoTime.abs_seconds (zone w) (now w)).
    set (A' := GoTime.abs_seconds (zone w) (now w')).
    assert (Hage : A' - A = now w' / GoTime.Second - now w / GoTime.Second)
      by (unfold A, A', GoTime.abs_seconds; lia).
    assert (Hs1 : GoTime.Format (zone w) (GoTime.Add (now w) (- (1435 * GoTime.Minute)))
                    GoTime.rfc3339DateFormat
                  = stamp_string (zone w) (A - 86100)).
    { rewrite TimeFacts.Format_stamp_string.
      replace (- (1435 * GoTime.Minute)) with (- (86100 * GoTime.Second))
        by (unfold GoTime.Minute, GoTime.Second; lia).
      rewrite abs_seconds_Add. reflexivity. }
    assert (Hs2 : GoTime.Format (zone w') (GoTime.Add (now w') (keep_duration (days r)))
                    GoTime.rfc3339DateFormat
                  = stamp_string (zone w) (A' - days r * 86400)).
    { rewrite Hz. apply StampFacts.boundary_stamp_eq. unfold max_keep_days in *. lia. }
    assert (Hy1 : 0 <= day_year ((A - 86100) / 86400) <= 9999).
    { unfold four_digit_year, local_year, local_day in Hy.
      replace (- (1435 * GoTime.Minute)) with (- (86100 * GoTime.Second)) in Hy
        by (unfold GoTime.Minute, GoTime.Second; lia).
      rewrite abs_seconds_Add in Hy. exact Hy. }
    assert (Hy2 : 0 <= day_year ((A' - days r * 86400) / 86400) <= 9999).
    { unfold four_digit_year, local_year, local_day in Hy'.
      rewrite keep_duration_exact in Hy' by (unfold max_keep_days in *; lia).
      replace (days r * 86400 * GoTime.Second)
        with ((days r * 86400) * GoTime.Second) in Hy' by lia.
      rewrite abs_seconds_Add, Hz in Hy'. exact Hy'. }
    assert (Hdir : dir <> "") by apply PathFacts.Clean_nonempty.
    assert (Hlt : str_lt (listed_backup r w) (fst (SizeLimit.boundaryFile r w')) = true
                  <-> days r * 86400 - 86100 < A' - A).
    { unfold listed_backup. rewrite Hnamew, (Hbf w'), Hs1, Hs2.
      rewrite !SizeLimit_name_shape by assumption.
      rewrite StrOrder.str_lt_iff, !StrOrder.append_assoc. split.
      - intros Hl. do 3 apply StrOrder.lts_app_r_inv in Hl.
        apply StampFacts.stamp_string_lt_iff in Hl; [lia | |]; assumption.
      - intros Hl. do 3 apply StrOrder.lts_app_l.
        apply StampFacts.stamp_string_lt_iff; [| | lia]; assumption. }
    rewrite <- Hage. split; [exact Hlt |].
    intros Hmax files Hg Hin.
    rewrite (SizeLimit_OutdatedFiles_mem r w' files Hg).
    rewrite Hmax. cbn [Z.ltb Z.compare andb take drop].
    rewrite elem_of_nil, (sortStrings_perm files), Hlt.
    intuition lia.
Qed.

Lemma C10_witness :
  (str_lt (listed_backup (keep_days 1) quiet_world)
     (fst (SizeLimit.boundaryFile (keep_days 1) five_minutes_later)) = true
   <-> 1 * 86400 - 86100 < 1700000301 - 1700000000)
  /\ (listed_backup (keep_days 1) quiet_world
        ∈ fst (SizeLimit.OutdatedFiles (keep_days 1) five_minutes_later)
      <-> 1 * 86400 - 86100 < 1700000301 - 1700000000).
Proof.
  pose proof (C10_SizeLimit_stamp_shift (keep_days 1) quiet_world) as H.
  cbv zeta in H. unfold SizeLimit.parseFilename in H. cbv zeta in H.
  destruct H as (_ & _ & _ & _ & H).
  specialize (H five_minutes_later eq_refl
                ltac:(unfold max_keep_days; cbn; lia)
                ltac:(vm_compute; reflexivity)
                ltac:(vm_compute; split; discriminate)
                ltac:(vm_compute; split; discriminate)).
  destruct H as [Hlt Hout]. split.
  - exact Hlt.
  - apply (Hout eq_refl ["app-2023-11-13T22:18:20Z.log"]).
    + vm_compute. reflexivity.
    + replace (listed_backup (keep_days 1) quiet_world)
        with "app-2023-11-13T22:18:20Z.log" by (vm_compute; reflexivity).
      apply list_elem_of_here.
Defined.

(** With a window of one day, a backup five minutes and one second old
    is reported outdated. *)
Example young_backup_reported :
  fst (SizeLimit.BackupFileName (keep_days 1) quiet_world)
  = "app-2023-11-13T22:18:20Z.log"
  /\ fst (SizeLimit.OutdatedFiles (keep_days 1) five_minutes_later)
     = ["app-2023-11-13T22:18:20Z.log"]
  /\ now five_minutes_later - now quiet_world = 301 * GoTime.Second.
Proof. vm_compute. repeat split. Qed.
(** ** The logger: what [rotate] and [write] leave alone *)

Ltac mcase :=
  match goal with
  | |- context [match (if ?b then _ else _) _ with _ => _ end] => destruct b eqn:?
  | |- context [match (match ?x with _ => _ end) _ with _ => _ end] => destruct x eqn:?
  | |- context [match ?m ?w with (_, _) => _ end] => destruct (m w) as [? ?] eqn:?
  | |- context [match ?x with _ => _ end] => destruct x eqn:?
  end; cbn beta iota.

Section LoggerFacts.

Context {R : Type} `{RotateRule R}.

Import Logger.

Lemma rotate_frame (l : RotateLogger R) w :
  same_frame l (snd (fst (rotate l w))).
Proof.
  unfold rotate. mopen. repeat mcase; repeat split.
Qed.

Lemma write_frame v (l : RotateLogger R) w :
  same_frame l (fst (write v l w)).
Proof.
  unfold write. mopen. mcase. destruct b; cbn beta iota.
  - pose proof (rotate_frame l w0) as Hr.
    destruct (rotate l w0) as [[err l1] w2]. simpl in Hr.
    destruct err; cbn beta iota.
    + mcase. mcase; [mcase |]; simpl; exact Hr.
    + unfold rule_MarkRotated. mopen. repeat mcase; simpl; exact Hr.
  - repeat mcase; repeat split.
Qed.

Lemma worker_drain_frame picks : forall (l : RotateLogger R) w,
  let l' := fst (worker_drain picks l w) in
  filename l' = filename l /\ done l' = done l /\ closeOnce l' = closeOnce l.
Proof.
  induction picks as [| p picks IH]; intros l w; cbn zeta.
  - destruct l as [fn bk f ch dn rl cp wg co cs]. destruct ch; repeat split.
  - destruct l as [fn bk f ch dn rl cp wg co cs].
    destruct ch as [| v q]; [repeat split |].
    destruct p; [| repeat split].
    cbn [worker_drain channel]. mopen.
    pose proof (write_frame v
      (set_channel q (mkLogger fn bk f (v :: q) dn rl cp wg co cs)) w) as Hw.
    destruct (write v _ w) as [l1 w1]. cbn [fst] in Hw.
    specialize (IH l1 w1). cbn zeta in IH.
    destruct Hw as (Hf & Hd & _ & Ho). cbn in Hf, Hd, Ho.
    destruct IH as (IH1 & IH2 & IH3). cbn [filename done closeOnce].
    repeat split; congruence.
Qed.

(** After [Close] has returned once, the guard is set. *)
Lemma Close_sets_closeOnce picks (l : RotateLogger R) w :
  closeOnce (snd (fst (Close picks l w))) = true.
Proof.
  unfold Close. destruct (closeOnce l) eqn:Hc; [exact Hc |].
  mopen. set (l0 := set_done true (set_closeOnce true l)).
  destruct (waitGroup l0 =? 0)%nat.
  - repeat mcase; reflexivity.
  - pose proof (worker_drain_frame picks l0 w) as Hd. cbn zeta in Hd.
    destruct (worker_drain picks l0 w) as [l1 w1]. cbn [fst] in Hd.
    destruct Hd as (_ & _ & Hd).
    repeat mcase; simpl; exact Hd.
Qed.

(** C3 (amended): a second call to [Close] performs no I/O, changes
    nothing, and returns nil, whatever the first call returned (so it
    returns what the first call returned exactly when that was nil). *)
Theorem C3_Close_twice picks1 picks2 (l : RotateLogger R) w :
  let '(e1, l1, w1) := Close picks1 l w in
  Close picks2 l1 w1 = (None, l1, w1).
Proof.
  pose proof (Close_sets_closeOnce picks1 l w) as Hc.
  destruct (Close picks1 l w) as [[e1 l1] w1]. cbn [fst snd] in Hc.
  unfold Close. rewrite Hc. reflexivity.
Qed.

End LoggerFacts.

(** C3, as stated, fails when the first call fails: the first [Close]
    returns the error of [Sync], the second returns nil. *)
Lemma C3_counterexample :
  let l := closing_logger in
  let w := mkWorld {[ "app.log" := [] ]} 0 0 [Some (ErrOS 5)] [] in
  let '(e1, l1, w1) := Logger.Close [] l w in
  let '(e2, l2, w2) := Logger.Close [] l1 w1 in
  e1 = Some (ErrOS 5) /\ e2 = None /\ e2 <> e1.
Proof. vm_compute. repeat split; discriminate. Qed.


Section RotateFacts.

Context {R : Type} `{RuleReadsOnly R}.

Import Logger.

Lemma rule_BackupFileName_spec (l : RotateLogger R) w :
  exists b, rule_BackupFileName l w = (b, set_trace (trace w ++ [EvBackupFileName b]) w).
Proof.
  unfold rule_BackupFileName, emit. mopen.
  pose proof (BackupFileName_world (rule l) w) as Hw.
  destruct (BackupFileName (rule l) w) as [b w1]. simpl in Hw. subst w1. eauto.
Qed.

(** The three ways [rotate] ends: the close fails; the rename fails;
    or the new file is asked for. *)
(** With a handle, [rotate] closes it first and goes on without it. *)
Lemma rotate_close (l : RotateLogger R) f w :
  fp l = Some f ->
  rotate l w =
  let '(e, w1) := file_Close f w in
  match e with
  | Some _ => (e, set_fp None l, w1)
  | None => rotate (set_fp None l) w1
  end.
Proof.
  intros Hfp. unfold rotate. mopen. rewrite Hfp. cbn [fp set_fp].
  destruct (file_Close f w) as [[e |] w1]; reflexivity.
Qed.

(** Without a handle, [rotate] ends in one of two ways: the rename
    fails, or the new file is asked for. *)
Lemma rotate_nil_cases (l : RotateLogger R) w :
  fp l = None ->
  let '(r, l', w') := rotate l w in
  (exists e, r = Some e /\ l' = l /\ 0 < len (backup l)
     /\ trace w' = trace w
          ++ [EvStat (filename l) None; EvRename (filename l) (backup l) (Some e)]
     /\ files w' = files w)
  \/ (exists mid b h, l' = set_fp h (set_backup b l)
     /\ trace w' = trace w ++ mid ++ [EvBackupFileName b; EvCreate (filename l) r]
     /\ (forall p res, ~ In (EvCreate p res) mid)
     /\ (forall o n e, ~ In (EvRename o n (Some e)) mid)
     /\ (r = None -> h = Some (filename l)
                     /\ files w' !! Filepath.Clean (filename l) = Some [])
     /\ (r <> None -> h = None)).
Proof.
  intros Hfp. unfold rotate. mopen. rewrite Hfp. cbv beta iota zeta.
  destruct (os_Stat_spec (filename l) w) as (w2 & st & Hst & Ht2 & Hf2 & _).
  rewrite Hst.
  destruct (bool_decide (st = None) && (0 <? len (backup l))) eqn:Hguard.
  - apply andb_true_iff in Hguard as [Hst0 Hbk].
    apply bool_decide_eq_true in Hst0. subst st.
    apply Z.ltb_lt in Hbk.
    unfold getBackupFilename.
    replace (len (backup l) =? 0) with false by (symmetry; apply Z.eqb_neq; lia).
    mopen.
    destruct (os_Rename_spec (filename l) (backup l) w2) as (w3 & rn & Hrn & Ht3 & Hf3).
    rewrite Hrn. destruct rn as [e |]; cbv beta iota zeta.
    + left. exists e. repeat split; try assumption.
      * rewrite Ht3, Ht2, <- !app_assoc. reflexivity.
      * rewrite Hf3 by discriminate. congruence.
    + unfold postRotate, emit. cbv beta iota zeta.
      destruct (rule_BackupFileName_spec l
                  (set_trace (trace w3 ++ [EvSpawn (backup l)]) w3)) as [b Hb].
      rewrite Hb. cbv beta iota zeta.
      destruct (os_Create_spec (filename (set_backup b l))
                  (set_trace (trace (set_trace (trace w3 ++ [EvSpawn (backup l)]) w3)
                              ++ [EvBackupFileName b])
                     (set_trace (trace w3 ++ [EvSpawn (backup l)]) w3)))
        as (w5 & h & ce & Hcr & Ht5 & Hok & Hko).
      rewrite Hcr. cbv beta iota zeta. cbn [filename set_fp set_backup] in *.
      right.
      exists [EvStat (filename l) None; EvRename (filename l) (backup l) None;
              EvSpawn (backup l)], b, h.
      splits.
      * reflexivity.
      * rewrite Ht5. cbn [trace set_trace]. rewrite Ht3, Ht2, <- !app_assoc.
        reflexivity.
      * intros p res [Hin | [Hin | [Hin | []]]]; discriminate.
      * intros o n e [Hin | [Hin | [Hin | []]]]; discriminate.
      * intros ->. destruct (Hok eq_refl) as [-> ->]. split; [reflexivity |].
        apply lookup_insert_eq.
      * intros Hne. apply Hko; assumption.
  - cbv beta iota zeta.
    destruct (rule_BackupFileName_spec l w2) as [b Hb].
    rewrite Hb. cbv beta iota zeta.
    destruct (os_Create_spec (filename (set_backup b l))
                (set_trace (trace w2 ++ [EvBackupFileName b]) w2))
      as (w5 & h & ce & Hcr & Ht5 & Hok & Hko).
    rewrite Hcr. cbv beta iota zeta. cbn [filename set_fp set_backup] in *.
    right.
    exists [EvStat (filename l) st], b, h.
    splits.
    * reflexivity.
    * rewrite Ht5. cbn [trace set_trace]. rewrite Ht2, <- !app_assoc.
      reflexivity.
    * intros p res [Hin | []]; discriminate.
    * intros o n e [Hin | []]; discriminate.
    * intros ->. destruct (Hok eq_refl) as [-> ->]. split; [reflexivity |].
      apply lookup_insert_eq.
    * intros Hne. apply Hko; assumption.
Qed.

(** The three ways [rotate] ends: the close fails; the rename fails;
    or the new file is asked for. *)
Lemma rotate_cases (l : RotateLogger R) w :
  let '(r, l', w') := rotate l w in
  (exists f e, fp l = Some f /\ r = Some e /\ l' = set_fp None l
     /\ new_events w w' = [EvClose f (Some e)] /\ files w' = files w)
  \/ (exists e, r = Some e /\ l' = set_fp None l /\ 0 < len (backup l)
     /\ new_events w w' = close_events l
          ++ [EvStat (filename l) None; EvRename (filename l) (backup l) (Some e)]
     /\ files w' = files w)
  \/ (exists mid b h, l' = set_fp h (set_backup b l)
     /\ new_events w w' = close_events l ++ mid
          ++ [EvBackupFileName b; EvCreate (filename l) r]
     /\ (forall p res, ~ In (EvCreate p res) mid)
     /\ (forall o n e, ~ In (EvRename o n (Some e)) mid)
     /\ (r = None -> h = Some (filename l)
                     /\ files w' !! Filepath.Clean (filename l) = Some [])
     /\ (r <> None -> h = None)).
Proof.
  unfold close_events.
  destruct (fp l) as [f |] eqn:Hfp.
  - rewrite (rotate_close l f w Hfp).
    destruct (file_Close_spec f w) as [e He]. rewrite He. clear He.
    set (w1 := set_trace (trace w ++ [EvClose f e]) (set_faults (tail (faults w)) w)).
    destruct e as [e |].
    + left. exists f, e. splits; try reflexivity.
      unfold new_events, w1. cbn [trace set_trace]. apply drop_app_length.
    + pose proof (rotate_nil_cases (set_fp None l) w1 eq_refl) as Hn.
      destruct (rotate (set_fp None l) w1) as [[r l'] w'].
      cbn [filename backup set_fp] in Hn.
      destruct Hn as [(e & Hr & Hl & Hb & Ht & Hf) | (mid & b & h & Hl & Ht & Hm)].
      * right; left. exists e. splits; try assumption.
        unfold new_events. rewrite Ht. unfold w1. cbn [trace set_trace].
        rewrite <- app_assoc. apply drop_app_length.
      * right; right. exists mid, b, h. splits; try apply Hm.
        -- rewrite Hl. destruct l; reflexivity.
        -- unfold new_events. rewrite Ht. unfold w1. cbn [trace set_trace].
           rewrite <- app_assoc. apply drop_app_length.
  - pose proof (rotate_nil_cases l w Hfp) as Hn.
    destruct (rotate l w) as [[r l'] w'].
    destruct Hn as [(e & Hr & Hl & Hb & Ht & Hf) | (mid & b & h & Hl & Ht & Hm)].
    + right; left. exists e. splits; try assumption.
      * rewrite Hl. destruct l; cbn in *; subst; reflexivity.
      * unfold new_events. rewrite Ht. apply drop_app_length.
    + right; right. exists mid, b, h. splits; try apply Hm; try assumption.
      unfold new_events. rewrite Ht. apply drop_app_length.
Qed.

(** [rotate] only adds to the trace. *)
Lemma rotate_extends (l : RotateLogger R) w :
  trace (snd (rotate l w)) = trace w ++ new_events w (snd (rotate l w)).
Proof.
  destruct (fp l) as [f |] eqn:Hfp.
  - rewrite (rotate_close l f w Hfp).
    destruct (file_Close_spec f w) as [e He]. rewrite He. clear He.
    set (w1 := set_trace (trace w ++ [EvClose f e]) (set_faults (tail (faults w)) w)).
    destruct e as [e |].
    + unfold new_events, w1. cbn [snd trace set_trace]. now rewrite drop_app_length.
    + pose proof (rotate_nil_cases (set_fp None l) w1 eq_refl) as Hn.
      destruct (rotate (set_fp None l) w1) as [[r l'] w']. cbn [snd].
      assert (Ht : exists evs, trace w' = trace w ++ evs).
      { destruct Hn as [(e & _ & _ & _ & Ht & _) | (mid & b & h & _ & Ht & _)];
          rewrite Ht; unfold w1; cbn [trace set_trace]; rewrite <- app_assoc; eauto. }
      destruct Ht as [evs Ht]. unfold new_events. rewrite Ht.
      now rewrite drop_app_length.
  - pose proof (rotate_nil_cases l w Hfp) as Hn.
    destruct (rotate l w) as [[r l'] w']. cbn [snd].
    assert (Ht : exists evs, trace w' = trace w ++ evs).
    { destruct Hn as [(e & _ & _ & _ & Ht & _) | (mid & b & h & _ & Ht & _)];
        rewrite Ht; eauto. }
    destruct Ht as [evs Ht]. unfold new_events. rewrite Ht.
    now rewrite drop_app_length.
Qed.

(** C4 (amended): when the renaming of the target file to the backup
    name fails, [rotate] is aborted at once: it returns the error of the
    rename, has asked for no file to be created, leaves the file system
    and the cached backup name as they were, and leaves the logger
    without a handle. *)
Theorem C4_rotate_rename_failure (l : RotateLogger R) w old new e :
  In (EvRename old new (Some e)) (new_events w (snd (rotate l w))) ->
  let '(r, l', w') := rotate l w in
  r = Some e /\ old = filename l /\ new = backup l
  /\ fp l' = None /\ backup l' = backup l /\ files w' = files w
  /\ (forall p res, ~ In (EvCreate p res) (new_events w w')).
Proof.
  pose proof (rotate_cases l w) as Hc.
  destruct (rotate l w) as [[r l'] w']. cbn [snd].
  destruct Hc as [(f & e' & _ & _ & _ & Ht & _)
                 | [(e' & Hr & Hl & _ & Ht & Hf)
                   | (mid & b & h & _ & Ht & Hnc & Hnr & _)]];
    rewrite Ht; intros Hin.
  - destruct Hin as [Hin | []]; discriminate.
  - apply in_app_or in Hin as [Hin | Hin].
    + unfold close_events in Hin. destruct (fp l); [| destruct Hin].
      destruct Hin as [Hin | []]; discriminate.
    + destruct Hin as [Hin | [Hin | []]]; [discriminate |].
      injection Hin as <- <- <-. subst l'. splits; try reflexivity; try assumption.
      intros p res Hc. apply in_app_or in Hc as [Hc | Hc].
      * unfold close_events in Hc. destruct (fp l); [| destruct Hc].
        destruct Hc as [Hc | []]; discriminate.
      * destruct Hc as [Hc | [Hc | []]]; discriminate.
  - exfalso. apply in_app_or in Hin as [Hin | Hin].
    + unfold close_events in Hin. destruct (fp l); [| destruct Hin].
      destruct Hin as [Hin | []]; discriminate.
    + apply in_app_or in Hin as [Hin | Hin]; [exact (Hnr _ _ _ Hin) |].
      destruct Hin as [Hin | [Hin | []]]; discriminate.
Qed.

End RotateFacts.

(** C4, as stated, fails: the close and the [Stat] succeed, the rename
    fails, and [rotate] returns without a call of [os.Create]. *)
Lemma C4_counterexample :
  let '(r, l', w') := Logger.rotate closing_logger rename_fails_world in
  In (EvRename "app.log" "app-old.log" (Some (ErrOS 13))) (trace w')
  /\ (forall p res, ~ In (EvCreate p res) (trace w'))
  /\ Logger.fp l' = None.
Proof.
  vm_compute. split; [| split].
  - right; right; left. reflexivity.
  - intros p res [Hin | [Hin | [Hin | []]]]; discriminate.
  - reflexivity.
Qed.

Lemma C4_witness :
  let '(r, l', w') := Logger.rotate closing_logger rename_fails_world in
  r = Some (ErrOS 13) /\ "app.log" = Logger.filename closing_logger
  /\ "app-old.log" = Logger.backup closing_logger
  /\ Logger.fp l' = None /\ Logger.backup l' = Logger.backup closing_logger
  /\ files w' = files rename_fails_world
  /\ (forall p res, ~ In (EvCreate p res) (new_events rename_fails_world w')).
Proof.
  apply (C4_rotate_rename_failure closing_logger rename_fails_world
           "app.log" "app-old.log" (ErrOS 13)).
  vm_compute. right; right; left. reflexivity.
Defined.
Section WriteFacts.

Context {R : Type} `{RuleReadsOnly R}.

Import Logger.

Lemma rule_ShallRotate_spec (l : RotateLogger R) cur n w :
  rule_ShallRotate l cur n w =
  let b := fst (ShallRotate (rule l) cur n w) in
  (b, set_trace (trace w ++ [EvShallRotate cur n b]) w).
Proof.
  unfold rule_ShallRotate, emit. mopen.
  pose proof (ShallRotate_world (rule l) cur n w) as Hw.
  destruct (ShallRotate (rule l) cur n w) as [b w1]. simpl in *. subst. reflexivity.
Qed.

Lemma rule_MarkRotated_spec (l : RotateLogger R) w :
  rule_MarkRotated l w =
  (set_rule (fst (MarkRotated (rule l) w)) l, set_trace (trace w ++ [EvMarkRotated]) w).
Proof.
  unfold rule_MarkRotated, emit. mopen.
  pose proof (MarkRotated_world (rule l) w) as Hw.
  destruct (MarkRotated (rule l) w) as [r w1]. simpl in *. subst. reflexivity.
Qed.

(** When the rule does not ask for a rotation, [write] only appends the
    record to the open file and counts it. *)
Lemma write_no_rotation (l : RotateLogger R) w v f :
  fst (ShallRotate (rule l) (currentSize l) (blen v) w) = false ->
  fp l = Some f ->
  let w1 := set_trace (trace w ++ [EvShallRotate (currentSize l) (blen v) false]) w in
  write v l w =
  (set_currentSize (GoInt.add (currentSize l) (blen v)) l, snd (file_Write f v w1)).
Proof.
  intros Hs Hfp. unfold write. mopen.
  rewrite rule_ShallRotate_spec. cbv zeta. rewrite Hs. cbv beta iota zeta.
  rewrite Hfp. destruct (file_Write f v _) as [e w2]. reflexivity.
Qed.

(** C1: [write] asks [ShallRotate(currentSize, len(v))] first; when the
    answer is true and [rotate] succeeds, the counter is reset and
    [MarkRotated] is called before the record is written, the record is
    the first thing written to the file just created, and the counter
    after the call is the length of that record. *)
Theorem C1_write_rotates_first (l : RotateLogger R) w v :
  blen v <= GoInt.max_int ->
  fst (ShallRotate (rule l) (currentSize l) (blen v) w) = true ->
  let w1 := set_trace (trace w ++ [EvShallRotate (currentSize l) (blen v) true]) w in
  fst (fst (rotate l w1)) = None ->
  let '(_, l2, w2) := rotate l w1 in
  let '(l4, w4) := write v l w in
  exists res,
    l4 = set_currentSize (blen v) (set_rule (fst (MarkRotated (rule l2) w2)) l2)
    /\ fp l4 = Some (filename l)
    /\ currentSize l4 = blen v
    /\ trace w4 = trace w2 ++ [EvMarkRotated; EvWrite (filename l) v res]
    /\ (exists evs, trace w2 = trace w ++ EvShallRotate (currentSize l) (blen v) true
                                 :: evs ++ [EvCreate (filename l) None])
    /\ files w2 !! Filepath.Clean (filename l) = Some []
    /\ files w4 !! Filepath.Clean (filename l)
       = Some (if res is Some _ then [] else v).
Proof.
  intros Hlen Hs w1 Hok.
  unfold write. mopen.
  rewrite rule_ShallRotate_spec. cbv zeta. rewrite Hs. cbv beta iota zeta.
  fold w1.
  pose proof (rotate_cases l w1) as Hc.
  pose proof (rotate_extends l w1) as Hext.
  destruct (rotate l w1) as [[r l2] w2]. cbn [fst snd] in Hok, Hext. subst r.
  cbv beta iota zeta.
  destruct Hc as [(f & e' & _ & Hr & _)
                 | [(e' & Hr & _) | (mid & b & h & Hl & Ht & _ & _ & Hnone & _)]];
    try discriminate.
  destruct (Hnone eq_refl) as [-> Hempty].
  rewrite rule_MarkRotated_spec. cbv beta iota zeta.
  assert (Hfp2 : fp l2 = Some (filename l)) by (subst l2; reflexivity).
  cbn [fp set_currentSize set_rule]. rewrite Hfp2.
  set (w3 := set_trace (trace w2 ++ [EvMarkRotated]) w2).
  destruct (file_Write_spec (filename l) v w3) as (w4 & res & Hw & Ht4 & Hf4).
  rewrite Hw. cbv beta iota zeta. exists res.
  cbn [currentSize set_currentSize set_rule fp].
  assert (Hadd : GoInt.add 0 (blen v) = blen v).
  { unfold GoInt.add. apply wrap_id. unfold GoInt.in_range, GoInt.min_int, blen in *.
    lia. }
  rewrite Hadd. splits; try reflexivity; try assumption.
  - rewrite Ht4. unfold w3. cbn [trace set_trace]. rewrite <- app_assoc. reflexivity.
  - exists (close_events l ++ mid ++ [EvBackupFileName b]).
    rewrite Hext, Ht. unfold w1. cbn [trace set_trace].
    rewrite <- !app_assoc. reflexivity.
  - rewrite Hf4. unfold w3. cbn [files set_trace].
    destruct res; [exact Hempty |].
    rewrite lookup_alter_eq, Hempty. reflexivity.
Qed.

End WriteFacts.

Lemma C1_witness :
  let w := rotating_world in
  let l := full_logger in
  let v := [Byte.x62] in
  let w1 := set_trace (trace w ++ [EvShallRotate (Logger.currentSize l) (blen v) true]) w in
  let '(_, l2, w2) := Logger.rotate l w1 in
  let '(l4, w4) := Logger.write v l w in
  exists res,
    l4 = Logger.set_currentSize (blen v)
           (Logger.set_rule (fst (MarkRotated (Logger.rule l2) w2)) l2)
    /\ Logger.fp l4 = Some (Logger.filename l)
    /\ Logger.currentSize l4 = blen v
    /\ trace w4 = trace w2 ++ [EvMarkRotated; EvWrite (Logger.filename l) v res]
    /\ (exists evs, trace w2 = trace w ++ EvShallRotate (Logger.currentSize l) (blen v) true
                                 :: evs ++ [EvCreate (Logger.filename l) None])
    /\ files w2 !! Filepath.Clean (Logger.filename l) = Some []
    /\ files w4 !! Filepath.Clean (Logger.filename l)
       = Some (if res is Some _ then [] else v).
Proof.
  apply (C1_write_rotates_first full_logger rotating_world [Byte.x62]).
  - vm_compute. discriminate.
  - reflexivity.
  - reflexivity.
Defined.

(** The end-to-end run of the specification, at the moment the second
    record arrives: the first record is in the backup file, the second
    alone in the active file, and the counter is its length. *)
Example write_rotates_run :
  let '(l, w) := Logger.write [Byte.x62] full_logger rotating_world in
  Logger.currentSize l = 1
  /\ files w !! "app.log" = Some [Byte.x62]
  /\ files w !! "app-old.log" = Some [Byte.x61]
  /\ trace w =
     [EvShallRotate 1048576 1 true; EvClose "app.log" None; EvStat "app.log" None;
      EvRename "app.log" "app-old.log" None; EvSpawn "app-old.log";
      EvBackupFileName "app-2023-11-13T22:18:20Z.log"; EvCreate "app.log" None;
      EvMarkRotated; EvWrite "app.log" [Byte.x62] None].
Proof. vm_compute. repeat split. Qed.
(** ** [Write] on a closed logger *)

Section WriteClosed.

Context {R : Type} `{RotateRule R}.

Import Logger.

(** Once [done] is closed and the channel has room, both cases of the
    [select] are ready, and the outcome is the scheduler's pick. *)
Lemma Write_closed_with_room (l : RotateLogger R) data w :
  done l = true -> (length (channel l) < bufferSize)%nat ->
  Write true data l w
  = (Returned (blen data) None, set_channel (channel l ++ [data]) l, w)
  /\ Write false data l w
     = (Returned 0 (Some ErrLogFileClosed), l,
        set_trace (trace w ++ [EvStderr (String.string_of_list_byte data)]) w).
Proof.
  intros Hd Hroom. unfold Write. rewrite Hd.
  rewrite bool_decide_eq_true_2 by exact Hroom.
  split; reflexivity.
Qed.

(** With a full channel only the closed case is ready. *)
Lemma Write_closed_full (l : RotateLogger R) data w pick :
  done l = true -> (bufferSize <= length (channel l))%nat ->
  Write pick data l w
  = (Returned 0 (Some ErrLogFileClosed), l,
     set_trace (trace w ++ [EvStderr (String.string_of_list_byte data)]) w).
Proof.
  intros Hd Hfull. unfold Write. rewrite Hd.
  rewrite bool_decide_eq_false_2 by lia. reflexivity.
Qed.

End WriteClosed.

(** C9 fails on the code: after [Close] has returned, a [Write] whose
    [select] takes the send case returns [(1, nil)], writes nothing to
    the fallback stream, and leaves the record in a channel that no
    worker reads any more. *)
Theorem C9_write_after_close_accepted :
  let '(_, l1, w1) := Logger.Close [] closing_logger rotating_world in
  Logger.done l1 = true /\ Logger.waitGroup l1 = O
  /\ Logger.Write true [Byte.x78] l1 w1
     = (Logger.Returned 1 None, Logger.set_channel [[Byte.x78]] l1, w1).
Proof. vm_compute. repeat split. Qed.

(** ** System calls in a world where every call succeeds *)

Lemma exists_path_file fs p c :
  fs !! Filepath.Clean p = Some c -> FS.exists_path fs p = true.
Proof.
  intros Hc. unfold FS.exists_path, FS.entries. apply bool_decide_eq_true_2.
  apply elem_of_app. left. apply elem_of_elements, elem_of_dom. eauto.
Qed.

Lemma file_Close_quiet f w :
  faults w = [] ->
  file_Close f w = (None, set_trace (trace w ++ [EvClose f None]) w).
Proof.
  intros Hq. unfold file_Close, fault, emit. mopen. rewrite Hq. reflexivity.
Qed.

Lemma file_Sync_quiet f w :
  faults w = [] ->
  file_Sync f w = (None, set_trace (trace w ++ [EvSync f None]) w).
Proof.
  intros Hq. unfold file_Sync, fault, emit. mopen. rewrite Hq. reflexivity.
Qed.

Lemma os_Stat_quiet p w :
  faults w = [] ->
  os_Stat p w =
  let r := if FS.exists_path (files w) p then None else Some (ErrNotExist p) in
  (r, set_trace (trace w ++ [EvStat p r]) w).
Proof.
  intros Hq. unfold os_Stat, fault, get_world, emit. mopen. rewrite Hq.
  reflexivity.
Qed.

Lemma os_Rename_quiet a b c w :
  faults w = [] -> files w !! Filepath.Clean a = Some c ->
  os_Rename a b w =
  (None, set_trace (trace w ++ [EvRename a b None])
           (set_files (<[Filepath.Clean b := c]>
                         (delete (Filepath.Clean a) (files w))) w)).
Proof.
  intros Hq Hc. unfold os_Rename, fault, get_world, emit, update_files. mopen.
  rewrite Hq. cbv beta iota zeta. rewrite Hc. reflexivity.
Qed.

Lemma os_Create_quiet p w :
  faults w = [] ->
  os_Create p w =
  (Some p, None, set_trace (trace w ++ [EvCreate p None])
                   (set_files (<[Filepath.Clean p := []]> (files w)) w)).
Proof.
  intros Hq. unfold os_Create, fault, emit, update_files. mopen. rewrite Hq.
  reflexivity.
Qed.

Lemma file_Write_quiet f v w :
  faults w = [] ->
  file_Write f v w =
  (None, set_trace (trace w ++ [EvWrite f v None])
           (set_files (alter (fun c => c ++ v) (Filepath.Clean f) (files w)) w)).
Proof.
  intros Hq. unfold file_Write, fault, emit, update_files. mopen. rewrite Hq.
  reflexivity.
Qed.

Lemma file_Write_fails f v e rest w :
  faults w = Some e :: rest ->
  file_Write f v w =
  (Some e, set_trace (trace w ++ [EvWrite f v (Some e)]) (set_faults rest w)).
Proof.
  intros Hq. unfold file_Write, fault, emit, update_files. mopen. rewrite Hq.
  reflexivity.
Qed.

Lemma new_events_app w w' evs :
  trace w' = trace w ++ evs -> new_events w w' = evs.
Proof. intros Ht. unfold new_events. rewrite Ht. apply drop_app_length. Qed.
(** ** A rotation that goes through *)

Section RotateQuiet.

Context {R : Type} `{RuleReadsOnly R}.

Import Logger.

Lemma rule_BackupFileName_quiet (l : RotateLogger R) w :
  rule_BackupFileName l w
  = (fst (BackupFileName (rule l) w),
     set_trace (trace w ++ [EvBackupFileName (fst (BackupFileName (rule l) w))]) w).
Proof.
  unfold rule_BackupFileName, emit. mopen.
  pose proof (BackupFileName_world (rule l) w) as Hw.
  destruct (BackupFileName (rule l) w) as [b w1]. simpl in Hw. subst w1.
  reflexivity.
Qed.

Lemma rotate_quiet (l : RotateLogger R) w c :
  faults w = [] ->
  files w !! Filepath.Clean (filename l) = Some c ->
  exists b mid,
    rotate l w
    = (None, set_fp (Some (filename l)) (set_backup b l),
       set_trace (trace w ++ close_events l ++ EvStat (filename l) None :: mid
                  ++ [EvBackupFileName b; EvCreate (filename l) None])
         (set_files (rotated_files l c (files w)) w))
    /\ mid = (if 0 <? len (backup l)
              then [EvRename (filename l) (backup l) None; EvSpawn (backup l)]
              else [])
    /\ exists w3, now w3 = now w /\ zone w3 = zone w
                  /\ b = fst (BackupFileName (rule l) w3).
Proof.
  intros Hq Hc.
  assert (Hnil : forall w0, faults w0 = [] ->
            files w0 !! Filepath.Clean (filename l) = Some c ->
            exists b mid,
              rotate (set_fp None l) w0
              = (None, set_fp (Some (filename l)) (set_backup b l),
                 set_trace (trace w0 ++ EvStat (filename l) None :: mid
                            ++ [EvBackupFileName b; EvCreate (filename l) None])
                   (set_files (rotated_files l c (files w0)) w0))
              /\ mid = (if 0 <? len (backup l)
                        then [EvRename (filename l) (backup l) None;
                              EvSpawn (backup l)]
                        else [])
              /\ exists w3, now w3 = now w0 /\ zone w3 = zone w0
                            /\ b = fst (BackupFileName (rule l) w3)).
  { clear w Hq Hc. intros w Hq Hc. unfold rotate. mopen.
    cbn [fp set_fp filename backup]. cbv beta iota zeta.
    rewrite os_Stat_quiet by exact Hq. cbv zeta.
    rewrite (exists_path_file _ _ _ Hc).
    rewrite bool_decide_eq_true_2 by reflexivity. cbn [andb].
    unfold rotated_files.
    destruct (0 <? len (backup l)) eqn:Hb.
    - unfold getBackupFilename. cbn [backup set_fp].
      replace (len (backup l) =? 0) with false
        by (symmetry; apply Z.eqb_neq; apply Z.ltb_lt in Hb; lia).
      mopen. cbn [filename set_fp].
      erewrite os_Rename_quiet by (cbn [faults files set_trace]; eassumption).
      cbv beta iota zeta. unfold postRotate, emit. cbv beta iota zeta.
      rewrite rule_BackupFileName_quiet. cbv beta iota zeta.
      rewrite os_Create_quiet by exact Hq.
      cbv beta iota zeta. cbn [rule set_fp set_backup filename].
      destruct l, w; cbn in *.
      eexists; eexists; split; [| split; [reflexivity |]].
      * rewrite <- !app_assoc. reflexivity.
      * eexists. splits; [| | reflexivity]; reflexivity.
    - cbv beta iota zeta.
      rewrite rule_BackupFileName_quiet. cbv beta iota zeta.
      rewrite os_Create_quiet by exact Hq.
      cbv beta iota zeta. cbn [rule set_fp set_backup filename].
      destruct l, w; cbn in *.
      eexists; eexists; split; [| split; [reflexivity |]].
      * rewrite <- !app_assoc. reflexivity.
      * eexists. splits; [| | reflexivity]; reflexivity. }
  unfold close_events. destruct (fp l) as [f |] eqn:Hfp.
  - rewrite (rotate_close l f w Hfp), file_Close_quiet by exact Hq.
    cbv beta iota zeta.
    destruct (Hnil (set_trace (trace w ++ [EvClose f None]) w) Hq Hc)
      as (b & mid & Hr & Hm).
    exists b, mid. split; [| exact Hm]. rewrite Hr.
    destruct w; cbn. rewrite <- !app_assoc. reflexivity.
  - destruct (Hnil w Hq Hc) as (b & mid & Hr & Hm).
    exists b, mid. split; [| exact Hm].
    assert (Hl : set_fp None l = l) by (destruct l; cbn in *; subst; reflexivity).
    rewrite Hl in Hr. rewrite Hr. reflexivity.
Qed.


(** The events of a call of [rotate], in its four ways through. *)
Lemma rotate_shapes (l : RotateLogger R) w :
  let evs := new_events w (snd (rotate l w)) in
  let fn := filename l in
  let bk := backup l in
  (exists f e, evs = [EvClose f (Some e)])
  \/ exists C, (C = [] \/ exists f, C = [EvClose f None])
       /\ ((exists e, bk <> ""
                      /\ evs = C ++ [EvStat fn None; EvRename fn bk (Some e)])
           \/ (exists b ce, bk <> ""
                            /\ evs = C ++ [EvStat fn None; EvRename fn bk None;
                                           EvSpawn bk; EvBackupFileName b;
                                           EvCreate fn ce])
           \/ (exists st b ce, (st <> None \/ bk = "")
                               /\ evs = C ++ [EvStat fn st; EvBackupFileName b;
                                              EvCreate fn ce])).
Proof.
  cbv zeta.
  assert (Hnil : forall (l0 : RotateLogger R) w0, fp l0 = None ->
            let evs := new_events w0 (snd (rotate l0 w0)) in
            let fn := filename l0 in
            let bk := backup l0 in
            (exists e, bk <> "" /\ evs = [EvStat fn None; EvRename fn bk (Some e)])
            \/ (exists b ce, bk <> ""
                             /\ evs = [EvStat fn None; EvRename fn bk None;
                                       EvSpawn bk; EvBackupFileName b; EvCreate fn ce])
            \/ (exists st b ce, (st <> None \/ bk = "")
                                /\ evs = [EvStat fn st; EvBackupFileName b;
                                          EvCreate fn ce])).
  { clear l w. intros l w Hfp. cbv zeta. unfold rotate. mopen. rewrite Hfp.
    cbv beta iota zeta.
    destruct (os_Stat_spec (filename l) w) as (w2 & st & Hst & Ht2 & _).
    rewrite Hst.
    destruct (bool_decide (st = None) && (0 <? len (backup l))) eqn:Hguard.
    - apply andb_true_iff in Hguard as [Hst0 Hbk]. apply Z.ltb_lt in Hbk.
      apply bool_decide_eq_true in Hst0. subst st.
      assert (Hne : backup l <> "") by (apply len_pos_iff, Z.ltb_lt; exact Hbk).
      unfold getBackupFilename.
      replace (len (backup l) =? 0) with false by (symmetry; apply Z.eqb_neq; lia).
      mopen.
      destruct (os_Rename_spec (filename l) (backup l) w2) as (w3 & rn & Hrn & Ht3 & _).
      rewrite Hrn. destruct rn as [e |]; cbv beta iota zeta.
      + left. exists e. split; [exact Hne |]. cbn [snd]. apply new_events_app.
        rewrite Ht3, Ht2, <- app_assoc. reflexivity.
      + right; left. unfold postRotate, emit. cbv beta iota zeta.
        destruct (rule_BackupFileName_spec l
                    (set_trace (trace w3 ++ [EvSpawn (backup l)]) w3)) as [b Hb].
        rewrite Hb. cbv beta iota zeta.
        destruct (os_Create_spec (filename (set_backup b l))
                    (set_trace (trace (set_trace (trace w3 ++ [EvSpawn (backup l)]) w3)
                                ++ [EvBackupFileName b])
                       (set_trace (trace w3 ++ [EvSpawn (backup l)]) w3)))
          as (w5 & h & ce & Hcr & Ht5 & _).
        rewrite Hcr. cbv beta iota zeta. cbn [snd]. exists b, ce.
        split; [exact Hne |]. apply new_events_app.
        rewrite Ht5. cbn [trace set_trace]. rewrite Ht3, Ht2, <- !app_assoc.
        reflexivity.
    - right; right. cbv beta iota zeta.
      destruct (rule_BackupFileName_spec l w2) as [b Hb].
      rewrite Hb. cbv beta iota zeta.
      destruct (os_Create_spec (filename (set_backup b l))
                  (set_trace (trace w2 ++ [EvBackupFileName b]) w2))
        as (w5 & h & ce & Hcr & Ht5 & _).
      rewrite Hcr. cbv beta iota zeta. cbn [snd]. exists st, b, ce.
      split.
      { apply andb_false_iff in Hguard as [Hg | Hg].
        - left. apply bool_decide_eq_false in Hg. exact Hg.
        - right. apply Z.ltb_ge in Hg. unfold len in Hg.
          destruct (backup l); [reflexivity | cbn in Hg; lia]. }
      apply new_events_app.
      rewrite Ht5. cbn [trace set_trace]. rewrite Ht2, <- !app_assoc.
      reflexivity. }
  destruct (fp l) as [f |] eqn:Hfp.
  - rewrite (rotate_close l f w Hfp).
    destruct (file_Close_spec f w) as [e He]. rewrite He. clear He.
    set (w1 := set_trace (trace w ++ [EvClose f e]) (set_faults (tail (faults w)) w)).
    destruct e as [e |].
    + left. exists f, e. cbn [snd]. apply new_events_app. reflexivity.
    + right. exists [EvClose f None]. split; [right; exists f; reflexivity |].
      specialize (Hnil (set_fp None l) w1 eq_refl). cbv zeta in Hnil.
      pose proof (rotate_extends (set_fp None l) w1) as Hext.
      destruct (rotate (set_fp None l) w1) as [[r l'] w']. cbn [snd] in *.
      cbn [filename backup set_fp] in Hnil.
      assert (Hev : new_events w w' = [EvClose f None] ++ new_events w1 w').
      { apply new_events_app. rewrite Hext. unfold w1 at 1. cbn [trace set_trace].
        rewrite <- app_assoc. reflexivity. }
      rewrite Hev.
      destruct Hnil as [(e & ? & ->) | [(b & ce & ? & ->) | (st & b & ce & ? & ->)]];
        eauto 8.
  - right. exists []. split; [left; reflexivity |]. cbn [app].
    exact (Hnil l w Hfp).
Qed.

(** [rotate] closes, looks, renames and creates: it never writes,
    syncs or removes. *)
Lemma rotate_kinds (l : RotateLogger R) w :
  Forall rotate_kind (new_events w (snd (rotate l w))).
Proof.
  destruct (rotate_shapes l w) as [(f & e & ->) | (C & HC & Hs)].
  - repeat constructor.
  - assert (HCk : Forall rotate_kind C)
      by (destruct HC as [-> | [f ->]]; repeat constructor).
    destruct Hs as [(e & _ & ->) | [(b & ce & _ & ->) | (st & b & ce & _ & ->)]];
      apply Forall_app; (split; [exact HCk | repeat constructor]).
Qed.

(** X1: a rotation in which every call succeeds moves the content of
    the target file to the backup name cached at the previous rotation
    (or at [init]), leaves an empty target open for writing and every
    other file as it was, starts the clean-up for that backup, and
    caches the name the rule gives now for the next rotation. *)
Theorem rotate_moves_content (l : RotateLogger R) w c :
  faults w = [] ->
  files w !! Filepath.Clean (filename l) = Some c ->
  backup l <> "" ->
  Filepath.Clean (backup l) <> Filepath.Clean (filename l) ->
  let '(r, l', w') := rotate l w in
  r = None /\ fp l' = Some (filename l)
  /\ files w' !! Filepath.Clean (backup l) = Some c
  /\ files w' !! Filepath.Clean (filename l) = Some []
  /\ (forall p, p <> Filepath.Clean (backup l) -> p <> Filepath.Clean (filename l) ->
        files w' !! p = files w !! p)
  /\ In (EvSpawn (backup l)) (new_events w w')
  /\ In (EvBackupFileName (backup l')) (new_events w w')
  /\ exists w3, now w3 = now w /\ zone w3 = zone w
                /\ backup l' = fst (BackupFileName (rule l) w3).
Proof.
  intros Hq Hc Hb Hne.
  destruct (rotate_quiet l w c Hq Hc) as (b & mid & -> & Hmid & Hname).
  assert (Hlen : (0 <? len (backup l)) = true) by (apply len_pos_iff; exact Hb).
  rewrite Hlen in Hmid. subst mid.
  unfold rotated_files. rewrite Hlen. cbn [files set_files set_trace fp set_fp].
  splits; try reflexivity.
  - rewrite lookup_insert_ne by congruence. apply lookup_insert_eq.
  - apply lookup_insert_eq.
  - intros p Hp1 Hp2. rewrite !lookup_insert_ne by congruence.
    apply lookup_delete_ne. congruence.
  - erewrite new_events_app by (cbn [trace set_trace set_files]; reflexivity).
    apply in_or_app. right. cbn. tauto.
  - erewrite new_events_app by (cbn [trace set_trace set_files]; reflexivity).
    apply in_or_app. right. cbn. tauto.
  - exact Hname.
Qed.

(** X2: the clean-up after a rotation is started only once the target
    file has been renamed, and for the file it was renamed to: [rotate]
    spawns it exactly when its rename succeeded; and it tries the
    rename exactly when the target file is there and a backup name is
    cached.  A rotation that finds no target file starts no clean-up. *)
Theorem rotate_spawns_after_rename (l : RotateLogger R) w :
  let evs := new_events w (snd (rotate l w)) in
  (forall f, In (EvSpawn f) evs <->
     f = backup l /\ In (EvRename (filename l) (backup l) None) evs)
  /\ ((exists r, In (EvRename (filename l) (backup l) r) evs) <->
      In (EvStat (filename l) None) evs /\ backup l <> "").
Proof.
  cbv zeta.
  destruct (rotate_shapes l w) as [(f & e & ->) | (C & HC & Hs)].
  - cbn [In]. split; [intros f0 |]; split.
    + intros [Hin | []]. discriminate.
    + intros [_ [Hin | []]]. discriminate.
    + intros [r [Hin | []]]. discriminate.
    + intros [[Hin | []] _]. discriminate.
  - assert (HCin : forall ev, In ev C -> exists f, ev = EvClose f None).
    { intros ev Hin. destruct HC as [-> | [f ->]]; [destruct Hin |].
      destruct Hin as [<- | []]. eauto. }
    assert (Htail : forall ev L, (forall f, ev <> EvClose f None) ->
              In ev (C ++ L) <-> In ev L).
    { intros ev L Hev. rewrite in_app_iff. split; [| tauto].
      intros [Hin | Hin]; [| exact Hin].
      apply HCin in Hin as [f Hin]. exfalso. exact (Hev f Hin). }
    destruct Hs as [(e & Hne & ->) | [(b & ce & Hne & ->) | (st & b & ce & Hst & ->)]].
    + split; [intros f0 |]; split.
      * rewrite Htail by discriminate. cbn [In]. intuition discriminate.
      * rewrite Htail by discriminate. cbn [In]. intuition discriminate.
      * intros _. split; [| exact Hne]. apply Htail; [discriminate |].
        cbn [In]. tauto.
      * intros _. exists (Some e). apply Htail; [discriminate |]. cbn [In]. tauto.
    + split; [intros f0 |]; split.
      * rewrite !Htail by discriminate. cbn [In].
        intros [Hin | [Hin | [Hin | [Hin | [Hin | []]]]]]; try discriminate.
        injection Hin as <-. tauto.
      * rewrite !Htail by discriminate. intros [-> _]. cbn [In]. tauto.
      * intros _. split; [| exact Hne]. apply Htail; [discriminate |].
        cbn [In]. tauto.
      * intros _. exists None. apply Htail; [discriminate |]. cbn [In]. tauto.
    + split; [intros f0 |]; split.
      * rewrite Htail by discriminate. cbn [In]. intuition discriminate.
      * rewrite Htail by discriminate. cbn [In]. intuition discriminate.
      * intros [r Hin].
        apply (proj1 (Htail (EvRename (filename l) (backup l) r) _
                        ltac:(discriminate))) in Hin.
        cbn [In] in Hin.
        destruct Hin as [Hin | [Hin | [Hin | []]]]; discriminate Hin.
      * intros [Hin Hb].
        apply (proj1 (Htail (EvStat (filename l) None) _ ltac:(discriminate))) in Hin.
        cbn [In] in Hin.
        destruct Hin as [Hin | [Hin | [Hin | []]]]; try discriminate.
        injection Hin as ->. destruct Hst; congruence.
Qed.

End RotateQuiet.

Lemma rotate_moves_content_witness :
  let '(r, l', w') := Logger.rotate closing_logger rotating_world in
  r = None /\ Logger.fp l' = Some "app.log"
  /\ files w' !! Filepath.Clean "app-old.log" = Some [Byte.x61]
  /\ files w' !! Filepath.Clean "app.log" = Some []
  /\ (forall p, p <> Filepath.Clean "app-old.log" -> p <> Filepath.Clean "app.log" ->
        files w' !! p = files rotating_world !! p)
  /\ In (EvSpawn "app-old.log") (new_events rotating_world w')
  /\ In (EvBackupFileName (Logger.backup l')) (new_events rotating_world w')
  /\ exists w3, now w3 = now rotating_world /\ zone w3 = zone rotating_world
                /\ Logger.backup l'
                   = fst (BackupFileName (Logger.rule closing_logger) w3).
Proof.
  apply (rotate_moves_content closing_logger rotating_world [Byte.x61]);
    vm_compute; first [reflexivity | discriminate].
Defined.

Lemma rotate_spawns_after_rename_witness :
  let l := closing_logger in
  let evs := new_events rotating_world (snd (Logger.rotate l rotating_world)) in
  (forall f, In (EvSpawn f) evs <->
     f = Logger.backup l
     /\ In (EvRename (Logger.filename l) (Logger.backup l) None) evs)
  /\ ((exists r, In (EvRename (Logger.filename l) (Logger.backup l) r) evs) <->
      In (EvStat (Logger.filename l) None) evs /\ Logger.backup l <> "").
Proof.
  apply (rotate_spawns_after_rename closing_logger rotating_world).
Defined.
(** ** One record, in a world where every call succeeds *)

Section WriteQuiet.

Context {R : Type} `{RuleReadsOnly R}.

Import Logger.

Lemma add_exact a b :
  0 <= a -> 0 <= b -> a + b <= GoInt.max_int -> GoInt.add a b = a + b.
Proof.
  intros Ha Hb Hs. unfold GoInt.add. apply wrap_id.
  unfold GoInt.in_range, GoInt.min_int. lia.
Qed.

Lemma blen_nonneg v : 0 <= blen v.
Proof. unfold blen. lia. Qed.

Lemma blen_app a b : blen (a ++ b) = blen a + blen b.
Proof. unfold blen. rewrite length_app. lia. Qed.

(** [write] on a logger whose handle is at the target path and whose
    counter is the size of the file: the file afterwards holds the
    record alone when the rule asked for a rotation, and the old
    content followed by the record when it did not. *)
Lemma write_quiet (l : RotateLogger R) w v c :
  faults w = [] -> fp l = Some (filename l) ->
  files w !! Filepath.Clean (filename l) = Some c ->
  blen c = currentSize l ->
  currentSize l + blen v <= GoInt.max_int ->
  let rotated := fst (ShallRotate (rule l) (currentSize l) (blen v) w) in
  let c' := if rotated then v else c ++ v in
  let '(l', w') := write v l w in
  filename l' = filename l /\ fp l' = Some (filename l)
  /\ files w' !! Filepath.Clean (filename l) = Some c'
  /\ currentSize l' = blen c'
  /\ faults w' = []
  /\ (rotated = false -> rule l' = rule l /\ backup l' = backup l
      /\ forall p, p <> Filepath.Clean (filename l) -> files w' !! p = files w !! p)
  /\ (rotated = true -> exists w0, rule l' = fst (MarkRotated (rule l) w0)).
Proof.
  intros Hq Hfp Hc Hlen Hmax. cbv zeta.
  destruct (fst (ShallRotate (rule l) (currentSize l) (blen v) w)) eqn:Hs.
  - unfold write. mopen. rewrite rule_ShallRotate_spec. cbv zeta. rewrite Hs.
    cbv beta iota zeta.
    set (w1 := set_trace _ w).
    destruct (rotate_quiet l w1 c Hq Hc) as (b & mid & -> & _ & _).
    cbv beta iota zeta. rewrite rule_MarkRotated_spec. cbv beta iota zeta.
    cbn [fp set_currentSize set_rule set_fp currentSize].
    rewrite file_Write_quiet by exact Hq. cbv beta iota zeta.
    cbn [filename fp currentSize set_currentSize set_rule set_fp set_backup
         files faults set_files set_trace].
    splits; try reflexivity; try exact Hq.
    + rewrite lookup_alter_eq. unfold rotated_files. rewrite lookup_insert_eq.
      reflexivity.
    + apply add_exact; [lia | apply blen_nonneg |].
      pose proof (blen_nonneg c). lia.
    + discriminate.
    + intros _. eexists. reflexivity.
  - rewrite (write_no_rotation l w v (filename l) Hs Hfp).
    rewrite file_Write_quiet by exact Hq.
    cbn [snd filename fp currentSize set_currentSize files faults set_files
         set_trace rule backup].
    splits; try reflexivity; try assumption.
    + rewrite lookup_alter_eq, Hc. reflexivity.
    + rewrite blen_app, Hlen. apply add_exact; [| apply blen_nonneg | lia].
      rewrite <- Hlen. apply blen_nonneg.
    + intros _. splits; try reflexivity.
      intros p Hp. apply lookup_alter_ne. congruence.
    + discriminate.
Qed.

(** X3: in a world where every call succeeds, [write] keeps the counter
    equal to the size of the target file: a logger whose handle is at
    the target path and whose counter is the size of the file there is
    again such a logger after the record, and the file then holds the
    record alone (after a rotation) or its old content followed by the
    record. *)
Theorem write_keeps_count (l : RotateLogger R) w v c :
  faults w = [] -> fp l = Some (filename l) ->
  files w !! Filepath.Clean (filename l) = Some c ->
  blen c = currentSize l ->
  currentSize l + blen v <= GoInt.max_int ->
  let '(l', w') := write v l w in
  exists c',
    fp l' = Some (filename l') /\ faults w' = []
    /\ files w' !! Filepath.Clean (filename l') = Some c'
    /\ blen c' = currentSize l'
    /\ (c' = v \/ c' = c ++ v).
Proof.
  intros Hq Hfp Hc Hlen Hmax.
  pose proof (write_quiet l w v c Hq Hfp Hc Hlen Hmax) as Hw. cbv zeta in Hw.
  destruct (write v l w) as [l' w'].
  destruct Hw as (Hfn & Hfp' & Hf & Hcs & Hq' & _ & _).
  eexists. rewrite Hfn. splits; try eassumption; [congruence |].
  destruct (fst (ShallRotate _ _ _ _)); [left | right]; reflexivity.
Qed.

(** Without a handle, and when the rule does not ask for a rotation,
    [write] drops the record. *)
Lemma write_without_handle (l : RotateLogger R) w v :
  fp l = None ->
  fst (ShallRotate (rule l) (currentSize l) (blen v) w) = false ->
  write v l w
  = (l, set_trace (trace w ++ [EvShallRotate (currentSize l) (blen v) false]) w).
Proof.
  intros Hfp Hs. unfold write. mopen. rewrite rule_ShallRotate_spec. cbv zeta.
  rewrite Hs. cbv beta iota zeta. rewrite Hfp. reflexivity.
Qed.

(** X4: when the rule asks for a rotation and [rotate] fails, [write]
    does nothing more than print the error: the record is not written
    anywhere, the logger is left without a handle, and its counter and
    its rule are as before, [MarkRotated] not having been called.  From
    then on, as long as the rule does not ask for a rotation, [write]
    drops every record without a word. *)
Theorem write_rotation_fails (l : RotateLogger R) w v e :
  fst (ShallRotate (rule l) (currentSize l) (blen v) w) = true ->
  let w1 := set_trace (trace w ++ [EvShallRotate (currentSize l) (blen v) true]) w in
  fst (fst (rotate l w1)) = Some e ->
  let '(_, l2, w2) := rotate l w1 in
  write v l w = (l2, set_trace (trace w2 ++ [EvStderr (error_text e)]) w2)
  /\ fp l2 = None /\ currentSize l2 = currentSize l /\ rule l2 = rule l
  /\ (forall p d r, ~ In (EvWrite p d r) (new_events w (snd (write v l w))))
  /\ ~ In EvMarkRotated (new_events w (snd (write v l w)))
  /\ (forall v' w', fst (ShallRotate (rule l2) (currentSize l2) (blen v') w') = false ->
        write v' l2 w'
        = (l2, set_trace (trace w' ++ [EvShallRotate (currentSize l2) (blen v') false])
                 w')).
Proof.
  intros Hs w1 Hr.
  pose proof (rotate_cases l w1) as Hc.
  pose proof (rotate_kinds l w1) as Hk.
  pose proof (rotate_extends l w1) as Hext.
  assert (Hwr : write v l w
                = (let '(_, l2, w2) := rotate l w1 in
                   match fp l2 with
                   | Some f =>
                       (set_currentSize (GoInt.add (currentSize l2) (blen v)) l2,
                        snd (file_Write f v
                               (set_trace (trace w2 ++ [EvStderr (error_text e)]) w2)))
                   | None => (l2, set_trace (trace w2 ++ [EvStderr (error_text e)]) w2)
                   end)).
  { unfold write. mopen. rewrite rule_ShallRotate_spec. cbv zeta. rewrite Hs.
    cbv beta iota zeta. fold w1.
    destruct (rotate l w1) as [[r l2] w2]. cbn [fst] in Hr. subst r.
    unfold emit. cbv beta iota zeta. destruct (fp l2); [| reflexivity].
    destruct (file_Write _ _ _). reflexivity. }
  rewrite Hwr. clear Hwr.
  destruct (rotate l w1) as [[r l2] w2]. cbn [fst snd] in *. subst r.
  assert (Hl2 : fp l2 = None /\ currentSize l2 = currentSize l /\ rule l2 = rule l).
  { destruct Hc as [(f & e' & _ & _ & -> & _)
                   | [(e' & _ & -> & _) | (mid & b & h & -> & _ & _ & _ & _ & Hh)]].
    - splits; reflexivity.
    - splits; reflexivity.
    - rewrite (Hh ltac:(discriminate)). splits; reflexivity. }
  destruct Hl2 as (Hfp2 & Hcs2 & Hrl2). rewrite Hfp2. cbn [snd].
  assert (Hev : new_events w (set_trace (trace w2 ++ [EvStderr (error_text e)]) w2)
                = EvShallRotate (currentSize l) (blen v) true
                  :: new_events w1 w2 ++ [EvStderr (error_text e)]).
  { apply new_events_app. cbn [trace set_trace]. rewrite Hext. unfold w1 at 1.
    cbn [trace set_trace]. rewrite <- !app_assoc. reflexivity. }
  rewrite Hev. splits; try assumption; try reflexivity.
  - intros p d r [Hin | Hin]; [discriminate |].
    apply in_app_or in Hin as [Hin | [Hin | []]]; [| discriminate].
    rewrite Forall_forall in Hk. apply list_elem_of_In, Hk in Hin. exact Hin.
  - intros [Hin | Hin]; [discriminate |].
    apply in_app_or in Hin as [Hin | [Hin | []]]; [| discriminate].
    rewrite Forall_forall in Hk. apply list_elem_of_In, Hk in Hin. exact Hin.
  - intros v' w' Hs'. apply write_without_handle; assumption.
Qed.

(** X5: the counter counts the bytes handed to the file, not the bytes
    written: when the write of the record fails, the file system is as
    before and the counter has grown by the length of the record all
    the same. *)
Theorem write_counts_failed_write (l : RotateLogger R) w v f e rest :
  fst (ShallRotate (rule l) (currentSize l) (blen v) w) = false ->
  fp l = Some f ->
  faults w = Some e :: rest ->
  let '(l', w') := write v l w in
  files w' = files w
  /\ currentSize l' = GoInt.add (currentSize l) (blen v)
  /\ new_events w w' = [EvShallRotate (currentSize l) (blen v) false;
                        EvWrite f v (Some e)].
Proof.
  intros Hs Hfp Hq. rewrite (write_no_rotation l w v f Hs Hfp).
  erewrite file_Write_fails by (cbn [faults set_trace]; exact Hq).
  cbn [snd]. splits; try reflexivity.
  apply new_events_app. cbn [trace set_trace set_faults].
  rewrite <- app_assoc. reflexivity.
Qed.

End WriteQuiet.

(** X6: under the size rule, in a world where every call succeeds and
    while no sum overflows, the target file never outgrows the budget
    by more than its first record: after [write] it holds the record
    alone when the old content and the record together pass
    [maxSize] megabytes, and the old content followed by the record,
    within the budget, when they do not. *)
Theorem size_rule_bounds_file (l : Logger.RotateLogger SizeLimitRotateRule) w v c :
  faults w = [] -> Logger.fp l = Some (Logger.filename l) ->
  files w !! Filepath.Clean (Logger.filename l) = Some c ->
  blen c = Logger.currentSize l ->
  0 < maxSize (Logger.rule l) ->
  maxSize (Logger.rule l) * megabyte <= GoInt.max_int ->
  Logger.currentSize l + blen v <= GoInt.max_int ->
  let budget := maxSize (Logger.rule l) * megabyte in
  let '(l', w') := Logger.write v l w in
  exists c',
    files w' !! Filepath.Clean (Logger.filename l) = Some c'
    /\ blen c' = Logger.currentSize l'
    /\ (blen c' <= budget \/ c' = v)
    /\ (budget < blen c + blen v -> c' = v)
    /\ (blen c + blen v <= budget -> c' = c ++ v)
    /\ maxSize (Logger.rule l') = maxSize (Logger.rule l).
Proof.
  intros Hq Hfp Hc Hlen Hpos Hb Hmax budget.
  pose proof (write_quiet l w v c Hq Hfp Hc Hlen Hmax) as Hw. cbv zeta in Hw.
  destruct (Logger.write v l w) as [l' w'].
  destruct Hw as (_ & _ & Hf & Hcs & _ & Hno & Hyes).
  assert (Hs : fst (ShallRotate (Logger.rule l) (Logger.currentSize l) (blen v) w)
               = (budget <? blen c + blen v)).
  { cbn [ShallRotate SizeLimitRotateRule_rule]. unfold SizeLimit.ShallRotate.
    cbn [fst mret M_ret].
    replace (0 <? maxSize (Logger.rule l)) with true by (symmetry; apply Z.ltb_lt; lia).
    cbn [andb]. unfold GoInt.mul. rewrite wrap_id
      by (unfold GoInt.in_range, GoInt.min_int, megabyte in *; lia).
    pose proof (blen_nonneg c). pose proof (blen_nonneg v).
    rewrite add_exact by lia. rewrite Hlen. reflexivity. }
  rewrite Hs in *. eexists. splits; try eassumption; [symmetry; exact Hcs | | | |].
  - destruct (budget <? blen c + blen v) eqn:Hcmp; [right; reflexivity | left].
    apply Z.ltb_ge in Hcmp. rewrite blen_app. exact Hcmp.
  - intros Hlt. apply Z.ltb_lt in Hlt. rewrite Hlt. reflexivity.
  - intros Hle. apply Z.ltb_ge in Hle. rewrite Hle. reflexivity.
  - destruct (budget <? blen c + blen v).
    + destruct (Hyes eq_refl) as [w0 ->]. reflexivity.
    + destruct (Hno eq_refl) as (-> & _). reflexivity.
Qed.

Ltac settle :=
  first [ reflexivity | discriminate | lia
        | vm_compute; first [ reflexivity | discriminate | congruence ] ].

Lemma write_keeps_count_witness :
  let '(l', w') := Logger.write [Byte.x62] counted_logger rotating_world in
  exists c',
    Logger.fp l' = Some (Logger.filename l') /\ faults w' = []
    /\ files w' !! Filepath.Clean (Logger.filename l') = Some c'
    /\ blen c' = Logger.currentSize l'
    /\ (c' = [Byte.x62] \/ c' = [Byte.x61] ++ [Byte.x62]).
Proof.
  apply (write_keeps_count counted_logger rotating_world [Byte.x62] [Byte.x61]);
    settle.
Defined.

Lemma size_rule_bounds_file_witness :
  let budget := maxSize (Logger.rule counted_logger) * megabyte in
  let '(l', w') := Logger.write [Byte.x62] counted_logger rotating_world in
  exists c',
    files w' !! Filepath.Clean (Logger.filename counted_logger) = Some c'
    /\ blen c' = Logger.currentSize l'
    /\ (blen c' <= budget \/ c' = [Byte.x62])
    /\ (budget < blen [Byte.x61] + blen [Byte.x62] -> c' = [Byte.x62])
    /\ (blen [Byte.x61] + blen [Byte.x62] <= budget -> c' = [Byte.x61] ++ [Byte.x62])
    /\ maxSize (Logger.rule l') = maxSize (Logger.rule counted_logger).
Proof.
  apply (size_rule_bounds_file counted_logger rotating_world [Byte.x62] [Byte.x61]);
    settle.
Defined.

Lemma write_rotation_fails_witness :
  let w := rename_fails_world in
  let l := full_logger in
  let v := [Byte.x62] in
  let w1 := set_trace (trace w ++ [EvShallRotate (Logger.currentSize l) (blen v) true]) w in
  let '(_, l2, w2) := Logger.rotate l w1 in
  Logger.write v l w
  = (l2, set_trace (trace w2 ++ [EvStderr (error_text (ErrOS 13))]) w2)
  /\ Logger.fp l2 = None /\ Logger.currentSize l2 = Logger.currentSize l
  /\ Logger.rule l2 = Logger.rule l
  /\ (forall p d r, ~ In (EvWrite p d r) (new_events w (snd (Logger.write v l w))))
  /\ ~ In EvMarkRotated (new_events w (snd (Logger.write v l w)))
  /\ (forall v' w',
        fst (ShallRotate (Logger.rule l2) (Logger.currentSize l2) (blen v') w') = false ->
        Logger.write v' l2 w'
        = (l2, set_trace (trace w' ++ [EvShallRotate (Logger.currentSize l2)
                                         (blen v') false]) w')).
Proof.
  apply (write_rotation_fails full_logger rename_fails_world [Byte.x62] (ErrOS 13));
    settle.
Defined.

Lemma write_counts_failed_write_witness :
  let '(l', w') := Logger.write [Byte.x62] closing_logger next_call_fails_world in
  files w' = files next_call_fails_world
  /\ Logger.currentSize l'
     = GoInt.add (Logger.currentSize closing_logger) (blen [Byte.x62])
  /\ new_events next_call_fails_world w'
     = [EvShallRotate (Logger.currentSize closing_logger) (blen [Byte.x62]) false;
        EvWrite "app.log" [Byte.x62] (Some (ErrOS 5))].
Proof.
  apply (write_counts_failed_write closing_logger next_call_fails_world [Byte.x62]
           "app.log" (ErrOS 5) []); settle.
Defined.
(** ** The worker and [Close] *)

Lemma file_Sync_spec f w :
  exists e, file_Sync f w
            = (e, set_trace (trace w ++ [EvSync f e]) (set_faults (tail (faults w)) w)).
Proof.
  unfold file_Sync, fault. mopen.
  destruct w as [fs n z fl tr]; destruct fl; simpl; eauto.
Qed.

Section WorkerFacts.

Context {R : Type} `{RotateRule R}.

Import Logger.

Lemma rotate_queue (l : RotateLogger R) w :
  channel (snd (fst (rotate l w))) = channel l
  /\ waitGroup (snd (fst (rotate l w))) = waitGroup l.
Proof.
  unfold rotate. mopen. repeat mcase; split; reflexivity.
Qed.

(** [write] leaves the channel and the count of workers alone. *)
Lemma write_queue v (l : RotateLogger R) w :
  channel (fst (write v l w)) = channel l
  /\ waitGroup (fst (write v l w)) = waitGroup l.
Proof.
  unfold write. mopen. mcase. destruct b; cbn beta iota.
  - pose proof (rotate_queue l w0) as Hr.
    destruct (rotate l w0) as [[err l1] w2]. simpl in Hr.
    destruct err; cbn beta iota.
    + mcase. mcase; [mcase |]; simpl; exact Hr.
    + unfold rule_MarkRotated. mopen. repeat mcase; simpl; exact Hr.
  - repeat mcase; split; reflexivity.
Qed.

Lemma worker_drain_rest picks : forall (l : RotateLogger R) w,
  let l' := fst (worker_drain picks l w) in
  channel l' = drop (taken picks (length (channel l))) (channel l)
  /\ waitGroup l' = O
  /\ (taken picks (length (channel l)) = O -> snd (worker_drain picks l w) = w).
Proof.
  induction picks as [| p picks IH]; intros l w; cbn zeta.
  - destruct l as [fn bk f ch dn rl cp wg co cs].
    destruct ch; splits; intros; reflexivity.
  - destruct l as [fn bk f ch dn rl cp wg co cs].
    destruct ch as [| v q]; [destruct p; splits; intros; reflexivity |].
    destruct p; [| splits; intros; reflexivity].
    cbn [worker_drain channel]. mopen.
    pose proof (write_queue v
      (set_channel q (mkLogger fn bk f (v :: q) dn rl cp wg co cs)) w) as [Hw _].
    destruct (write v _ w) as [l1 w1]. cbn [fst] in Hw.
    specialize (IH l1 w1). cbn zeta in IH. destruct IH as (IH1 & IH2 & _).
    cbn [channel set_channel] in Hw. rewrite Hw in IH1.
    cbn [length taken drop]. splits; [exact IH1 | exact IH2 | discriminate].
Qed.

(** X7: [Close] leaves in the channel the records its worker did not
    take before it saw [done] closed: those records were accepted by
    [Write] and are never written.  When the worker takes none, the
    whole queue stays behind and no file is touched. *)
Theorem Close_leaves_rest picks (l : RotateLogger R) w :
  closeOnce l = false -> waitGroup l <> O ->
  let k := taken picks (length (channel l)) in
  let '(_, l', w') := Close picks l w in
  channel l' = drop k (channel l)
  /\ waitGroup l' = O /\ done l' = true
  /\ (k = O -> channel l' = channel l /\ files w' = files w).
Proof.
  intros Hc Hwg. cbv zeta. unfold Close. rewrite Hc. mopen.
  set (l0 := set_done true (set_closeOnce true l)).
  assert (Hch : channel l0 = channel l) by reflexivity.
  replace (waitGroup l0 =? 0)%nat with false
    by (symmetry; apply Nat.eqb_neq; exact Hwg).
  pose proof (worker_drain_rest picks l0 w) as Hd. cbv zeta in Hd.
  pose proof (worker_drain_frame picks l0 w) as Hf. cbv zeta in Hf.
  destruct (worker_drain picks l0 w) as [l1 w1]. cbn [fst snd] in Hd, Hf.
  rewrite Hch in Hd. destruct Hd as (Hd1 & Hd2 & Hd3).
  destruct Hf as (_ & Hdone & _).
  assert (Hfiles : taken picks (length (channel l)) = O ->
            forall w2, files w2 = files w1 -> files w2 = files w).
  { intros Hk w2 Hw2. rewrite Hw2, (Hd3 Hk). reflexivity. }
  destruct (fp l1) as [f |]; cbv beta iota zeta.
  - destruct (file_Sync_spec f w1) as [e ->]. destruct e as [e |]; cbv beta iota zeta.
    + splits; try assumption. intros Hk. rewrite Hd1, Hk.
      split; [reflexivity | apply (Hfiles Hk); reflexivity].
    + destruct (file_Close_spec f
                  (set_trace (trace w1 ++ [EvSync f None])
                     (set_faults (tail (faults w1)) w1))) as [e ->].
      cbv beta iota zeta.
      splits; try assumption. intros Hk. rewrite Hd1, Hk.
      split; [reflexivity | apply (Hfiles Hk); reflexivity].
  - splits; try assumption. intros Hk. rewrite Hd1, Hk.
    split; [reflexivity | apply (Hfiles Hk); reflexivity].
Qed.

(** X8: what [Close] returns when no record is waiting.  Without a
    handle it returns [os.ErrInvalid] and makes no call; when [Sync]
    fails it returns that error and does not close the handle;
    otherwise it returns what closing the handle returns. *)
Theorem Close_first_error picks (l : RotateLogger R) w :
  closeOnce l = false -> channel l = [] ->
  let '(r, l', w') := Close picks l w in
  fp l' = fp l
  /\ (fp l = None -> r = Some ErrInvalid /\ w' = w)
  /\ (forall f e rest, fp l = Some f -> faults w = Some e :: rest ->
        r = Some e /\ new_events w w' = [EvSync f (Some e)])
  /\ (forall f r2 rest, fp l = Some f -> faults w = None :: r2 :: rest ->
        r = r2 /\ new_events w w' = [EvSync f None; EvClose f r2])
  /\ (forall f, fp l = Some f -> faults w = [] ->
        r = None /\ new_events w w' = [EvSync f None; EvClose f None]).
Proof.
  intros Hc Hch. destruct l as [fn bk f0 ch dn rl cp wg co cs].
  cbn in Hc, Hch. subst co ch. unfold Close. cbn [closeOnce]. mopen.
  set (l0 := set_done true (set_closeOnce true _)).
  assert (Hdrain : worker_drain picks l0 w = (set_waitGroup 0 l0, w)).
  { destruct picks; reflexivity. }
  destruct (waitGroup l0 =? 0)%nat; [| rewrite Hdrain]; cbv beta iota zeta;
    unfold l0; cbn [fp set_waitGroup set_done set_closeOnce].
  all: destruct f0 as [f |]; cbv beta iota zeta;
    [| split; [reflexivity |]; split; [intros _; split; reflexivity |];
       splits; intros; discriminate].
  all: unfold file_Sync, file_Close, fault, emit; mopen;
    destruct w as [fs n z fl tr]; cbn [faults set_faults set_trace trace];
    destruct fl as [| [e |] fl]; cbv beta iota zeta;
      [| | destruct fl as [| r2 fl]]; cbn [faults set_faults set_trace trace];
      cbv beta iota zeta; (split; [reflexivity |]);
      (split; [discriminate |]); splits; intros; simplify_eq;
      (split; [reflexivity |]); apply new_events_app; cbn [trace];
      rewrite <- ?app_assoc; reflexivity.
Qed.

(** X9: while the logger is open, [Write] does not depend on the
    scheduler, touches neither the world nor the file, and never
    reports an error: with room in the channel it puts the record
    behind those waiting and returns its length, and with
    [bufferSize] records waiting it blocks.  The record accepted by a
    logger with an empty channel is what the worker hands to [write]
    at its next turn. *)
Theorem Write_open pick (l : RotateLogger R) data w :
  done l = false ->
  ((length (channel l) < bufferSize)%nat ->
     Write pick data l w
     = (Returned (blen data) None, set_channel (channel l ++ [data]) l, w))
  /\ ((bufferSize <= length (channel l))%nat -> Write pick data l w = (Blocked, l, w))
  /\ (channel l = [] -> forall pick',
        worker_step pick' (snd (fst (Write pick data l w))) w
        = (let '(l2, w2) := write data l w in (Some l2, w2))).
Proof.
  intros Hd. unfold Write, enqueue. rewrite Hd. splits.
  - intros Hroom. rewrite bool_decide_eq_true_2 by exact Hroom. reflexivity.
  - intros Hfull. rewrite bool_decide_eq_false_2 by lia. reflexivity.
  - intros Hch pick'. rewrite Hch.
    rewrite bool_decide_eq_true_2 by (cbn; unfold bufferSize; lia).
    cbn [fst snd mret M_ret app]. unfold worker_step.
    cbn [channel set_channel done]. rewrite Hd. mopen.
    replace (set_channel [] (set_channel [data] l)) with l
      by (destruct l; cbn in *; subst; reflexivity).
    destruct (write data l w). reflexivity.
Qed.

End WorkerFacts.
(** ** Records reach the file in the order of their submission *)

Section Flush.

Import Logger.

(** Under a size rule without a budget no write rotates. *)
Lemma no_budget_no_rotation (r : SizeLimitRotateRule) cur n w :
  maxSize r <= 0 -> fst (ShallRotate r cur n w) = false.
Proof.
  intros Hm. cbn [ShallRotate SizeLimitRotateRule_rule]. unfold SizeLimit.ShallRotate.
  cbn [fst mret M_ret].
  replace (0 <? maxSize r) with false by (symmetry; apply Z.ltb_ge; lia).
  reflexivity.
Qed.

Lemma worker_drain_all f q : forall (l : RotateLogger SizeLimitRotateRule) w c,
  channel l = q -> maxSize (rule l) <= 0 -> fp l = Some f ->
  faults w = [] -> files w !! Filepath.Clean f = Some c ->
  let '(l', w') := worker_drain (repeat true (length q)) l w in
  channel l' = [] /\ fp l' = Some f /\ faults w' = []
  /\ files w' !! Filepath.Clean f = Some (c ++ concat q)
  /\ (forall p, p <> Filepath.Clean f -> files w' !! p = files w !! p)
  /\ exists evs, trace w' = trace w ++ evs.
Proof.
  induction q as [| v q IH]; intros l w c Hch Hm Hfp Hq Hc.
  - cbn [length repeat worker_drain]. rewrite Hch. cbn [mret M_ret].
    cbn [channel fp set_waitGroup concat]. rewrite app_nil_r.
    splits; try assumption; try reflexivity. exists []. now rewrite app_nil_r.
  - cbn [length repeat worker_drain]. rewrite Hch. mopen.
    rewrite (write_no_rotation (set_channel q l) w v f)
      by (try apply no_budget_no_rotation; assumption).
    rewrite file_Write_quiet by exact Hq. cbn [snd].
    set (l1 := set_currentSize _ (set_channel q l)).
    set (w1 := set_trace _ (set_files _ _)).
    specialize (IH l1 w1 (c ++ v) eq_refl Hm Hfp Hq).
    assert (Hc1 : files w1 !! Filepath.Clean f = Some (c ++ v)).
    { unfold w1. cbn [files set_files set_trace]. rewrite lookup_alter_eq, Hc.
      reflexivity. }
    specialize (IH Hc1).
    destruct (worker_drain (repeat true (length q)) l1 w1) as [l' w'].
    destruct IH as (H1 & H2 & H3 & H4 & H5 & evs & H6).
    splits; try assumption.
    + rewrite H4. cbn [concat]. rewrite app_assoc. reflexivity.
    + intros p Hp. rewrite (H5 p Hp). unfold w1. cbn [files set_files set_trace].
      apply lookup_alter_ne. congruence.
    + eexists. rewrite H6. unfold w1. cbn [trace set_trace set_files].
      rewrite <- !app_assoc. reflexivity.
Qed.

(** X10: under a size rule without a budget, in a world where every
    call succeeds, a [Close] whose worker takes every waiting record
    appends the records to the file in the order of the channel, leaves
    the channel empty and every other file as it was, syncs and closes
    the handle, and returns nil. *)
Theorem Close_flushes_in_order (l : RotateLogger SizeLimitRotateRule) w f c :
  closeOnce l = false -> waitGroup l <> O ->
  maxSize (rule l) <= 0 -> fp l = Some f ->
  faults w = [] -> files w !! Filepath.Clean f = Some c ->
  let '(r, l', w') := Close (repeat true (length (channel l))) l w in
  r = None /\ channel l' = []
  /\ files w' !! Filepath.Clean f = Some (c ++ concat (channel l))
  /\ (forall p, p <> Filepath.Clean f -> files w' !! p = files w !! p)
  /\ exists evs, new_events w w' = evs ++ [EvSync f None; EvClose f None].
Proof.
  intros Hc Hwg Hm Hfp Hq Hfile. unfold Close. rewrite Hc. mopen.
  set (l0 := set_done true (set_closeOnce true l)).
  replace (waitGroup l0 =? 0)%nat with false
    by (symmetry; apply Nat.eqb_neq; exact Hwg).
  pose proof (worker_drain_all f (channel l) l0 w c eq_refl Hm Hfp Hq Hfile) as Hd.
  destruct (worker_drain (repeat true (length (channel l))) l0 w) as [l1 w1].
  destruct Hd as (H1 & H2 & H3 & H4 & H5 & evs & H6).
  rewrite H2. rewrite file_Sync_quiet by exact H3. cbv beta iota zeta.
  rewrite file_Close_quiet by exact H3. cbv beta iota zeta.
  cbn [files set_trace]. splits; try assumption; try reflexivity.
  exists evs. apply new_events_app. cbn [trace set_trace]. rewrite H6.
  rewrite <- !app_assoc. reflexivity.
Qed.

End Flush.

Lemma Close_leaves_rest_witness :
  let k := taken [true] (length (Logger.channel queued_logger)) in
  let '(_, l', w') := Logger.Close [true] queued_logger rotating_world in
  Logger.channel l' = drop k (Logger.channel queued_logger)
  /\ Logger.waitGroup l' = O /\ Logger.done l' = true
  /\ (k = O -> Logger.channel l' = Logger.channel queued_logger
               /\ files w' = files rotating_world).
Proof.
  apply (Close_leaves_rest [true] queued_logger rotating_world); settle.
Defined.

Lemma Close_flushes_in_order_witness :
  let '(r, l', w') :=
    Logger.Close (repeat true (length (Logger.channel queued_logger)))
      queued_logger rotating_world in
  r = None /\ Logger.channel l' = []
  /\ files w' !! Filepath.Clean "app.log"
     = Some ([Byte.x61] ++ concat (Logger.channel queued_logger))
  /\ (forall p, p <> Filepath.Clean "app.log" ->
        files w' !! p = files rotating_world !! p)
  /\ exists evs, new_events rotating_world w'
                 = evs ++ [EvSync "app.log" None; EvClose "app.log" None].
Proof.
  apply (Close_flushes_in_order queued_logger rotating_world "app.log" [Byte.x61]);
    settle.
Defined.

Lemma Close_first_error_witness :
  let '(r, l', w') := Logger.Close [] closing_logger next_call_fails_world in
  Logger.fp l' = Logger.fp closing_logger
  /\ (Logger.fp closing_logger = None -> r = Some ErrInvalid /\ w' = next_call_fails_world)
  /\ (forall f e rest, Logger.fp closing_logger = Some f ->
        faults next_call_fails_world = Some e :: rest ->
        r = Some e /\ new_events next_call_fails_world w' = [EvSync f (Some e)])
  /\ (forall f r2 rest, Logger.fp closing_logger = Some f ->
        faults next_call_fails_world = None :: r2 :: rest ->
        r = r2 /\ new_events next_call_fails_world w' = [EvSync f None; EvClose f r2])
  /\ (forall f, Logger.fp closing_logger = Some f ->
        faults next_call_fails_world = [] ->
        r = None /\ new_events next_call_fails_world w' = [EvSync f None; EvClose f None]).
Proof.
  apply (Close_first_error [] closing_logger next_call_fails_world); settle.
Defined.

Lemma Write_open_witness :
  let l := closing_logger in
  let w := rotating_world in
  let data := [Byte.x62] in
  ((length (Logger.channel l) < bufferSize)%nat ->
     Logger.Write true data l w
     = (Logger.Returned (blen data) None,
        Logger.set_channel (Logger.channel l ++ [data]) l, w))
  /\ ((bufferSize <= length (Logger.channel l))%nat ->
        Logger.Write true data l w = (Logger.Blocked, l, w))
  /\ (Logger.channel l = [] -> forall pick',
        Logger.worker_step pick' (snd (fst (Logger.Write true data l w))) w
        = (let '(l2, w2) := Logger.write data l w in (Some l2, w2))).
Proof.
  apply (Write_open true closing_logger [Byte.x62] rotating_world); settle.
Defined.
(** ** [NewLogger] *)

Section NewLoggerFacts.

Context {R : Type} `{RotateRule R}.

Import Logger.

(** X11: [NewLogger] returns a logger or an error, never both and
    never neither.  The logger has its handle at the file name, an
    empty channel, a counter of zero and one worker, and is open; the
    error is the one of the last call made, which is [MkdirAll],
    [Create] or the opening of the existing file. *)
Theorem NewLogger_result fn (r : R) cp w :
  let '(res, err, w') := NewLogger fn r cp w in
  match res, err with
  | Some l, None =>
      filename l = fn /\ fp l = Some fn /\ channel l = [] /\ done l = false
      /\ closeOnce l = false /\ waitGroup l = 1%nat /\ currentSize l = 0
      /\ rule l = r /\ compress l = cp
  | None, Some e =>
      exists pre, trace w' = pre ++ [EvMkdirAll (Filepath.Dir fn) (Some e)]
                  \/ trace w' = pre ++ [EvCreate fn (Some e)]
                  \/ trace w' = pre ++ [EvOpenAppend fn (Some e)]
  | _, _ => False
  end.
Proof.
  unfold NewLogger, init. mopen.
  destruct (rule_BackupFileName _ w) as [b w1]. cbn [filename set_backup].
  destruct (os_Stat fn w1) as [[st |] w2].
  - destruct (os_Stat (Filepath.Dir fn) w2) as [[st' |] w3].
    + unfold fault, emit. mopen. destruct (faults w3) as [| [e |] fl];
        cbv beta iota zeta.
      * destruct (os_Create_spec fn (set_trace (trace w3 ++ [EvMkdirAll (Filepath.Dir fn) None]) w3))
          as (w5 & h & ce & -> & Ht & Hok & Hko).
        cbv beta iota zeta. destruct ce as [e |].
        -- eexists. right; left. exact Ht.
        -- destruct (Hok eq_refl) as [-> _]. splits; reflexivity.
      * eexists. left. reflexivity.
      * destruct (os_Create_spec fn
                    (set_trace (trace (set_faults fl w3)
                                ++ [EvMkdirAll (Filepath.Dir fn) None])
                       (set_faults fl w3)))
          as (w5 & h & ce & -> & Ht & Hok & Hko).
        cbv beta iota zeta. destruct ce as [e |].
        -- eexists. right; left. exact Ht.
        -- destruct (Hok eq_refl) as [-> _]. splits; reflexivity.
    + cbv beta iota zeta.
      destruct (os_Create_spec fn w3) as (w5 & h & ce & -> & Ht & Hok & Hko).
      cbv beta iota zeta. destruct ce as [e |].
      * eexists. right; left. exact Ht.
      * destruct (Hok eq_refl) as [-> _]. splits; reflexivity.
  - unfold fault, emit. mopen. destruct (faults w2) as [| [e |] fl];
      cbv beta iota zeta.
    + splits; reflexivity.
    + eexists. right; right. reflexivity.
    + splits; reflexivity.
Qed.

End NewLoggerFacts.

Section NewLoggerQuiet.

Context {R : Type} `{RuleReadsOnly R}.

Import Logger.

(** What [NewLogger] comes to when every call succeeds. *)
Lemma NewLogger_quiet fn (r : R) cp w :
  faults w = [] ->
  let b := fst (BackupFileName r w) in
  let l := mkLogger fn b (Some fn) [] false r cp 1 false 0 in
  let w1 := set_trace (trace w ++ [EvBackupFileName b]) w in
  NewLogger fn r cp w =
  if FS.exists_path (files w) fn then
    (Some l, None,
     set_trace (trace w ++ [EvBackupFileName b; EvStat fn None; EvOpenAppend fn None]) w)
  else
    let d := Filepath.Dir fn in
    let mk := if FS.exists_path (files w) d then [EvStat d None]
              else [EvStat d (Some (ErrNotExist d)); EvMkdirAll d None] in
    (Some l, None,
     set_trace (trace w ++ [EvBackupFileName b; EvStat fn (Some (ErrNotExist fn))]
                ++ mk ++ [EvCreate fn None])
       (set_files (<[Filepath.Clean fn := []]> (files w)) w)).
Proof.
  intros Hq. cbv zeta. unfold NewLogger, init. mopen.
  rewrite rule_BackupFileName_quiet. cbv beta iota zeta.
  cbn [rule filename set_backup].
  rewrite os_Stat_quiet by exact Hq. cbv zeta. cbn [files set_trace].
  destruct (FS.exists_path (files w) fn) eqn:He; cbv beta iota zeta.
  - unfold fault, emit. mopen. cbn [faults set_trace trace]. rewrite Hq.
    cbv beta iota zeta. cbn [trace set_trace]. unfold startWorker.
    cbn. destruct w; cbn in *. rewrite <- !app_assoc. reflexivity.
  - rewrite os_Stat_quiet by exact Hq. cbv zeta. cbn [files set_trace].
    destruct (FS.exists_path (files w) (Filepath.Dir fn)) eqn:Hd;
      cbv beta iota zeta.
    + rewrite os_Create_quiet by exact Hq. cbv beta iota zeta. unfold startWorker.
      cbn. destruct w; cbn in *. rewrite <- !app_assoc. reflexivity.
    + unfold fault, emit. mopen. cbn [faults set_trace trace]. rewrite Hq.
      cbv beta iota zeta.
      rewrite os_Create_quiet by exact Hq. cbv beta iota zeta. unfold startWorker.
      cbn. destruct w; cbn in *. rewrite <- !app_assoc. reflexivity.
Qed.

(** X12: when every call succeeds, [NewLogger] opens the file that is
    there without touching any file, and creates the file that is not,
    empty, after asking for its directory to be made when that is
    missing too.  Either way the backup name is the one the rule gives
    now and the counter is zero, whatever the file holds. *)
Theorem NewLogger_opens_or_creates fn (r : R) cp w :
  faults w = [] ->
  let '(res, err, w') := NewLogger fn r cp w in
  exists l, res = Some l /\ err = None
    /\ fp l = Some fn /\ currentSize l = 0
    /\ backup l = fst (BackupFileName r w)
    /\ (forall c, files w !! Filepath.Clean fn = Some c ->
          files w' = files w /\ In (EvOpenAppend fn None) (new_events w w')
          /\ forall p res', ~ In (EvCreate p res') (new_events w w'))
    /\ (FS.exists_path (files w) fn = false ->
          files w' = <[Filepath.Clean fn := []]> (files w)
          /\ (In (EvMkdirAll (Filepath.Dir fn) None) (new_events w w')
              <-> FS.exists_path (files w) (Filepath.Dir fn) = false)).
Proof.
  intros Hq. rewrite (NewLogger_quiet fn r cp w Hq). cbv zeta.
  destruct (FS.exists_path (files w) fn) eqn:He.
  - eexists. splits; try reflexivity.
    + intros c Hc. erewrite new_events_app by (cbn [trace set_trace]; reflexivity).
      splits; [reflexivity | cbn; tauto |].
      intros p res' [Hin | [Hin | [Hin | []]]]; discriminate.
    + discriminate.
  - eexists. splits; try reflexivity.
    + intros c Hc. rewrite (exists_path_file _ _ _ Hc) in He. discriminate.
    + intros _. erewrite new_events_app by (cbn [trace set_trace set_files]; reflexivity).
      split; [reflexivity |].
      destruct (FS.exists_path (files w) (Filepath.Dir fn)); cbn; split.
      * intros [Hin | [Hin | [Hin | [Hin | []]]]]; discriminate.
      * discriminate.
      * reflexivity.
      * tauto.
Qed.

End NewLoggerQuiet.

Lemma NewLogger_opens_or_creates_witness :
  let w := rotating_world in
  let '(res, err, w') := Logger.NewLogger "app.log" (size_rule 1) false w in
  exists l, res = Some l /\ err = None
    /\ Logger.fp l = Some "app.log" /\ Logger.currentSize l = 0
    /\ Logger.backup l = fst (BackupFileName (size_rule 1) w)
    /\ (forall c, files w !! Filepath.Clean "app.log" = Some c ->
          files w' = files w /\ In (EvOpenAppend "app.log" None) (new_events w w')
          /\ forall p res', ~ In (EvCreate p res') (new_events w w'))
    /\ (FS.exists_path (files w) "app.log" = false ->
          files w' = <[Filepath.Clean "app.log" := []]> (files w)
          /\ (In (EvMkdirAll (Filepath.Dir "app.log") None) (new_events w w')
              <-> FS.exists_path (files w) (Filepath.Dir "app.log") = false)).
Proof.
  apply (NewLogger_opens_or_creates "app.log" (size_rule 1) false rotating_world);
    settle.
Defined.

(** X13: a logger opened on a file that is there starts counting at
    zero: under the size rule the first record of at most the budget is
    appended without a rotation, whatever the size the file has
    already, so that the file can pass the budget by all it held
    before. *)
Theorem restart_forgets_size (r : SizeLimitRotateRule) fn cp w c v :
  faults w = [] ->
  files w !! Filepath.Clean fn = Some c ->
  0 < maxSize r -> maxSize r * megabyte <= GoInt.max_int ->
  blen v <= maxSize r * megabyte ->
  let '(res, _, w1) := Logger.NewLogger fn r cp w in
  exists l, res = Some l
    /\ let '(l2, w2) := Logger.write v l w1 in
       files w2 !! Filepath.Clean fn = Some (c ++ v)
       /\ Logger.currentSize l2 = blen v
       /\ forall p res', ~ In (EvRename fn p res') (new_events w w2).
Proof.
  intros Hq Hc Hpos Hb Hv.
  rewrite (NewLogger_quiet fn r cp w Hq). cbv zeta.
  rewrite (exists_path_file _ _ _ Hc).
  eexists. split; [reflexivity |].
  set (l := Logger.mkLogger fn _ (Some fn) [] false r cp 1 false 0).
  set (w1 := set_trace _ w).
  assert (Hs : fst (ShallRotate (Logger.rule l) (Logger.currentSize l) (blen v) w1)
               = false).
  { unfold l. cbn [ShallRotate SizeLimitRotateRule_rule Logger.rule Logger.currentSize].
    unfold SizeLimit.ShallRotate. cbn [fst mret M_ret].
    apply andb_false_iff. right. apply Z.ltb_ge.
    pose proof (blen_nonneg v). unfold GoInt.mul, GoInt.add.
    rewrite !wrap_id
      by (unfold GoInt.in_range, GoInt.min_int, megabyte in *; lia).
    lia. }
  rewrite (write_no_rotation l w1 v fn Hs eq_refl).
  rewrite file_Write_quiet by exact Hq. cbn [snd files set_files set_trace].
  splits.
  - unfold w1. cbn [files set_trace]. rewrite lookup_alter_eq, Hc. reflexivity.
  - cbn [Logger.currentSize Logger.set_currentSize l].
    pose proof (blen_nonneg v). apply add_exact; lia.
  - intros p res'.
    erewrite new_events_app
      by (unfold w1; cbn [trace set_trace set_files];
          rewrite <- !app_assoc; reflexivity).
    intros [Hin | [Hin | [Hin | [Hin | [Hin | []]]]]]; discriminate.
Qed.

Lemma restart_forgets_size_witness :
  let '(res, _, w1) :=
    Logger.NewLogger "app.log" (size_rule 1) false rotating_world in
  exists l, res = Some l
    /\ let '(l2, w2) := Logger.write [Byte.x62] l w1 in
       files w2 !! Filepath.Clean "app.log" = Some ([Byte.x61] ++ [Byte.x62])
       /\ Logger.currentSize l2 = blen [Byte.x62]
       /\ forall p res', ~ In (EvRename "app.log" p res') (new_events rotating_world w2).
Proof.
  apply (restart_forgets_size (size_rule 1) "app.log" false rotating_world
           [Byte.x61] [Byte.x62]); settle.
Defined.
(** ** The clean-up after a rotation *)

Lemma os_Remove_spec p w :
  exists w' r, os_Remove p w = (r, w')
    /\ trace w' = trace w ++ [EvRemove p r]
    /\ (faults w = [] ->
        faults w' = [] /\ files w' = delete (Filepath.Clean p) (files w))
    /\ (forall q, q <> Filepath.Clean p -> files w' !! q = files w !! q).
Proof.
  unfold os_Remove, fault, get_world, emit, update_files. mopen.
  destruct w as [fs n z fl tr]; destruct fl as [| [e |] fl];
    cbn [faults trace files set_trace set_faults set_files].
  - destruct (fs !! Filepath.Clean p) eqn:E; cbv beta iota zeta;
      cbn [faults trace files set_trace set_faults set_files];
      eexists; eexists; splits; try reflexivity;
      try (intros q Hq; apply lookup_delete_ne; congruence);
      intros _; split; try reflexivity.
    symmetry. apply delete_id. exact E.
  - eexists; eexists; splits; try reflexivity; discriminate.
  - destruct (fs !! Filepath.Clean p) eqn:E; cbv beta iota zeta;
      cbn [faults trace files set_trace set_faults set_files];
      eexists; eexists; splits; try reflexivity; try discriminate;
      intros q Hq; apply lookup_delete_ne; congruence.
Qed.

Lemma removals_app a b : removals (a ++ b) = removals a ++ removals b.
Proof. unfold removals. apply omap_app. Qed.

Section CleanUp.

Context {R : Type} `{RotateRule R}.

Import Logger.

(** The loop of [maybeDeleteOutdatedFiles]. *)
Lemma remove_loop out : forall w,
  let w' := snd ((fix loop (fs : list string) : M unit :=
                    match fs with
                    | [] => mret tt
                    | file :: rest =>
                        e ← os_Remove file;
                        match e with
                        | Some _ =>
                            emit (EvLog ("failed to remove outdated file: " +:+ file))
                        | None => mret tt
                        end;;
                        loop rest
                    end) out w) in
  (exists evs, trace w' = trace w ++ evs /\ removals evs = out)
  /\ (forall p, p ∉ Filepath.Clean <$> out -> files w' !! p = files w !! p)
  /\ (faults w = [] ->
      forall p, files w' !! p
                = if bool_decide (p ∈ Filepath.Clean <$> out) then None
                  else files w !! p).
Proof.
  induction out as [| file rest IH]; intros w; cbn zeta.
  - cbn [snd mret M_ret]. splits.
    + exists []. rewrite app_nil_r. split; reflexivity.
    + reflexivity.
    + intros _ p. rewrite bool_decide_eq_false_2; [reflexivity |].
      cbn. apply not_elem_of_nil.
  - mopen.
    destruct (os_Remove_spec file w) as (w1 & r & -> & Ht1 & Hf1 & Hother).
    set (w2 := snd (match r with
                    | Some _ => emit (EvLog ("failed to remove outdated file: " +:+ file))
                    | None => fun w => (tt, w)
                    end w1)).
    assert (Hw2 : (exists evs, trace w2 = trace w ++ EvRemove file r :: evs
                               /\ removals evs = [])
                  /\ files w2 = files w1 /\ faults w2 = faults w1).
    { unfold w2. destruct r; cbn [snd emit].
      - split; [| split; reflexivity]. eexists. cbn [trace set_trace].
        rewrite Ht1, <- app_assoc. split; reflexivity.
      - split; [| split; reflexivity]. exists []. rewrite Ht1. split; reflexivity. }
    destruct Hw2 as ((evs2 & Ht2 & Hr2) & Hfs2 & Hq2).
    specialize (IH w2). cbn zeta in IH.
    unfold mbind, M_bind, mret, M_ret in IH. cbn beta iota zeta in IH.
    match goal with
    | |- context [match ?m w1 with (_, w') => ?k w' end] =>
        replace (match m w1 with (_, w') => k w' end) with (k w2)
          by (unfold w2; destruct (m w1); reflexivity)
    end.
    destruct IH as ((evs & Ht & Hr) & Hkeep & Hfiles). splits.
    + eexists. split.
      * rewrite Ht, Ht2. rewrite <- app_assoc. reflexivity.
      * change (EvRemove file r :: evs2) with ([EvRemove file r] ++ evs2).
        rewrite !removals_app, Hr2, Hr. reflexivity.
    + intros p Hp. rewrite fmap_cons in Hp. apply not_elem_of_cons in Hp as [Hp1 Hp2].
      rewrite (Hkeep p Hp2), Hfs2. apply Hother. exact Hp1.
    + intros Hq p. destruct (Hf1 Hq) as [Hq1 Hfs1].
      rewrite Hfiles by congruence. rewrite Hfs2, Hfs1. rewrite fmap_cons.
      destruct (decide (p = Filepath.Clean file)) as [-> | Hne].
      * rewrite lookup_delete_eq.
        rewrite (bool_decide_eq_true_2 (_ ∈ _ :: _)) by (apply list_elem_of_here).
        destruct (bool_decide _); reflexivity.
      * rewrite lookup_delete_ne by congruence.
        destruct (bool_decide (p ∈ Filepath.Clean <$> rest)) eqn:Hin.
        -- apply bool_decide_eq_true in Hin.
           rewrite bool_decide_eq_true_2 by (apply list_elem_of_further; exact Hin).
           reflexivity.
        -- apply bool_decide_eq_false in Hin.
           rewrite bool_decide_eq_false_2; [reflexivity |].
           intros Hc. apply elem_of_cons in Hc as [Hc | Hc]; contradiction.
Qed.

(** X14: [maybeDeleteOutdatedFiles] asks for the removal of every file
    the rule reports, once each and in the order of the report; a
    removal that fails does not stop the loop. *)
Theorem cleanup_tries_every_file (l : RotateLogger R) w :
  let '(out, w1) := OutdatedFiles (rule l) w in
  removals (new_events w1 (snd (maybeDeleteOutdatedFiles l w))) = out.
Proof.
  unfold maybeDeleteOutdatedFiles. mopen.
  destruct (OutdatedFiles (rule l) w) as [out w1].
  destruct (remove_loop out w1) as ((evs & Ht & Hr) & _ & _).
  transitivity (removals evs); [| exact Hr].
  f_equal. exact (new_events_app _ _ evs Ht).
Qed.

(** X15: when every call succeeds, the clean-up leaves no file at the
    path of a reported name and every other file as it was. *)
Theorem cleanup_removes_reported (l : RotateLogger R) w :
  faults (snd (OutdatedFiles (rule l) w)) = [] ->
  forall p, files (snd (maybeDeleteOutdatedFiles l w)) !! p
            = if bool_decide (p ∈ Filepath.Clean <$> fst (OutdatedFiles (rule l) w))
              then None
              else files (snd (OutdatedFiles (rule l) w)) !! p.
Proof.
  unfold maybeDeleteOutdatedFiles. mopen.
  destruct (OutdatedFiles (rule l) w) as [out w1]. cbn [fst snd].
  destruct (remove_loop out w1) as (_ & _ & Hf). exact Hf.
Qed.

(** Whatever fails, the clean-up touches the paths of the reported
    names only. *)
Lemma cleanup_keeps_others (l : RotateLogger R) w p :
  p ∉ Filepath.Clean <$> fst (OutdatedFiles (rule l) w) ->
  files (snd (maybeDeleteOutdatedFiles l w)) !! p
  = files (snd (OutdatedFiles (rule l) w)) !! p.
Proof.
  unfold maybeDeleteOutdatedFiles. mopen.
  destruct (OutdatedFiles (rule l) w) as [out w1]. cbn [fst snd].
  destruct (remove_loop out w1) as (_ & Hf & _). apply Hf.
Qed.

End CleanUp.

Lemma cleanup_removes_reported_witness :
  let l := cleaning_logger in
  let w := five_backups_world in
  faults (snd (OutdatedFiles (Logger.rule l) w)) = []
  /\ forall p, files (snd (Logger.maybeDeleteOutdatedFiles l w)) !! p
               = if bool_decide
                      (p ∈ Filepath.Clean <$> fst (OutdatedFiles (Logger.rule l) w))
                 then None
                 else files (snd (OutdatedFiles (Logger.rule l) w)) !! p.
Proof.
  split; [vm_compute; reflexivity |].
  apply (cleanup_removes_reported cleaning_logger five_backups_world).
  vm_compute. reflexivity.
Defined.
(** ** The names the rules give their backups *)

Lemma append_inv_l p a b : p +:+ a = p +:+ b -> a = b.
Proof.
  induction p as [| c p IH]; intros Heq; [exact Heq |].
  change (String c (p +:+ a) = String c (p +:+ b)) in Heq.
  injection Heq as Heq. exact (IH Heq).
Qed.

Lemma Daily_BackupFileName_eq (r : DailyRotateRule) w :
  fst (Daily.BackupFileName r w)
  = filename r +:+ delimiter r +:+ date_string (local_day (zone w) (now w)).
Proof.
  unfold Daily.BackupFileName. mopen. rewrite getNowDate_eq. reflexivity.
Qed.

(** X16: the daily rule has one backup name for each local day.  For
    times of four-digit years, the names given at two times are the
    same exactly when the local days are, and they sort as the days do:
    a second rotation on one day renames onto the backup of the first,
    and the comparison of names in [OutdatedFiles] is a comparison of
    days. *)
Theorem Daily_backup_name_order (r : DailyRotateRule) w1 w2 :
  four_digit_year (zone w1) (now w1) -> four_digit_year (zone w2) (now w2) ->
  let n1 := fst (Daily.BackupFileName r w1) in
  let n2 := fst (Daily.BackupFileName r w2) in
  let d1 := local_day (zone w1) (now w1) in
  let d2 := local_day (zone w2) (now w2) in
  (n1 = n2 <-> d1 = d2) /\ (str_lt n1 n2 = true <-> d1 < d2).
Proof.
  intros H1 H2. cbv zeta. rewrite !Daily_BackupFileName_eq.
  unfold four_digit_year, local_year in H1, H2. fold (day_year (local_day (zone w1) (now w1))) in H1.
  fold (day_year (local_day (zone w2) (now w2))) in H2.
  set (d1 := local_day (zone w1) (now w1)) in *.
  set (d2 := local_day (zone w2) (now w2)) in *.
  split.
  - split.
    + intros Heq. apply append_inv_l, append_inv_l in Heq.
      apply date_string_inj; assumption.
    + intros ->. reflexivity.
  - rewrite StrOrder.str_lt_iff. split.
    + intros Hl. apply StrOrder.lts_app_r_inv, StrOrder.lts_app_r_inv in Hl.
      destruct (Z.lt_trichotomy d1 d2) as [Hlt | [Heq | Hgt]]; [assumption | |];
        exfalso.
      * rewrite Heq in Hl. exact (StrOrder.lts_irrefl _ Hl).
      * pose proof (TimeFacts.date_string_mono d2 d1 Hgt ltac:(lia) ltac:(lia)) as Hr.
        exact (StrOrder.lts_irrefl _ (StrOrder.lts_trans _ _ _ Hl Hr)).
    + intros Hlt. apply StrOrder.lts_app_l, StrOrder.lts_app_l.
      apply TimeFacts.date_string_mono; lia.
Qed.

(** X18: the size rule stamps its backup names to the second.  For one
    file name without separator in its parts, one zone and times of
    four-digit years, the names given at two times are the same exactly
    when the times fall in the same second, and they sort as the times
    do. *)
Theorem SizeLimit_backup_name_order (r : SizeLimitRotateRule) w1 w2 :
  (let '(_, _, ext, prefix) := SizeLimit.parseFilename r (filename r) in
   GoStrings.contains_char "/" (prefix +:+ delimiter r +:+ ext) = false) ->
  zone w1 = zone w2 ->
  let s1 := GoTime.abs_seconds (zone w1) (now w1) in
  let s2 := GoTime.abs_seconds (zone w2) (now w2) in
  0 <= day_year ((s1 - 86100) / 86400) <= 9999 ->
  0 <= day_year ((s2 - 86100) / 86400) <= 9999 ->
  let n1 := fst (SizeLimit.BackupFileName r w1) in
  let n2 := fst (SizeLimit.BackupFileName r w2) in
  (n1 = n2 <-> s1 = s2) /\ (str_lt n1 n2 = true <-> s1 < s2).
Proof.
  intros Hsep Hz s1 s2 H1 H2. cbv zeta.
  unfold SizeLimit.BackupFileName.
  destruct (SizeLimit.parseFilename r (filename r)) as [[[dir lg] ext] prefix].
  mopen. rewrite !StampFacts.getNowDateInRFC3339Format_eq. cbn [fst].
  fold s1 s2. rewrite <- Hz.
  assert (Hdir : Filepath.Dir (filename r) <> "") by apply PathFacts.Clean_nonempty.
  rewrite !SizeLimit_name_shape by assumption.
  set (q := clean_prefix (Filepath.Dir (filename r))).
  assert (Hlt : forall a b, 0 <= day_year (a / 86400) <= 9999 ->
            0 <= day_year (b / 86400) <= 9999 ->
            (StrOrder.lts
               (q +:+ prefix +:+ delimiter r +:+ stamp_string (zone w1) a +:+ ext)
               (q +:+ prefix +:+ delimiter r +:+ stamp_string (zone w1) b +:+ ext)
             <-> a < b)).
  { intros a b Ha Hb. rewrite <- (StampFacts.stamp_string_lt_iff (zone w1) a b ext Ha Hb).
    split.
    - intros Hl. do 3 apply StrOrder.lts_app_r_inv in Hl. exact Hl.
    - intros Hl. do 3 apply StrOrder.lts_app_l. exact Hl. }
  split.
  - split.
    + intros Heq.
      destruct (Z.lt_trichotomy s1 s2) as [Hc | [Hc | Hc]]; [| assumption |];
        exfalso.
      * assert (Hl : s1 - 86100 < s2 - 86100) by lia.
        apply (Hlt _ _ H1 H2) in Hl. rewrite Heq in Hl.
        exact (StrOrder.lts_irrefl _ Hl).
      * assert (Hl : s2 - 86100 < s1 - 86100) by lia.
        apply (Hlt _ _ H2 H1) in Hl. rewrite Heq in Hl.
        exact (StrOrder.lts_irrefl _ Hl).
    + intros ->. reflexivity.
  - rewrite StrOrder.str_lt_iff, (Hlt _ _ H1 H2). lia.
Qed.

Lemma Daily_backup_name_order_witness :
  let r := three_days "-" in
  let w1 := four_days_before in
  let w2 := daily_world in
  let n1 := fst (Daily.BackupFileName r w1) in
  let n2 := fst (Daily.BackupFileName r w2) in
  let d1 := local_day (zone w1) (now w1) in
  let d2 := local_day (zone w2) (now w2) in
  (n1 = n2 <-> d1 = d2) /\ (str_lt n1 n2 = true <-> d1 < d2).
Proof.
  apply (Daily_backup_name_order (three_days "-") four_days_before daily_world);
    unfold four_digit_year; vm_compute; split; discriminate.
Defined.

Lemma SizeLimit_backup_name_order_witness :
  let r := name_rule false in
  let w1 := quiet_world in
  let w2 := five_minutes_later in
  let s1 := GoTime.abs_seconds (zone w1) (now w1) in
  let s2 := GoTime.abs_seconds (zone w2) (now w2) in
  let n1 := fst (SizeLimit.BackupFileName r w1) in
  let n2 := fst (SizeLimit.BackupFileName r w2) in
  (n1 = n2 <-> s1 = s2) /\ (str_lt n1 n2 = true <-> s1 < s2).
Proof.
  apply (SizeLimit_backup_name_order (name_rule false) quiet_world five_minutes_later).
  - vm_compute. reflexivity.
  - reflexivity.
  - vm_compute. split; discriminate.
  - vm_compute. split; discriminate.
Defined.
(** ** [parseFilename], and the marker of the size rule *)

Lemma take_app_length q e : GoStrings.take (String.length q) (q +:+ e) = q.
Proof.
  induction q as [| c q IH]; [destruct e; reflexivity |].
  change (String c q +:+ e) with (String c (q +:+ e)).
  cbn [String.length GoStrings.take]. rewrite IH. reflexivity.
Qed.

(** The extension is the end of the last element. *)
Lemma Ext_suffix_last_element p :
  exists q, snd (Filepath.Split p) = q +:+ Filepath.Ext p.
Proof.
  induction p as [| c p IH]; [exists ""; reflexivity |].
  cbn [Filepath.Ext Filepath.Split].
  pose proof (PathFacts.Split_parts p) as Hp.
  destruct IH as [q IH].
  destruct (Filepath.Ext p) as [| e0 e] eqn:He.
  - destruct (Ascii.eqb c "." && negb (GoStrings.contains_char Filepath.Separator p))
      eqn:Hdot.
    + apply andb_true_iff in Hdot as [Hc Hs]. apply negb_true_iff in Hs.
      apply Ascii.eqb_eq in Hc. subst c.
      rewrite (PathFacts.Split_no_separator p Hs). exists "". reflexivity.
    + eexists. rewrite StrOrder.append_nil_r. reflexivity.
  - destruct (Filepath.Split p) as [d f]. cbn [fst snd] in *.
    destruct d.
    + change ("" +:+ f) with f in Hp. subst p.
      destruct (Ascii.eqb c Filepath.Separator); cbn [snd].
      * exists q. exact IH.
      * exists (String c q). rewrite IH. reflexivity.
    + cbn [snd]. exists q. exact IH.
Qed.

(** The base name is what the slice of [parseFilename] takes of it,
    followed by the extension. *)
Lemma Base_prefix_ext p :
  GoStrings.take (String.length (Filepath.Base p) - String.length (Filepath.Ext p))
    (Filepath.Base p) +:+ Filepath.Ext p
  = Filepath.Base p.
Proof.
  assert (Hsuf : exists q, Filepath.Base p = q +:+ Filepath.Ext p).
  { destruct (Ext_suffix_last_element p) as [q Hq].
    pose proof (BaseFacts.Ext_within_last_element p) as Hw.
    unfold Filepath.Base.
    destruct (String.eqb p "") eqn:Hp.
    - apply String.eqb_eq in Hp. rewrite Hp. exists ".". reflexivity.
    - destruct (string_dec (snd (Filepath.Split p)) "") as [He | Hne].
      + rewrite He in Hw. cbn in Hw.
        assert (Filepath.Ext p = "") as ->
          by (destruct (Filepath.Ext p); [reflexivity | cbn in Hw; lia]).
        eexists. rewrite StrOrder.append_nil_r. reflexivity.
      + rewrite BaseFacts.strip_trailing_id by exact Hne.
        apply String.eqb_neq in Hne. rewrite Hne. exists q. exact Hq. }
  destruct Hsuf as [q Hq]. rewrite Hq at 1 2.
  rewrite StrOrder.length_append.
  replace (String.length q + String.length (Filepath.Ext p)
           - String.length (Filepath.Ext p))%nat with (String.length q) by lia.
  rewrite take_app_length. symmetry. exact Hq.
Qed.

(** X19: [parseFilename] never fails and splits the base name of the
    rule's file name in two: the prefix followed by the extension is
    the base name, so the slice that takes the prefix is within
    bounds.  Its argument plays no part. *)
Theorem parseFilename_splits_base (r : SizeLimitRotateRule) file :
  let '(dir, logname, ext, prefix) := SizeLimit.parseFilename r file in
  prefix +:+ ext = logname
  /\ (String.length ext <= String.length logname)%nat
  /\ logname = Filepath.Base (filename r)
  /\ ext = Filepath.Ext (filename r)
  /\ dir = Filepath.Dir (filename r).
Proof.
  unfold SizeLimit.parseFilename. cbv zeta.
  splits; try reflexivity.
  - apply Base_prefix_ext.
  - apply BaseFacts.parseFilename_in_range.
Qed.

(** X20: the size rule never reads its marker.  After [MarkRotated],
    and with any other marker, the rule answers [ShallRotate], names
    its backups and reports outdated files as before; so do two rules
    that [NewSizeLimitRotateRule] made of the same arguments at
    different times. *)
Theorem SizeLimit_marker_unused (r : SizeLimitRotateRule) t w0 :
  let marked := fst (SizeLimit.MarkRotated r w0) in
  let other := mkSizeLimit (set_rotatedTime t r) (maxSize r) (maxBackups r) in
  (forall cur n w, SizeLimit.ShallRotate marked cur n w = SizeLimit.ShallRotate r cur n w)
  /\ (forall w, SizeLimit.BackupFileName marked w = SizeLimit.BackupFileName r w)
  /\ (forall w, SizeLimit.OutdatedFiles marked w = SizeLimit.OutdatedFiles r w)
  /\ (forall cur n w, SizeLimit.ShallRotate other cur n w = SizeLimit.ShallRotate r cur n w)
  /\ (forall w, SizeLimit.BackupFileName other w = SizeLimit.BackupFileName r w)
  /\ (forall w, SizeLimit.OutdatedFiles other w = SizeLimit.OutdatedFiles r w)
  /\ maxSize marked = maxSize r /\ maxBackups marked = maxBackups r
  /\ days marked = days r /\ filename marked = filename r
  /\ (forall fn delim n ms mb gz w1 w2,
        let r1 := fst (SizeLimit.NewSizeLimitRotateRule fn delim n ms mb gz w1) in
        let r2 := fst (SizeLimit.NewSizeLimitRotateRule fn delim n ms mb gz w2) in
        (forall cur m w, SizeLimit.ShallRotate r1 cur m w = SizeLimit.ShallRotate r2 cur m w)
        /\ (forall w, SizeLimit.BackupFileName r1 w = SizeLimit.BackupFileName r2 w)
        /\ (forall w, SizeLimit.OutdatedFiles r1 w = SizeLimit.OutdatedFiles r2 w)).
Proof.
  destruct r as [[rt fn dl dy gz] ms mb]. cbv zeta. splits; try reflexivity.
  intros. splits; reflexivity.
Qed.

(** X21: a daily rule fresh from [DefaultRotateRule] holds the fields it
    was given and the date of its making as marker: it does not ask
    for a rotation while the local date is that of its making, and for
    times of four-digit years it asks for one as soon as the local day
    is another. *)
Theorem DefaultRotateRule_fresh fn delim n gz w0 :
  let r := fst (Daily.DefaultRotateRule fn delim n gz w0) in
  filename r = fn /\ delimiter r = delim /\ days r = n /\ gzip r = gz
  /\ rotatedTime r = fst (getNowDate w0)
  /\ forall w cur m,
       (local_day (zone w) (now w) = local_day (zone w0) (now w0) ->
        fst (Daily.ShallRotate r cur m w) = false)
       /\ (four_digit_year (zone w0) (now w0) -> four_digit_year (zone w) (now w) ->
           local_day (zone w) (now w) <> local_day (zone w0) (now w0) ->
           fst (Daily.ShallRotate r cur m w) = true).
Proof.
  cbv zeta. unfold Daily.DefaultRotateRule. mopen. rewrite getNowDate_eq.
  cbn [fst filename delimiter days gzip rotatedTime].
  splits; try reflexivity. intros w cur m.
  unfold Daily.ShallRotate. mopen. rewrite getNowDate_eq.
  cbn [fst rotatedTime].
  replace (0 <? len (date_string (local_day (zone w0) (now w0)))) with true
    by (symmetry; apply len_pos_iff, date_string_nonempty).
  cbn [andb]. split.
  - intros ->. rewrite String.eqb_refl. reflexivity.
  - intros H0 H1 Hne. apply negb_true_iff, String.eqb_neq. intros Heq.
    apply Hne. apply date_string_inj; assumption.
Qed.
(** ** The clean-up and the active file *)

Section ActiveFile.

Import GoStrings StrOrder PathFacts.

(** What [*] followed by the rest of a pattern matches: a run without
    separator, then what the rest matches. *)
Lemma star_split k : forall s,
  Pattern.star k s = true ->
  exists a b, s = a +:+ b /\ contains_char "/" a = false /\ k b = true.
Proof.
  induction s as [| c s IH]; intros Hs; cbn [Pattern.star] in Hs.
  - apply orb_true_iff in Hs as [Hs | Hs]; [| discriminate].
    exists "", "". splits; [reflexivity | reflexivity | exact Hs].
  - apply orb_true_iff in Hs as [Hs | Hs].
    + exists "", (String c s). splits; [reflexivity | reflexivity | exact Hs].
    + apply andb_true_iff in Hs as [Hc Hs].
      destruct (IH Hs) as (a & b & -> & Ha & Hb).
      exists (String c a), b. splits; [reflexivity | | exact Hb].
      cbn [contains_char]. unfold Filepath.Separator in Hc.
      apply negb_true_iff in Hc. rewrite Hc, Ha. reflexivity.
Qed.

(** A literal, a [*] and a literal, read as a pattern. *)
Lemma parse_star_pattern lit sfx :
  Pattern.hasMeta lit = false -> Pattern.hasMeta sfx = false ->
  Pattern.parse (S (String.length (lit +:+ "*" +:+ sfx))) (lit +:+ "*" +:+ sfx)
  = Some (literal_terms lit ++ Pattern.TStar :: literal_terms sfx).
Proof.
  intros Hl Hs.
  replace (S (String.length (lit +:+ "*" +:+ sfx)))
    with (String.length lit + S (S (String.length sfx)))%nat
    by (rewrite length_append; change ("*" +:+ sfx) with (String "*" sfx);
        cbn [String.length]; lia).
  rewrite parse_literal by exact Hl.
  change ("*" +:+ sfx) with (String "*" sfx).
  change (Pattern.parse (S (S (String.length sfx))) (String "*" sfx))
    with (cons Pattern.TStar <$> Pattern.parse (S (String.length sfx)) sfx).
  pose proof (parse_literal sfx 1 "" Hs) as Hp.
  rewrite append_nil_r, Nat.add_1_r in Hp. rewrite Hp.
  cbn [Pattern.parse fmap option_fmap option_map]. rewrite app_nil_r. reflexivity.
Qed.

(** The names matched by such a pattern. *)
Lemma Match_star lit sfx n :
  Pattern.hasMeta lit = false -> Pattern.hasMeta sfx = false ->
  Pattern.Match (lit +:+ "*" +:+ sfx) n = Some true ->
  exists x, n = lit +:+ x +:+ sfx /\ contains_char "/" x = false.
Proof.
  intros Hl Hs. unfold Pattern.Match.
  rewrite parse_star_pattern by assumption.
  cbn [mbind option_bind]. intros [= Hm].
  apply matches_literal in Hm as (rest & -> & Hr).
  cbn [Pattern.matches] in Hr.
  apply star_split in Hr as (a & b & -> & Ha & Hb).
  apply matches_literal_only in Hb. subst b.
  exists a. split; [reflexivity | exact Ha].
Qed.

(** The directory part that [Split] gives is empty or ends in a
    separator. *)
Lemma Split_fst_shape p :
  fst (Filepath.Split p) = "" \/ exists q, fst (Filepath.Split p) = q +:+ "/".
Proof.
  induction p as [| c p IH]; [left; reflexivity |].
  cbn [Filepath.Split]. destruct (Filepath.Split p) as [d f]. cbn [fst] in *.
  destruct d as [| d0 d].
  - destruct (Ascii.eqb c Filepath.Separator) eqn:Hc; cbn [fst].
    + right. exists "". apply Ascii.eqb_eq in Hc. subst c. reflexivity.
    + left. reflexivity.
  - cbn [fst]. right. destruct IH as [IH | [q IH]]; [discriminate |].
    exists (String c q). rewrite IH. reflexivity.
Qed.

(** [Clean] keeps a proper last element. *)
Lemma Clean_keeps_last p :
  let n := snd (Filepath.Split p) in
  n <> "" -> n <> "." -> n <> ".." ->
  snd (Filepath.Split (Filepath.Clean p)) = n.
Proof.
  cbv zeta. intros N0 N1 N2.
  pose proof (Split_parts p) as Hp.
  pose proof (Split_snd_no_separator p) as Hs.
  set (n := snd (Filepath.Split p)) in *.
  destruct (Split_fst_shape p) as [Hd | [q Hd]]; rewrite Hd in Hp.
  - change ("" +:+ n) with n in Hp. rewrite Hp at 1.
    rewrite Clean_name by assumption. rewrite Split_no_separator by exact Hs.
    reflexivity.
  - rewrite append_assoc in Hp. rewrite Hp at 1.
    rewrite Clean_snoc_name by assumption.
    apply Split_last; [exact Hs | apply clean_prefix_shape].
Qed.

Lemma length_zero s : String.length s = 0%nat -> s = "".
Proof. destruct s; [reflexivity | discriminate]. Qed.

(** A name with a piece put in is proper when it is without it. *)
Lemma proper_with_piece a m x c :
  m <> "" -> a +:+ c <> "" -> a +:+ c <> "." ->
  let n := a +:+ m +:+ x +:+ c in n <> "" /\ n <> "." /\ n <> "..".
Proof.
  intros Hm H0 H1. cbv zeta.
  destruct m as [| m1 m]; [congruence |].
  assert (Hcases : forall k, (String.length (a +:+ String m1 m +:+ x +:+ c) <= k)%nat ->
            (k <= 2)%nat ->
            m = "" /\ x = ""
            /\ ((a = "" /\ exists c1, c = String c1 "")
                \/ (c = "" /\ exists a1, a = String a1 ""))).
  { intros k Hlen Hk. rewrite !length_append in Hlen. cbn [String.length] in Hlen.
    assert (1 <= String.length a + String.length c)%nat.
    { destruct a; destruct c; cbn [String.length]; try lia.
      exfalso. apply H0. reflexivity. }
    assert (String.length m = 0%nat) by lia.
    assert (String.length x = 0%nat) by lia.
    split; [apply length_zero; assumption |].
    split; [apply length_zero; assumption |].
    destruct a as [| a1 a]; destruct c as [| c1 c]; cbn [String.length] in Hlen.
    - exfalso. apply H0. reflexivity.
    - left. split; [reflexivity |]. exists c1. f_equal. apply length_zero. lia.
    - right. split; [reflexivity |]. exists a1. f_equal. apply length_zero. lia.
    - lia. }
  splits; intros Heq.
  - apply (f_equal String.length) in Heq. rewrite !length_append in Heq.
    cbn [String.length] in Heq. lia.
  - destruct (Hcases 1%nat) as (_ & _ & Hc); [rewrite Heq; cbn; lia | lia |].
    apply (f_equal String.length) in Heq. rewrite !length_append in Heq.
    destruct Hc as [(-> & c1 & ->) | (-> & a1 & ->)]; cbn [String.length] in Heq; lia.
  - destruct (Hcases 2%nat) as (-> & -> & Hc); [rewrite Heq; cbn; lia | lia |].
    destruct Hc as [(-> & c1 & ->) | (-> & a1 & ->)].
    + injection Heq as -> ->. apply H1. reflexivity.
    + injection Heq as -> ->. apply H1. reflexivity.
Qed.

(** The names the daily rule reports: a directory joined with the last
    element of the file name, the delimiter, a run without separator
    and the compression suffix. *)
Lemma Daily_reported_shape (r : DailyRotateRule) w f :
  plain_names r ->
  f ∈ fst (Daily.OutdatedFiles r w) ->
  exists d x,
    f = Filepath.Join d (snd (Filepath.Split (filename r)) +:+ delimiter r +:+ x
                         +:+ (if gzip r then gzipExt else ""))
    /\ contains_char "/" x = false.
Proof.
  intros (Hd & Hm & Hsep & Hb & Hdot) Hin.
  rewrite Daily_OutdatedFiles_eq in Hin.
  destruct (days r <=? 0); [inversion Hin |].
  destruct (fst (filepath_Glob (Daily.pattern r) w)) as [files | e] eqn:Hg;
    [| inversion Hin].
  apply list_elem_of_filter in Hin as [_ Hin].
  set (gz := if gzip r then gzipExt else "").
  assert (Hpat : Daily.pattern r = filename r +:+ delimiter r +:+ "*" +:+ gz).
  { unfold Daily.pattern, gz. destruct (gzip r); reflexivity. }
  assert (Hgz : contains_char "/" gz = false /\ Pattern.hasMeta gz = false)
    by (unfold gz; destruct (gzip r); split; reflexivity).
  assert (Hmeta : Pattern.hasMeta (Daily.pattern r) = true).
  { rewrite Hpat, !hasMeta_app. rewrite !orb_true_iff. right; right; left.
    reflexivity. }
  unfold filepath_Glob in Hg. cbn [fst] in Hg.
  destruct (Glob_results _ _ _ _ Hg Hmeta _ Hin) as (d & n & Hf & Hmatch).
  rewrite Hpat in Hmatch.
  rewrite Split_app_no_separator in Hmatch
    by (rewrite !contains_char_app, Hsep; destruct Hgz as [-> _]; reflexivity).
  cbn [snd] in Hmatch. rewrite <- append_assoc in Hmatch.
  apply Match_star in Hmatch as (x & Hn & Hx).
  - exists d, x. rewrite Hf, Hn, append_assoc. split; [reflexivity | exact Hx].
  - pose proof (Split_parts (filename r)) as Hparts.
    rewrite Hparts, append_assoc, hasMeta_app in Hm.
    apply orb_false_iff in Hm as [_ Hm]. exact Hm.
  - apply Hgz.
Qed.

Lemma Daily_OutdatedFiles_files (r : DailyRotateRule) w :
  files (snd (Daily.OutdatedFiles r w)) = files w.
Proof.
  unfold Daily.OutdatedFiles. destruct (days r <=? 0); [reflexivity |].
  unfold filepath_Glob, Daily.boundaryFile, time_Now, time_Format, emit. mopen.
  destruct (FS.Glob _ _ _); reflexivity.
Qed.

(** X22: under the daily rule with plain names (a delimiter that is
    not empty and has no separator, no pattern character in file name
    or delimiter, a file name that ends in a proper name), the clean-up
    never touches the active file: no reported name is a path to it,
    and whatever calls fail the file is after the clean-up what it was
    before. *)
Theorem Daily_cleanup_keeps_active_file (l : Logger.RotateLogger DailyRotateRule) w :
  plain_names (Logger.rule l) ->
  snd (Filepath.Split (filename (Logger.rule l))) <> ".." ->
  let active := Filepath.Clean (filename (Logger.rule l)) in
  (forall f, f ∈ fst (OutdatedFiles (Logger.rule l) w) -> Filepath.Clean f <> active)
  /\ files (snd (Logger.maybeDeleteOutdatedFiles l w)) !! active = files w !! active.
Proof.
  intros Hplain Hdd active. set (r := Logger.rule l) in *.
  assert (Hno : forall f, f ∈ fst (OutdatedFiles r w) -> Filepath.Clean f <> active).
  { intros f Hin Heq.
    destruct (Daily_reported_shape r w f Hplain Hin) as (d & x & Hf & Hx).
    destruct Hplain as (Hd & Hm & Hsep & Hb & Hdot).
    pose proof (Split_snd_no_separator (filename r)) as Hbsep.
    set (b0 := snd (Filepath.Split (filename r))) in *.
    set (rest := x +:+ (if gzip r then gzipExt else "")) in *.
    destruct (proper_name_with_delimiter b0 (delimiter r) rest Hb Hdot Hd)
      as (N0 & N1 & N2).
    assert (Hnsep : contains_char "/" (b0 +:+ delimiter r +:+ rest) = false).
    { unfold rest. rewrite !contains_char_app, Hbsep, Hsep, Hx.
      destruct (gzip r); reflexivity. }
    pose proof (Join_last_element d _ Hnsep N0 N1 N2) as Hlast.
    rewrite <- Hf in Hlast.
    pose proof (Clean_keeps_last f) as Hcf. cbv zeta in Hcf.
    rewrite Hlast in Hcf. specialize (Hcf N0 N1 N2).
    pose proof (Clean_keeps_last (filename r) Hb Hdot Hdd) as Hca.
    fold active in Hca. rewrite Heq, Hca in Hcf. fold b0 in Hcf.
    apply (f_equal String.length) in Hcf. rewrite !length_append in Hcf.
    destruct (delimiter r); [congruence | cbn in Hcf; lia]. }
  split; [exact Hno |].
  rewrite (cleanup_keeps_others l w active).
  - apply (f_equal (fun m => m !! active)). apply Daily_OutdatedFiles_files.
  - intros Hin. apply list_elem_of_fmap in Hin as (f & Hf & Hin).
    exact (Hno f Hin (eq_sym Hf)).
Qed.

End ActiveFile.
Section ActiveFileSize.

Import GoStrings StrOrder PathFacts.

(** The parts [parseFilename] gives for a file name that ends in a
    name: prefix and extension make up the last element. *)
Lemma parseFilename_parts (r : SizeLimitRotateRule) :
  snd (Filepath.Split (filename r)) <> "" ->
  let '(dir, _, ext, prefix) := SizeLimit.parseFilename r (filename r) in
  prefix +:+ ext = snd (Filepath.Split (filename r))
  /\ dir = Filepath.Dir (filename r).
Proof.
  intros Hb. unfold SizeLimit.parseFilename. cbv zeta. split; [| reflexivity].
  rewrite Base_prefix_ext. unfold Filepath.Base.
  destruct (String.eqb (filename r) "") eqn:He.
  - apply String.eqb_eq in He. rewrite He in Hb. exfalso. apply Hb. reflexivity.
  - rewrite BaseFacts.strip_trailing_id by exact Hb.
    apply String.eqb_neq in Hb. rewrite Hb. reflexivity.
Qed.

Lemma SizeLimit_pattern_eq (r : SizeLimitRotateRule) :
  let '(dir, _, ext, prefix) := SizeLimit.parseFilename r (filename r) in
  SizeLimit.pattern r
  = (dir +:+ "/") +:+ (prefix +:+ delimiter r) +:+ "*"
    +:+ (ext +:+ (if gzip r then gzipExt else "")).
Proof.
  unfold SizeLimit.pattern.
  destruct (SizeLimit.parseFilename r (filename r)) as [[[dir lg] ext] prefix].
  destruct (gzip r); rewrite ?append_nil_r, !append_assoc; reflexivity.
Qed.

Lemma SizeLimit_OutdatedFiles_files (r : SizeLimitRotateRule) w :
  files (snd (SizeLimit.OutdatedFiles r w)) = files w.
Proof.
  unfold SizeLimit.OutdatedFiles, filepath_Glob, SizeLimit.boundaryFile, time_Now,
    time_Format, emit. mopen.
  destruct (SizeLimit.parseFilename r (filename r)) as [[[dir lg] ext] prefix].
  destruct (FS.Glob _ _ _); reflexivity.
Qed.

(** What the size rule reports is among the names the pattern lists. *)
Lemma SizeLimit_reported_listed (r : SizeLimitRotateRule) w f :
  f ∈ fst (SizeLimit.OutdatedFiles r w) ->
  exists files, fst (filepath_Glob (SizeLimit.pattern r) w) = inl files /\ f ∈ files.
Proof.
  intros Hin.
  destruct (fst (filepath_Glob (SizeLimit.pattern r) w)) as [files | e] eqn:Hg.
  - exists files. split; [reflexivity |].
    apply (SizeLimit_OutdatedFiles_mem r w files Hg) in Hin.
    rewrite <- (sortStrings_perm files).
    destruct Hin as [Hin | (_ & Hin & _)].
    + exact (elem_of_sublist _ _ _ Hin (sublist_take _ _)).
    + exact (elem_of_sublist _ _ _ Hin (sublist_drop _ _)).
  - exfalso. revert Hin. unfold SizeLimit.OutdatedFiles. mopen.
    unfold filepath_Glob in *. cbn [fst] in Hg. rewrite Hg.
    unfold emit. cbn [fst]. apply not_elem_of_nil.
Qed.

(** The names the size rule reports: a directory joined with prefix,
    delimiter, a run without separator, extension and compression
    suffix. *)
Lemma SizeLimit_reported_shape (r : SizeLimitRotateRule) w f :
  plain_names r ->
  f ∈ fst (SizeLimit.OutdatedFiles r w) ->
  let '(_, _, ext, prefix) := SizeLimit.parseFilename r (filename r) in
  exists d x,
    f = Filepath.Join d (prefix +:+ delimiter r +:+ x
                         +:+ ext +:+ (if gzip r then gzipExt else ""))
    /\ contains_char "/" x = false.
Proof.
  intros (Hd & Hm & Hsep & Hb & Hdot) Hin.
  apply SizeLimit_reported_listed in Hin as (files & Hg & Hin).
  pose proof (parseFilename_parts r Hb) as Hparts.
  pose proof (SizeLimit_pattern_eq r) as Hpat.
  destruct (SizeLimit.parseFilename r (filename r)) as [[[dir lg] ext] prefix].
  destruct Hparts as [Hpe _].
  set (gz := if gzip r then gzipExt else "") in *.
  assert (Hgz : contains_char "/" gz = false /\ Pattern.hasMeta gz = false)
    by (unfold gz; destruct (gzip r); split; reflexivity).
  pose proof (Split_snd_no_separator (filename r)) as Hbsep.
  rewrite <- Hpe, contains_char_app in Hbsep.
  apply orb_false_iff in Hbsep as [Hpsep Hesep].
  assert (Hbm : Pattern.hasMeta prefix = false /\ Pattern.hasMeta ext = false
                /\ Pattern.hasMeta (delimiter r) = false).
  { pose proof (Split_parts (filename r)) as Hsp.
    rewrite Hsp, <- Hpe, !hasMeta_app, !orb_false_iff in Hm. tauto. }
  destruct Hbm as (Hpm & Hem & Hdm).
  assert (Hmeta : Pattern.hasMeta (SizeLimit.pattern r) = true).
  { rewrite Hpat, !hasMeta_app. rewrite !orb_true_iff. right; right; left.
    reflexivity. }
  unfold filepath_Glob in Hg. cbn [fst] in Hg.
  destruct (Glob_results _ _ _ _ Hg Hmeta _ Hin) as (d & n & Hf & Hmatch).
  rewrite Hpat in Hmatch.
  rewrite Split_app_no_separator in Hmatch
    by (rewrite !contains_char_app, Hpsep, Hsep, Hesep; destruct Hgz as [-> _];
        reflexivity).
  rewrite Split_separator_end in Hmatch. cbn [snd] in Hmatch.
  change ("" +:+ ?s) with s in Hmatch.
  apply Match_star in Hmatch as (x & Hn & Hx).
  - exists d, x. rewrite Hf, Hn, !append_assoc. split; [reflexivity | exact Hx].
  - rewrite hasMeta_app, Hpm, Hdm. reflexivity.
  - rewrite hasMeta_app, Hem. apply Hgz.
Qed.

(** X23: under the size rule with plain names the clean-up never
    touches the active file either: no reported name is a path to it,
    and whatever calls fail the file is after the clean-up what it was
    before. *)
Theorem SizeLimit_cleanup_keeps_active_file
    (l : Logger.RotateLogger SizeLimitRotateRule) w :
  plain_names (Logger.rule l) ->
  snd (Filepath.Split (filename (Logger.rule l))) <> ".." ->
  let active := Filepath.Clean (filename (Logger.rule l)) in
  (forall f, f ∈ fst (OutdatedFiles (Logger.rule l) w) -> Filepath.Clean f <> active)
  /\ files (snd (Logger.maybeDeleteOutdatedFiles l w)) !! active = files w !! active.
Proof.
  intros Hplain Hdd active. set (r := Logger.rule l) in *.
  assert (Hno : forall f, f ∈ fst (OutdatedFiles r w) -> Filepath.Clean f <> active).
  { intros f Hin Heq.
    pose proof (SizeLimit_reported_shape r w f Hplain Hin) as Hshape.
    destruct Hplain as (Hd & Hm & Hsep & Hb & Hdot).
    pose proof (parseFilename_parts r Hb) as Hparts.
    destruct (SizeLimit.parseFilename r (filename r)) as [[[dir lg] ext] prefix].
    destruct Hparts as [Hpe _].
    destruct Hshape as (d & x & Hf & Hx).
    pose proof (Split_snd_no_separator (filename r)) as Hbsep.
    set (b0 := snd (Filepath.Split (filename r))) in *.
    set (gz := if gzip r then gzipExt else "") in *.
    assert (Hgz : contains_char "/" gz = false
                  /\ (gz = "" \/ (3 <= String.length gz)%nat))
      by (unfold gz; destruct (gzip r); split;
          first [reflexivity | left; reflexivity | right; cbn; lia]).
    assert (Hc0 : prefix +:+ ext +:+ gz <> "" /\ prefix +:+ ext +:+ gz <> ".").
    { destruct Hgz as [_ [-> | Hlen]].
      - rewrite append_nil_r, Hpe. split; assumption.
      - split; intros Hc; apply (f_equal String.length) in Hc;
          rewrite !length_append in Hc; cbn in Hc; lia. }
    destruct (proper_with_piece prefix (delimiter r) x (ext +:+ gz) Hd
                (proj1 Hc0) (proj2 Hc0)) as (N0 & N1 & N2).
    assert (Hnsep : contains_char "/" (prefix +:+ delimiter r +:+ x +:+ ext +:+ gz)
                    = false).
    { rewrite <- Hpe, contains_char_app in Hbsep.
      apply orb_false_iff in Hbsep as [Hpsep Hesep].
      rewrite !contains_char_app, Hpsep, Hsep, Hx, Hesep.
      destruct Hgz as [-> _]. reflexivity. }
    pose proof (Join_last_element d _ Hnsep N0 N1 N2) as Hlast.
    rewrite <- Hf in Hlast.
    pose proof (Clean_keeps_last f) as Hcf. cbv zeta in Hcf.
    rewrite Hlast in Hcf. specialize (Hcf N0 N1 N2).
    pose proof (Clean_keeps_last (filename r) Hb Hdot Hdd) as Hca.
    fold active in Hca. rewrite Heq, Hca in Hcf. fold b0 in Hcf.
    rewrite <- Hpe in Hcf.
    apply (f_equal String.length) in Hcf. rewrite !length_append in Hcf.
    destruct (delimiter r); [congruence | cbn in Hcf; lia]. }
  split; [exact Hno |].
  rewrite (cleanup_keeps_others l w active).
  - apply (f_equal (fun m => m !! active)). apply SizeLimit_OutdatedFiles_files.
  - intros Hin. apply list_elem_of_fmap in Hin as (f & Hf & Hin).
    exact (Hno f Hin (eq_sym Hf)).
Qed.

End ActiveFileSize.

Lemma three_days_plain : plain_names (three_days "-").
Proof.
  unfold plain_names. splits;
    first [discriminate | vm_compute; reflexivity | vm_compute; discriminate].
Qed.

Lemma keep_two_plain : plain_names (keep_two 0).
Proof.
  unfold plain_names. splits;
    first [discriminate | vm_compute; reflexivity | vm_compute; discriminate].
Qed.

Lemma Daily_cleanup_keeps_active_file_witness :
  let l := daily_logger in
  let w := daily_world in
  let active := Filepath.Clean (filename (Logger.rule l)) in
  (forall f, f ∈ fst (OutdatedFiles (Logger.rule l) w) -> Filepath.Clean f <> active)
  /\ files (snd (Logger.maybeDeleteOutdatedFiles l w)) !! active = files w !! active.
Proof.
  apply (Daily_cleanup_keeps_active_file daily_logger daily_world).
  - exact three_days_plain.
  - vm_compute. discriminate.
Defined.

Lemma SizeLimit_cleanup_keeps_active_file_witness :
  let l := cleaning_logger in
  let w := five_backups_world in
  let active := Filepath.Clean (filename (Logger.rule l)) in
  (forall f, f ∈ fst (OutdatedFiles (Logger.rule l) w) -> Filepath.Clean f <> active)
  /\ files (snd (Logger.maybeDeleteOutdatedFiles l w)) !! active = files w !! active.
Proof.
  apply (SizeLimit_cleanup_keeps_active_file cleaning_logger five_backups_world).
  - exact keep_two_plain.
  - vm_compute. discriminate.
Defined.

(** ** Compressed backups only, under a rule set to gzip *)

Section Compressed.

Import GoStrings StrOrder PathFacts.

Lemma Join_ends_with_name d n :
  contains_char "/" n = false -> n <> "" -> n <> "." -> n <> ".." ->
  exists q, Filepath.Join d n = q +:+ n.
Proof.
  intros Hs N0 N1 N2. destruct (string_dec d "") as [-> | Hd].
  - exists "". unfold Filepath.Join. cbn [String.eqb negb].
    apply String.eqb_neq in N0. rewrite N0. cbn [negb].
    apply Clean_name; try assumption. apply String.eqb_neq. exact N0.
  - eexists. apply Join_name; assumption.
Qed.

(** X24: a rule with [gzip] set lists and reports compressed backups
    only: with plain names, every name that [OutdatedFiles] of the
    daily rule or of the size rule returns ends in [.gz], so a backup
    left uncompressed is never cleaned up. *)
Theorem gzip_rule_reports_compressed_only (r : SizeLimitRotateRule) :
  plain_names r -> gzip r = true ->
  (forall w f, f ∈ fst (Daily.OutdatedFiles r w) -> has_suffix gzipExt f)
  /\ (forall w f, f ∈ fst (SizeLimit.OutdatedFiles r w) -> has_suffix gzipExt f).
Proof.
  intros Hplain Hgz.
  assert (Hend : forall d n, contains_char "/" n = false ->
            has_suffix gzipExt (Filepath.Join d (n +:+ gzipExt))).
  { intros d n Hn.
    assert (Hlen : (3 <= String.length (n +:+ gzipExt))%nat)
      by (rewrite length_append; cbn; lia).
    destruct (long_name_proper _ Hlen) as (N0 & N1 & N2).
    destruct (Join_ends_with_name d (n +:+ gzipExt)) as [q Hq]; try assumption.
    - rewrite contains_char_app, Hn. reflexivity.
    - exists (q +:+ n). rewrite Hq, append_assoc. reflexivity. }
  split; intros w f Hin.
  - destruct (Daily_reported_shape r w f Hplain Hin) as (d & x & -> & Hx).
    rewrite Hgz.
    replace (snd (Filepath.Split (filename r)) +:+ delimiter r +:+ x +:+ gzipExt)
      with ((snd (Filepath.Split (filename r)) +:+ delimiter r +:+ x) +:+ gzipExt)
      by (rewrite !append_assoc; reflexivity).
    apply Hend. destruct Hplain as (_ & _ & Hsep & _).
    rewrite !contains_char_app, Split_snd_no_separator, Hsep, Hx. reflexivity.
  - pose proof (SizeLimit_reported_shape r w f Hplain Hin) as Hshape.
    destruct Hplain as (_ & _ & Hsep & Hb & _).
    pose proof (parseFilename_parts r Hb) as Hparts.
    destruct (SizeLimit.parseFilename r (filename r)) as [[[dir lg] ext] prefix].
    destruct Hparts as [Hpe _].
    destruct Hshape as (d & x & -> & Hx). rewrite Hgz.
    replace (prefix +:+ delimiter r +:+ x +:+ ext +:+ gzipExt)
      with ((prefix +:+ delimiter r +:+ x +:+ ext) +:+ gzipExt)
      by (rewrite !append_assoc; reflexivity).
    apply Hend.
    pose proof (Split_snd_no_separator (filename r)) as Hbsep.
    rewrite <- Hpe, contains_char_app in Hbsep.
    apply orb_false_iff in Hbsep as [Hpsep Hesep].
    rewrite !contains_char_app, Hpsep, Hsep, Hx, Hesep. reflexivity.
Qed.

End Compressed.

Lemma gzip_rule_reports_compressed_only_witness :
  let r := mkSizeLimit (mkDaily "" "app.log" "-" 3 true) 1 2 in
  (forall w f, f ∈ fst (Daily.OutdatedFiles r w) -> has_suffix gzipExt f)
  /\ (forall w f, f ∈ fst (SizeLimit.OutdatedFiles r w) -> has_suffix gzipExt f).
Proof.
  apply (gzip_rule_reports_compressed_only
           (mkSizeLimit (mkDaily "" "app.log" "-" 3 true) 1 2)).
  - unfold plain_names. splits;
      first [discriminate | vm_compute; reflexivity | vm_compute; discriminate].
  - reflexivity.
Defined.
(** ** A day's records end up under that day's name *)

(** X25: a logger made by [NewLogger] under a fresh daily rule, when
    every call succeeds, rolls over at the first record of another
    local day: what the file holds then is moved to the name that
    carries the date of the day the logger was made, the file holds the
    record alone, the counter is its length, and marker and cached
    backup name are those of the new day. *)
Theorem daily_rollover fn delim n gz cp w0 w1 c v :
  faults w0 = [] -> faults w1 = [] ->
  four_digit_year (zone w0) (now w0) -> four_digit_year (zone w1) (now w1) ->
  local_day (zone w1) (now w1) <> local_day (zone w0) (now w0) ->
  files w1 !! Filepath.Clean fn = Some c ->
  blen v <= GoInt.max_int ->
  let made := date_string (local_day (zone w0) (now w0)) in
  let today := date_string (local_day (zone w1) (now w1)) in
  Filepath.Clean (fn +:+ delim +:+ made) <> Filepath.Clean fn ->
  let r := fst (Daily.DefaultRotateRule fn delim n gz w0) in
  let '(res, _, _) := Logger.NewLogger fn r cp w0 in
  exists l, res = Some l
    /\ let '(l2, w2) := Logger.write v l w1 in
       files w2 !! Filepath.Clean (fn +:+ delim +:+ made) = Some c
       /\ files w2 !! Filepath.Clean fn = Some v
       /\ Logger.currentSize l2 = blen v
       /\ rotatedTime (Logger.rule l2) = today
       /\ Logger.backup l2 = fn +:+ delim +:+ today.
Proof.
  intros Hq0 Hq1 Hy0 Hy1 Hday Hc Hv made today Hne r.
  assert (Hr : r = mkDaily made fn delim n gz).
  { unfold r, Daily.DefaultRotateRule. mopen. rewrite getNowDate_eq. reflexivity. }
  set (l := Logger.mkLogger fn (fst (BackupFileName r w0)) (Some fn) [] false r cp
              1 false 0).
  assert (Hnew : exists w', Logger.NewLogger fn r cp w0 = (Some l, None, w')).
  { rewrite (NewLogger_quiet fn r cp w0 Hq0). cbv zeta.
    destruct (FS.exists_path (files w0) fn); eexists; reflexivity. }
  destruct Hnew as [w' ->]. exists l. split; [reflexivity |].
  assert (Hb : Logger.backup l = fn +:+ delim +:+ made).
  { unfold l. cbn [Logger.backup BackupFileName DailyRotateRule_rule].
    rewrite Daily_BackupFileName_eq, Hr. reflexivity. }
  assert (Hs : fst (ShallRotate (Logger.rule l) (Logger.currentSize l) (blen v) w1)
               = true).
  { unfold l. cbn [Logger.rule Logger.currentSize ShallRotate DailyRotateRule_rule].
    unfold Daily.ShallRotate. mopen. rewrite getNowDate_eq, Hr.
    cbn [fst rotatedTime].
    replace (0 <? len made) with true
      by (symmetry; apply len_pos_iff, date_string_nonempty).
    cbn [andb]. apply negb_true_iff, String.eqb_neq. intros Heq.
    apply Hday. apply date_string_inj; assumption. }
  assert (Hlen : (0 <? len (Logger.backup l)) = true).
  { apply len_pos_iff. rewrite Hb. intros Heq.
    apply (f_equal String.length) in Heq. rewrite !StrOrder.length_append in Heq.
    pose proof (date_string_nonempty (local_day (zone w0) (now w0))) as Hd.
    fold made in Hd. destruct made; [congruence | cbn in Heq; lia]. }
  unfold Logger.write. mopen. rewrite rule_ShallRotate_spec. cbv zeta.
  rewrite Hs. cbv beta iota zeta.
  set (w1' := set_trace _ w1).
  destruct (rotate_quiet l w1' c Hq1 Hc)
    as (b & mid & -> & _ & w3 & Hn3 & Hz3 & Hb3).
  cbv beta iota zeta. rewrite rule_MarkRotated_spec. cbv beta iota zeta.
  cbn [Logger.fp Logger.set_currentSize Logger.set_rule Logger.set_fp
       Logger.currentSize].
  rewrite file_Write_quiet by exact Hq1. cbv beta iota zeta.
  cbn [Logger.filename Logger.fp Logger.currentSize Logger.set_currentSize
       Logger.set_rule Logger.set_fp Logger.set_backup Logger.backup Logger.rule
       files faults set_files set_trace].
  unfold rotated_files. rewrite Hlen, Hb.
  change (Logger.filename l) with fn. splits.
  - rewrite lookup_alter_ne by congruence.
    rewrite lookup_insert_ne by congruence. apply lookup_insert_eq.
  - rewrite lookup_alter_eq, lookup_insert_eq. reflexivity.
  - apply add_exact; [lia | apply blen_nonneg | lia].
  - cbn [MarkRotated DailyRotateRule_rule]. unfold Daily.MarkRotated. mopen.
    rewrite getNowDate_eq. reflexivity.
  - rewrite Hb3. unfold l. cbn [Logger.rule BackupFileName DailyRotateRule_rule].
    rewrite Daily_BackupFileName_eq, Hr, Hn3, Hz3. reflexivity.
Qed.

Lemma daily_rollover_witness :
  let w0 := four_days_before in
  let w1 := next_day_world in
  let made := date_string (local_day (zone w0) (now w0)) in
  let today := date_string (local_day (zone w1) (now w1)) in
  let r := fst (Daily.DefaultRotateRule "app.log" "-" 3 false w0) in
  let '(res, _, _) := Logger.NewLogger "app.log" r false w0 in
  exists l, res = Some l
    /\ let '(l2, w2) := Logger.write [Byte.x62] l w1 in
       files w2 !! Filepath.Clean ("app.log" +:+ "-" +:+ made) = Some [Byte.x61]
       /\ files w2 !! Filepath.Clean "app.log" = Some [Byte.x62]
       /\ Logger.currentSize l2 = blen [Byte.x62]
       /\ rotatedTime (Logger.rule l2) = today
       /\ Logger.backup l2 = "app.log" +:+ "-" +:+ today.
Proof.
  apply (daily_rollover "app.log" "-" 3 false false four_days_before next_day_world
           [Byte.x61] [Byte.x62]).
  - reflexivity.
  - reflexivity.
  - unfold four_digit_year. vm_compute. split; discriminate.
  - unfold four_digit_year. vm_compute. split; discriminate.
  - vm_compute. discriminate.
  - vm_compute. reflexivity.
  - vm_compute. discriminate.
  - vm_compute. discriminate.
Defined.
(** ** The names the rules give are the names their clean-up lists *)

Section NamesMatch.

Import GoStrings StrOrder PathFacts.

Lemma matches_literal_app s ts rest :
  Pattern.matches (literal_terms s ++ ts) (s +:+ rest) = Pattern.matches ts rest.
Proof.
  induction s as [| c s IH]; [reflexivity |].
  change (String c s +:+ rest) with (String c (s +:+ rest)).
  cbn [literal_terms app Pattern.matches]. rewrite Ascii.eqb_refl, IH. reflexivity.
Qed.

Lemma star_intro k a b :
  contains_char "/" a = false -> k b = true -> Pattern.star k (a +:+ b) = true.
Proof.
  intros Ha Hb. induction a as [| c a IH].
  - change ("" +:+ b) with b. destruct b; cbn [Pattern.star]; rewrite Hb; reflexivity.
  - cbn [contains_char] in Ha. apply orb_false_iff in Ha as [Hc Ha].
    change (String c a +:+ b) with (String c (a +:+ b)).
    cbn [Pattern.star]. unfold Filepath.Separator. rewrite Hc, (IH Ha).
    apply orb_true_r.
Qed.

(** Such a pattern matches the two literals with a run without
    separator between them. *)
Lemma Match_star_intro lit sfx x :
  Pattern.hasMeta lit = false -> Pattern.hasMeta sfx = false ->
  contains_char "/" x = false ->
  Pattern.Match (lit +:+ "*" +:+ sfx) (lit +:+ x +:+ sfx) = Some true.
Proof.
  intros Hl Hs Hx. unfold Pattern.Match.
  rewrite parse_star_pattern by assumption.
  cbn [mbind option_bind]. f_equal.
  rewrite matches_literal_app. cbn [Pattern.matches].
  apply star_intro; [exact Hx |].
  rewrite <- (append_nil_r sfx) at 2. rewrite <- (app_nil_r (literal_terms sfx)).
  rewrite matches_literal_app. reflexivity.
Qed.

Lemma date_string_no_separator d : contains_char "/" (date_string d) = false.
Proof.
  unfold date_string. destruct (GoTime.year_yday d) as [y yd].
  destruct (GoTime.month_day y yd) as [m dd].
  rewrite !contains_char_app, !StampFacts.appendInt_no_separator. reflexivity.
Qed.

(** X26: the rules name their backups as their clean-up lists them.
    With plain names, the last element of the name [BackupFileName]
    gives, followed by [.gz] when the rule is set to gzip, matches the
    last element of the pattern of [OutdatedFiles], under the daily
    rule and (for times of four-digit years) under the size rule. *)
Theorem backup_names_match_pattern (r : SizeLimitRotateRule) w :
  plain_names r ->
  0 <= day_year ((GoTime.abs_seconds (zone w) (now w) - 86100) / 86400) <= 9999 ->
  let gz := if gzip r then gzipExt else "" in
  let last p := snd (Filepath.Split p) in
  Pattern.Match (last (Daily.pattern r))
    (last (fst (Daily.BackupFileName r w) +:+ gz)) = Some true
  /\ Pattern.Match (last (SizeLimit.pattern r))
       (last (fst (SizeLimit.BackupFileName r w) +:+ gz)) = Some true.
Proof.
  intros (Hd & Hm & Hsep & Hb & Hdot) Hy gz last.
  assert (Hgz : contains_char "/" gz = false /\ Pattern.hasMeta gz = false)
    by (unfold gz; destruct (gzip r); split; reflexivity).
  destruct Hgz as [Hgs Hgm].
  pose proof (Split_parts (filename r)) as Hparts.
  pose proof (Split_snd_no_separator (filename r)) as Hbsep.
  set (b0 := snd (Filepath.Split (filename r))) in *.
  assert (Hbm : Pattern.hasMeta b0 = false /\ Pattern.hasMeta (delimiter r) = false).
  { rewrite Hparts, !hasMeta_app, !orb_false_iff in Hm. tauto. }
  destruct Hbm as [Hbm Hdm].
  split.
  - assert (Hpat : Daily.pattern r = filename r +:+ delimiter r +:+ "*" +:+ gz)
      by (unfold Daily.pattern, gz; destruct (gzip r); reflexivity).
    unfold last. rewrite Hpat, Daily_BackupFileName_eq.
    rewrite Split_app_no_separator
      by (rewrite !contains_char_app, Hsep, Hgs; reflexivity).
    rewrite !append_assoc.
    rewrite (Split_app_no_separator (filename r))
      by (rewrite !contains_char_app, Hsep, date_string_no_separator, Hgs;
          reflexivity).
    cbn [snd]. fold b0.
    rewrite <- (append_assoc b0 (delimiter r) ("*" +:+ gz)).
    rewrite <- (append_assoc b0 (delimiter r) (date_string _ +:+ gz)).
    apply Match_star_intro; try assumption.
    + rewrite hasMeta_app, Hbm, Hdm. reflexivity.
    + apply date_string_no_separator.
  - pose proof (parseFilename_parts r Hb) as Hpp.
    pose proof (SizeLimit_pattern_eq r) as Hpat.
    unfold SizeLimit.BackupFileName.
    destruct (SizeLimit.parseFilename r (filename r)) as [[[dir lg] ext] prefix].
    destruct Hpp as [Hpe Hdir]. fold b0 in Hpe. fold gz in Hpat.
    mopen. rewrite StampFacts.getNowDateInRFC3339Format_eq. cbn [fst].
    set (stamp := stamp_string (zone w) (GoTime.abs_seconds (zone w) (now w) - 86100)).
    assert (Hps : contains_char "/" prefix = false /\ contains_char "/" ext = false).
    { rewrite <- Hpe, contains_char_app in Hbsep.
      apply orb_false_iff in Hbsep. exact Hbsep. }
    destruct Hps as [Hpsep Hesep].
    assert (Hpm : Pattern.hasMeta prefix = false /\ Pattern.hasMeta ext = false).
    { rewrite <- Hpe, hasMeta_app in Hbm. apply orb_false_iff in Hbm. exact Hbm. }
    destruct Hpm as [Hpm Hem].
    set (n := prefix +:+ delimiter r +:+ stamp +:+ ext).
    assert (Hnsep : contains_char "/" n = false).
    { unfold n, stamp. rewrite !contains_char_app, Hpsep, Hsep, Hesep,
        StampFacts.stamp_string_no_separator. reflexivity. }
    assert (Hlen : (3 <= String.length n)%nat).
    { unfold n, stamp. rewrite !length_append, StampFacts.stamp_string_length
        by exact Hy. lia. }
    destruct (long_name_proper _ Hlen) as (N0 & N1 & N2).
    unfold last. rewrite Hpat.
    rewrite (Split_app_no_separator (Filepath.Join _ n) gz Hgs).
    rewrite (Join_last_element _ n Hnsep N0 N1 N2). cbn [snd].
    rewrite (Split_app_no_separator (dir +:+ "/"))
      by (rewrite !contains_char_app, Hpsep, Hsep, Hesep, Hgs; reflexivity).
    rewrite Split_separator_end. cbn [snd]. change ("" +:+ ?s) with s.
    unfold n. rewrite !append_assoc.
    rewrite <- (append_assoc prefix (delimiter r) ("*" +:+ ext +:+ gz)).
    rewrite <- (append_assoc prefix (delimiter r) (stamp +:+ ext +:+ gz)).
    apply Match_star_intro.
    + rewrite hasMeta_app, Hpm, Hdm. reflexivity.
    + rewrite hasMeta_app, Hem, Hgm. reflexivity.
    + apply StampFacts.stamp_string_no_separator.
Qed.

End NamesMatch.

Lemma backup_names_match_pattern_witness :
  let r := keep_two 0 in
  let w := quiet_world in
  let gz := if gzip r then gzipExt else "" in
  let last p := snd (Filepath.Split p) in
  Pattern.Match (last (Daily.pattern r))
    (last (fst (Daily.BackupFileName r w) +:+ gz)) = Some true
  /\ Pattern.Match (last (SizeLimit.pattern r))
       (last (fst (SizeLimit.BackupFileName r w) +:+ gz)) = Some true.
Proof.
  apply (backup_names_match_pattern (keep_two 0) quiet_world).
  - exact keep_two_plain.
  - vm_compute. split; discriminate.
Defined.
(** ** The extension of a backup under the size rule *)

Section Extension.

Import GoStrings StrOrder PathFacts.

Lemma Ext_no_dot s : contains_char "." s = false -> Filepath.Ext s = "".
Proof.
  induction s as [| c s IH]; [reflexivity |].
  cbn [contains_char Filepath.Ext]. intros Hc.
  apply orb_false_iff in Hc as [Hc Hs]. rewrite (IH Hs), Hc. reflexivity.
Qed.

(** The extension begins with the last dot of the last element. *)
Lemma Ext_app q rest :
  contains_char "." rest = false -> contains_char "/" rest = false ->
  Filepath.Ext (q +:+ String "." rest) = String "." rest.
Proof.
  intros Hd Hs. induction q as [| c q IH].
  - change ("" +:+ String "." rest) with (String "." rest).
    cbn [Filepath.Ext]. rewrite (Ext_no_dot rest Hd).
    unfold Filepath.Separator. rewrite Hs. reflexivity.
  - change (String c q +:+ String "." rest) with (String c (q +:+ String "." rest)).
    cbn [Filepath.Ext]. rewrite IH. reflexivity.
Qed.

Lemma Ext_empty_no_dot s :
  Filepath.Ext s = "" -> contains_char "/" s = false -> contains_char "." s = false.
Proof.
  induction s as [| c s IH]; [reflexivity |].
  cbn [contains_char Filepath.Ext]. intros He Hs.
  apply orb_false_iff in Hs as [Hc Hs].
  destruct (Filepath.Ext s) eqn:Hes; [| discriminate].
  unfold Filepath.Separator in He. rewrite Hs in He. cbn [negb] in He.
  rewrite andb_true_r in He.
  destruct (Ascii.eqb c ".") eqn:Hdot; [discriminate |].
  rewrite (IH eq_refl Hs). reflexivity.
Qed.

Lemma Ext_shape p :
  Filepath.Ext p = ""
  \/ exists rest, Filepath.Ext p = String "." rest
                  /\ contains_char "." rest = false
                  /\ contains_char "/" rest = false.
Proof.
  induction p as [| c p IH]; [left; reflexivity |].
  cbn [Filepath.Ext].
  destruct (Filepath.Ext p) as [| e0 e] eqn:He.
  - destruct (Ascii.eqb c "." && negb (contains_char Filepath.Separator p)) eqn:Hdot;
      [| left; reflexivity].
    apply andb_true_iff in Hdot as [Hc Hs]. apply negb_true_iff in Hs.
    apply Ascii.eqb_eq in Hc. subst c. right. exists p.
    splits; [reflexivity | | exact Hs].
    apply Ext_empty_no_dot; assumption.
  - right. destruct IH as [IH | IH]; [discriminate | exact IH].
Qed.

(** X27: under the size rule a backup keeps the extension of the file:
    when the file name has an extension and no part of the name holds
    a separator, the name [BackupFileName] gives (for times of
    four-digit years) has that same extension. *)
Theorem SizeLimit_backup_keeps_extension (r : SizeLimitRotateRule) w :
  (let '(_, _, ext, prefix) := SizeLimit.parseFilename r (filename r) in
   contains_char "/" (prefix +:+ delimiter r +:+ ext) = false) ->
  0 <= day_year ((GoTime.abs_seconds (zone w) (now w) - 86100) / 86400) <= 9999 ->
  Filepath.Ext (filename r) <> "" ->
  Filepath.Ext (fst (SizeLimit.BackupFileName r w)) = Filepath.Ext (filename r).
Proof.
  intros Hsep Hy Hext. unfold SizeLimit.BackupFileName.
  unfold SizeLimit.parseFilename in *. cbv zeta in *.
  mopen. rewrite StampFacts.getNowDateInRFC3339Format_eq. cbn [fst].
  assert (Hdir : Filepath.Dir (filename r) <> "") by apply Clean_nonempty.
  rewrite SizeLimit_name_shape by assumption.
  destruct (Ext_shape (filename r)) as [He | (rest & He & Hd & Hs)]; [congruence |].
  rewrite He.
  rewrite <- !append_assoc. apply Ext_app; assumption.
Qed.

End Extension.

Lemma SizeLimit_backup_keeps_extension_witness :
  Filepath.Ext (fst (SizeLimit.BackupFileName (name_rule false) quiet_world))
  = Filepath.Ext (filename (name_rule false)).
Proof.
  apply (SizeLimit_backup_keeps_extension (name_rule false) quiet_world).
  - vm_compute. reflexivity.
  - vm_compute. split; discriminate.
  - vm_compute. discriminate.
Defined.
(** ** The listing of the daily backups *)

Section Listing.

Import GoStrings StrOrder PathFacts.

Lemma append_inv_r c : forall a b, a +:+ c = b +:+ c -> a = b.
Proof.
  induction a as [| x a IH]; intros [| y b] Heq.
  - reflexivity.
  - exfalso. apply (f_equal String.length) in Heq.
    rewrite !length_append in Heq. cbn [String.length] in Heq. lia.
  - exfalso. apply (f_equal String.length) in Heq.
    rewrite !length_append in Heq. cbn [String.length] in Heq. lia.
  - change (String x (a +:+ c) = String y (b +:+ c)) in Heq.
    injection Heq as -> Heq. f_equal. exact (IH b Heq).
Qed.

(** The directory [Glob] reads for a pattern whose directory part is
    [q/]. *)
Lemma cleanGlobPath_dir q :
  FS.cleanGlobPath (q +:+ "/") = if String.eqb q "" then "/" else q.
Proof.
  destruct q as [| c q]; [reflexivity |].
  unfold FS.cleanGlobPath.
  assert (H0 : String.eqb (String c q +:+ "/") "" = false) by reflexivity.
  assert (H1 : String.eqb (String c q +:+ "/") "/" = false).
  { apply String.eqb_neq. intros Heq. apply (f_equal String.length) in Heq.
    rewrite length_append in Heq. cbn [String.length] in Heq. lia. }
  rewrite H0, H1. cbn [String.eqb].
  replace (String.length (String c q +:+ "/") - 1)%nat
    with (String.length (String c q))
    by (rewrite length_append; cbn [String.length]; lia).
  apply take_app_length.
Qed.

(** A separator at the end of a path makes no difference to [Clean]. *)
Lemma Clean_trailing_separator q :
  q <> "" -> Filepath.Clean (q +:+ "/") = Filepath.Clean q.
Proof.
  intros Hq. unfold Filepath.Clean. cbv zeta.
  assert (Hr : has_prefix "/" (q +:+ "/") = has_prefix "/" q)
    by (destruct q; [congruence | reflexivity]).
  rewrite Hr, !Split_slash.
  change (q +:+ "/") with (q +:+ "/" +:+ "").
  rewrite split_go_snoc by reflexivity.
  rewrite fold_left_app. reflexivity.
Qed.

(** A directory that [Clean] leaves in front of a name as it is, is
    clean itself. *)
Lemma clean_prefix_fixed q :
  q <> "" -> clean_prefix q = q +:+ "/" -> Filepath.Clean q = q.
Proof.
  intros Hq. unfold clean_prefix, Filepath.Clean. cbv zeta.
  assert (Hr : has_prefix "/" (q +:+ "/") = has_prefix "/" q)
    by (destruct q; [congruence | reflexivity]).
  rewrite Hr.
  set (rooted := has_prefix "/" q).
  set (st := fold_left (Filepath.clean_step rooted) (GoStrings.Split q "/") []).
  destruct (List.rev st) as [| y ys]; intros Heq.
  - exfalso. apply (f_equal String.length) in Heq.
    rewrite !length_append in Heq.
    destruct q; [congruence |]. destruct rooted; cbn [String.length] in Heq; lia.
  - rewrite <- append_assoc in Heq. apply append_inv_r in Heq. rewrite Heq.
    apply String.eqb_neq in Hq. rewrite Hq. reflexivity.
Qed.

(** The directory of a clean file name, as [Glob] reads it and as it
    stands in the names of the files in it. *)
Lemma clean_directory p :
  let d0 := fst (Filepath.Split p) in
  let b0 := snd (Filepath.Split p) in
  Filepath.Clean p = p -> b0 <> "" -> b0 <> "." -> b0 <> ".." ->
  Filepath.Clean (FS.cleanGlobPath d0) = Filepath.Clean d0
  /\ forall n,
       contains_char "/" n = false -> n <> "" -> n <> "." -> n <> ".." ->
       Filepath.Join (FS.cleanGlobPath d0) n = d0 +:+ n
       /\ d0 +:+ n <> Filepath.Clean d0.
Proof.
  cbv zeta. intros Hc B0 B1 B2.
  pose proof (Split_parts p) as Hp.
  pose proof (Split_snd_no_separator p) as Hs.
  set (d0 := fst (Filepath.Split p)) in *.
  set (b0 := snd (Filepath.Split p)) in *.
  destruct (Split_fst_shape p) as [Hd | [q Hd]]; fold d0 in Hd; rewrite Hd in *.
  - split; [reflexivity |]. intros n Hn N0 N1 N2.
    change (FS.cleanGlobPath "") with ".". change ("" +:+ n) with n.
    rewrite Join_name by (assumption || discriminate).
    split; [reflexivity |]. exact N1.
  - rewrite cleanGlobPath_dir. destruct q as [| c q].
    + split; [reflexivity |]. intros n Hn N0 N1 N2. cbn [String.eqb].
      rewrite Join_name by (assumption || discriminate).
      split; [reflexivity |].
      change (Filepath.Clean ("" +:+ "/")) with "/".
      change (("" +:+ "/") +:+ n) with (String "/" n).
      intros [= Heq]. congruence.
    + cbn [String.eqb].
      assert (Hq : String c q <> "") by discriminate.
      rewrite (Clean_trailing_separator _ Hq).
      split; [reflexivity |].
      assert (Hpre : clean_prefix (String c q) = String c q +:+ "/").
      { rewrite append_assoc in Hp. rewrite Hp in Hc at 1.
        rewrite Clean_snoc_name in Hc by assumption.
        rewrite Hp, <- append_assoc in Hc at 1.
        exact (append_inv_r _ _ _ Hc). }
      intros n Hn N0 N1 N2.
      rewrite Join_name by assumption. rewrite Hpre.
      split; [reflexivity |].
      rewrite (clean_prefix_fixed _ Hq Hpre).
      intros Heq. apply (f_equal String.length) in Heq.
      rewrite !length_append in Heq. cbn [String.length] in Heq. lia.
Qed.

(** With plain names [Glob] reads one directory: that of the file
    name, for the names matching the last element of the pattern. *)
Lemma Daily_Glob_eq (r : DailyRotateRule) w :
  plain_names r ->
  fst (filepath_Glob (Daily.pattern r) w)
  = inl (FS.glob (files w)
           (FS.cleanGlobPath (fst (Filepath.Split (filename r))))
           (snd (Filepath.Split (filename r)) +:+ delimiter r +:+ "*"
            +:+ (if gzip r then gzipExt else ""))).
Proof.
  intros (Hd & Hm & Hsep & Hb & Hdot).
  set (gz := if gzip r then gzipExt else "").
  assert (Hgz : contains_char "/" gz = false /\ Pattern.hasMeta gz = false)
    by (unfold gz; destruct (gzip r); split; reflexivity).
  destruct Hgz as [Hgs Hgm].
  pose proof (Split_parts (filename r)) as Hparts.
  set (d0 := fst (Filepath.Split (filename r))) in *.
  set (b0 := snd (Filepath.Split (filename r))) in *.
  assert (Hpat : Daily.pattern r = (filename r +:+ delimiter r) +:+ "*" +:+ gz).
  { unfold Daily.pattern, gz. rewrite append_assoc.
    destruct (gzip r); reflexivity. }
  assert (Hmeta : Pattern.hasMeta (Daily.pattern r) = true).
  { rewrite Hpat, !hasMeta_app. rewrite !orb_true_iff. right; left. reflexivity. }
  assert (Hsplit : Filepath.Split (Daily.pattern r)
                   = (d0, b0 +:+ delimiter r +:+ "*" +:+ gz)).
  { rewrite Hpat, append_assoc.
    rewrite Split_app_no_separator
      by (rewrite !contains_char_app, Hsep, Hgs; reflexivity).
    reflexivity. }
  assert (Hdm : Pattern.hasMeta (FS.cleanGlobPath d0) = false).
  { rewrite Hparts, !hasMeta_app, !orb_false_iff in Hm.
    destruct Hm as [[Hdm _] _].
    destruct (Split_fst_shape (filename r)) as [Hs | [q Hs]]; fold d0 in Hs.
    - rewrite Hs. reflexivity.
    - rewrite Hs in *. rewrite cleanGlobPath_dir.
      destruct (String.eqb q ""); [reflexivity |].
      rewrite hasMeta_app in Hdm. apply orb_false_iff in Hdm. apply Hdm. }
  assert (Hmatch : exists b, Pattern.Match (Daily.pattern r) "" = Some b).
  { unfold Pattern.Match. rewrite Hpat.
    rewrite parse_star_pattern by assumption. eexists. reflexivity. }
  destruct Hmatch as [b Hmatch].
  unfold filepath_Glob. cbn [fst].
  set (fuel := String.length (Daily.pattern r)). clearbody fuel.
  destruct fuel as [| fuel]; cbn [FS.Glob];
    rewrite Hmatch, Hmeta, Hsplit; cbn [negb]; rewrite Hdm; reflexivity.
Qed.

(** The matches of the daily pattern, for a clean file name: the file
    name as given, the delimiter, a run without separator, and the
    compression suffix. *)
Lemma Daily_listed_names (r : DailyRotateRule) w listed f :
  plain_names r -> clean_file_name r ->
  fst (filepath_Glob (Daily.pattern r) w) = inl listed ->
  f ∈ listed ->
  exists x, f = filename r +:+ delimiter r +:+ x
                +:+ (if gzip r then gzipExt else "")
            /\ contains_char "/" x = false.
Proof.
  intros Hplain [Hc Hdd] Hg Hin.
  rewrite (Daily_Glob_eq r w Hplain) in Hg. injection Hg as <-.
  destruct Hplain as (Hd & Hm & Hsep & Hb & Hdot).
  set (gz := if gzip r then gzipExt else "") in *.
  assert (Hgz : contains_char "/" gz = false /\ Pattern.hasMeta gz = false)
    by (unfold gz; destruct (gzip r); split; reflexivity).
  destruct Hgz as [Hgs Hgm].
  pose proof (Split_parts (filename r)) as Hparts.
  pose proof (Split_snd_no_separator (filename r)) as Hbsep.
  destruct (clean_directory (filename r) Hc Hb Hdot Hdd) as [_ Hjoin].
  set (d0 := fst (Filepath.Split (filename r))) in *.
  set (b0 := snd (Filepath.Split (filename r))) in *.
  unfold FS.glob in Hin.
  apply list_elem_of_fmap in Hin as (n & -> & Hn).
  apply list_elem_of_filter in Hn as [Hn _].
  rewrite <- append_assoc in Hn.
  apply Match_star in Hn as (x & Hn & Hx); [| | exact Hgm].
  - exists x. split; [| exact Hx].
    rewrite append_assoc in Hn.
    destruct (proper_name_with_delimiter b0 (delimiter r) (x +:+ gz) Hb Hdot Hd)
      as (N0 & N1 & N2).
    rewrite <- Hn in N0, N1, N2.
    assert (Hnsep : contains_char "/" n = false)
      by (rewrite Hn, !contains_char_app, Hbsep, Hsep, Hx, Hgs; reflexivity).
    rewrite (proj1 (Hjoin n Hnsep N0 N1 N2)), Hn.
    rewrite Hparts at 1. rewrite !append_assoc. reflexivity.
  - rewrite Hparts, !hasMeta_app, !orb_false_iff in Hm.
    rewrite hasMeta_app, orb_false_iff. tauto.
Qed.

(** And every file of that form is among them. *)
Lemma Daily_listing_complete (r : DailyRotateRule) w listed x c :
  plain_names r -> clean_file_name r ->
  fst (filepath_Glob (Daily.pattern r) w) = inl listed ->
  contains_char "/" x = false ->
  let name := filename r +:+ delimiter r +:+ x
              +:+ (if gzip r then gzipExt else "") in
  files w !! name = Some c ->
  name ∈ listed.
Proof.
  intros Hplain [Hc Hdd] Hg Hx name Hfile.
  rewrite (Daily_Glob_eq r w Hplain) in Hg. injection Hg as <-.
  destruct Hplain as (Hd & Hm & Hsep & Hb & Hdot).
  set (gz := if gzip r then gzipExt else "") in *.
  assert (Hgz : contains_char "/" gz = false /\ Pattern.hasMeta gz = false)
    by (unfold gz; destruct (gzip r); split; reflexivity).
  destruct Hgz as [Hgs Hgm].
  pose proof (Split_parts (filename r)) as Hparts.
  pose proof (Split_snd_no_separator (filename r)) as Hbsep.
  destruct (clean_directory (filename r) Hc Hb Hdot Hdd) as [Hdir Hjoin].
  set (d0 := fst (Filepath.Split (filename r))) in *.
  set (b0 := snd (Filepath.Split (filename r))) in *.
  set (n := b0 +:+ delimiter r +:+ x +:+ gz).
  assert (Hname : name = d0 +:+ n).
  { unfold name, n. rewrite Hparts at 1. rewrite !append_assoc. reflexivity. }
  destruct (proper_name_with_delimiter b0 (delimiter r) (x +:+ gz) Hb Hdot Hd)
    as (N0 & N1 & N2). fold n in N0, N1, N2.
  assert (Hnsep : contains_char "/" n = false)
    by (unfold n; rewrite !contains_char_app, Hbsep, Hsep, Hx, Hgs; reflexivity).
  destruct (Hjoin n Hnsep N0 N1 N2) as [Hj Hne].
  assert (Hsplit : Filepath.Split name = (d0, n)).
  { unfold name, n.
    rewrite Split_app_no_separator
      by (rewrite !contains_char_app, Hsep, Hx, Hgs; reflexivity).
    reflexivity. }
  unfold FS.glob. apply list_elem_of_fmap. exists n.
  split; [rewrite Hj; exact Hname |].
  apply list_elem_of_filter. split.
  - unfold n. rewrite <- (append_assoc b0 (delimiter r) ("*" +:+ gz)).
    rewrite <- (append_assoc b0 (delimiter r) (x +:+ gz)).
    apply Match_star_intro; try assumption.
    rewrite Hparts, !hasMeta_app, !orb_false_iff in Hm.
    rewrite hasMeta_app, orb_false_iff. tauto.
  - unfold FS.readdirnames. rewrite (sortStrings_perm _).
    apply elem_of_remove_dups, list_elem_of_fmap. exists name. split.
    + unfold Filepath.Base.
      assert (Hne0 : name <> "").
      { rewrite Hname. intros Heq. apply (f_equal String.length) in Heq.
        rewrite length_append in Heq. destruct n; [congruence |].
        cbn [String.length] in Heq. lia. }
      apply String.eqb_neq in Hne0. rewrite Hne0.
      rewrite BaseFacts.strip_trailing_id by (rewrite Hsplit; exact N0).
      rewrite Hsplit. cbn [snd]. apply String.eqb_neq in N0. rewrite N0.
      reflexivity.
    + apply list_elem_of_filter. split.
      * unfold Filepath.Dir. rewrite Hsplit. cbn [fst]. rewrite Hdir.
        split; [reflexivity |]. rewrite Hname. exact Hne.
      * unfold FS.entries. apply elem_of_app. left.
        apply elem_of_elements, elem_of_dom. exists c. exact Hfile.
Qed.

End Listing.
(** ** The daily age test, on the backups that exist *)

Section DailyAge.

Import GoStrings StrOrder PathFacts.

Lemma Daily_boundaryFile_dated (r : DailyRotateRule) w :
  fst (Daily.boundaryFile r w) = dated_backup r (boundary_day r w).
Proof. rewrite Daily_boundaryFile_eq. reflexivity. Qed.

(** With one offset for the boundary instant and for now, the boundary
    day is the day of now less the window. *)
Lemma boundary_day_eq (r : DailyRotateRule) w :
  0 < days r <= max_keep_days ->
  boundary_day r w = local_day (zone w) (now w) - days r.
Proof.
  intros Hd. unfold boundary_day.
  apply local_day_keep. unfold max_keep_days in *. lia.
Qed.

(** Dated backups of one rule sort as their days do. *)
Lemma dated_backup_lt_iff (r : DailyRotateRule) d b :
  0 <= day_year d <= 9999 -> 0 <= day_year b <= 9999 ->
  str_lt (dated_backup r d) (dated_backup r b) = true <-> d < b.
Proof.
  intros Hd Hb. unfold dated_backup. rewrite str_lt_iff.
  assert (Hmono : forall x y, x < y ->
            0 <= day_year x <= 9999 -> 0 <= day_year y <= 9999 ->
            lts (date_string x +:+ (if gzip r then gzipExt else ""))
                (date_string y +:+ (if gzip r then gzipExt else ""))).
  { intros x y Hxy Hx Hy. apply lts_app_same_length.
    - apply TimeFacts.date_string_mono; lia.
    - rewrite !TimeFacts.date_string_length by lia. reflexivity. }
  split.
  - intros Hl. do 2 apply lts_app_r_inv in Hl.
    destruct (Z.lt_trichotomy d b) as [Hlt | [Heq | Hgt]]; [assumption | |];
      exfalso.
    + subst b. exact (lts_irrefl _ Hl).
    + exact (lts_irrefl _ (lts_trans _ _ _ Hl (Hmono b d Hgt Hb Hd))).
  - intros Hlt. do 2 apply lts_app_l. apply Hmono; assumption.
Qed.

(** For a clean and plain file name, the backup of a day that exists
    is reported exactly when its day is before the boundary day. *)
Lemma Daily_dated_backup_reported (r : DailyRotateRule) w d c :
  plain_names r -> clean_file_name r -> 0 < days r ->
  0 <= day_year d <= 9999 -> 0 <= day_year (boundary_day r w) <= 9999 ->
  files w !! dated_backup r d = Some c ->
  (dated_backup r d ∈ fst (Daily.OutdatedFiles r w) <-> d < boundary_day r w).
Proof.
  intros Hplain Hclean Hdays Hd Hb Hfile.
  rewrite Daily_OutdatedFiles_eq.
  replace (days r <=? 0) with false by (symmetry; apply Z.leb_gt; lia).
  pose proof (Daily_Glob_eq r w Hplain) as Hg. rewrite Hg.
  rewrite list_elem_of_filter, Daily_boundaryFile_dated.
  rewrite (dated_backup_lt_iff r d _ Hd Hb).
  split; [tauto |]. intros Hlt. split; [exact Hlt |].
  apply (Daily_listing_complete r w _ (date_string d) c Hplain Hclean Hg);
    [apply date_string_no_separator | exact Hfile].
Qed.

(** With plain names no reported name is a path to the active file. *)
Lemma Daily_reported_not_active (r : DailyRotateRule) w f :
  plain_names r -> snd (Filepath.Split (filename r)) <> ".." ->
  f ∈ fst (Daily.OutdatedFiles r w) ->
  Filepath.Clean f <> Filepath.Clean (filename r).
Proof.
  intros Hplain Hdd Hin Heq.
  destruct (Daily_reported_shape r w f Hplain Hin) as (d & x & Hf & Hx).
  destruct Hplain as (Hd & Hm & Hsep & Hb & Hdot).
  pose proof (Split_snd_no_separator (filename r)) as Hbsep.
  set (b0 := snd (Filepath.Split (filename r))) in *.
  set (rest := x +:+ (if gzip r then gzipExt else "")) in *.
  destruct (proper_name_with_delimiter b0 (delimiter r) rest Hb Hdot Hd)
    as (N0 & N1 & N2).
  assert (Hnsep : contains_char "/" (b0 +:+ delimiter r +:+ rest) = false).
  { unfold rest. rewrite !contains_char_app, Hbsep, Hsep, Hx.
    destruct (gzip r); reflexivity. }
  pose proof (Join_last_element d _ Hnsep N0 N1 N2) as Hlast.
  rewrite <- Hf in Hlast.
  pose proof (Clean_keeps_last f) as Hcf. cbv zeta in Hcf.
  rewrite Hlast in Hcf. specialize (Hcf N0 N1 N2).
  pose proof (Clean_keeps_last (filename r) Hb Hdot Hdd) as Hca.
  rewrite Heq, Hca in Hcf. fold b0 in Hcf.
  apply (f_equal String.length) in Hcf. rewrite !length_append in Hcf.
  destruct (delimiter r); [congruence | cbn in Hcf; lia].
Qed.

End DailyAge.

(** C8 (amended): with a window of no days, or when the listing fails,
    the result is empty; otherwise it is exactly the matches of the
    pattern that sort strictly before the boundary name, which is the
    file name as given, the delimiter and the date of the instant
    [days] times 24 hours before now (with [.gz] under compression).
    That date is the one [days] days before today when the offset [z] in
    force now is the offset applied to the boundary instant.  For a
    file name that is a clean path, with plain names, the matches are
    the names made of the file name, the delimiter and a run without
    separator; every file of that form is among them; and the backup of
    a day that exists is reported exactly when its day is before the
    boundary day: with a window of three days the backup dated four
    days ago is reported and the one dated two days ago is listed and
    not reported.  With plain names the active file is never in the
    result, under the name given or under any path to it. *)
Theorem C8_Daily_OutdatedFiles (r : DailyRotateRule) w :
  let out := fst (Daily.OutdatedFiles r w) in
  let bf := fst (Daily.boundaryFile r w) in
  let listing := fst (filepath_Glob (Daily.pattern r) w) in
  let gz := if gzip r then gzipExt else "" in
  (days r <= 0 -> out = [])
  /\ (0 < days r -> forall listed,
        listing = inl listed ->
        out = filter (fun f => str_lt f bf = true) listed)
  /\ (forall e, listing = inr e -> out = [])
  /\ bf = dated_backup r (boundary_day r w)
  /\ (forall z, z = zone w -> 0 < days r <= max_keep_days ->
        boundary_day r w = local_day z (now w) - days r)
  /\ (plain_names r -> clean_file_name r ->
      exists listed,
        listing = inl listed
        /\ (forall f, f ∈ listed ->
              exists x, f = filename r +:+ delimiter r +:+ x +:+ gz
                        /\ GoStrings.contains_char "/" x = false)
        /\ (forall x c,
              GoStrings.contains_char "/" x = false ->
              files w !! (filename r +:+ delimiter r +:+ x +:+ gz) = Some c ->
              filename r +:+ delimiter r +:+ x +:+ gz ∈ listed))
  /\ (plain_names r -> clean_file_name r -> 0 < days r ->
      forall d c,
        0 <= day_year d <= 9999 -> 0 <= day_year (boundary_day r w) <= 9999 ->
        files w !! dated_backup r d = Some c ->
        (dated_backup r d ∈ out <-> d < boundary_day r w))
  /\ (plain_names r -> clean_file_name r -> days r = 3 ->
      forall z, z = zone w ->
      let today := local_day z (now w) in
      0 <= day_year (today - 4) -> day_year (today - 2) <= 9999 ->
      (forall c, files w !! dated_backup r (today - 4) = Some c ->
         dated_backup r (today - 4) ∈ out)
      /\ (forall c listed,
            files w !! dated_backup r (today - 2) = Some c ->
            listing = inl listed ->
            dated_backup r (today - 2) ∈ listed
            /\ dated_backup r (today - 2) ∉ out))
  /\ (plain_names r ->
      (filename r ∉ out)
      /\ (snd (Filepath.Split (filename r)) <> ".." ->
          forall f, f ∈ out -> Filepath.Clean f <> Filepath.Clean (filename r))).
Proof.
  cbv zeta. splits.
  - intros Hd. rewrite Daily_OutdatedFiles_eq.
    replace (days r <=? 0) with true by (symmetry; apply Z.leb_le; lia).
    reflexivity.
  - intros Hd listed Hg. rewrite Daily_OutdatedFiles_eq.
    replace (days r <=? 0) with false by (symmetry; apply Z.leb_gt; lia).
    rewrite Hg. reflexivity.
  - intros e Hg. rewrite Daily_OutdatedFiles_eq, Hg.
    destruct (days r <=? 0); reflexivity.
  - apply Daily_boundaryFile_dated.
  - intros z -> Hd. apply boundary_day_eq. exact Hd.
  - intros Hplain Hclean. eexists. split; [apply Daily_Glob_eq; exact Hplain |].
    pose proof (Daily_Glob_eq r w Hplain) as Hg. split.
    + intros f Hin. exact (Daily_listed_names r w _ f Hplain Hclean Hg Hin).
    + intros x c Hx Hfile.
      exact (Daily_listing_complete r w _ x c Hplain Hclean Hg Hx Hfile).
  - intros Hplain Hclean Hd d c Hy Hb Hfile.
    exact (Daily_dated_backup_reported r w d c Hplain Hclean Hd Hy Hb Hfile).
  - intros Hplain Hclean Hd z -> Hlo Hhi.
    set (D := local_day (zone w) (now w)) in *.
    assert (Hdays : 0 < days r <= max_keep_days) by (unfold max_keep_days; lia).
    pose proof (boundary_day_eq r w Hdays) as Hb. fold D in Hb. rewrite Hd in Hb.
    pose proof (TimeFacts.day_year_mono (D - 4) (D - 3) ltac:(lia)).
    pose proof (TimeFacts.day_year_mono (D - 3) (D - 2) ltac:(lia)).
    pose proof (TimeFacts.day_year_mono (D - 4) (D - 2) ltac:(lia)).
    split.
    + intros c Hfile.
      apply (Daily_dated_backup_reported r w (D - 4) c Hplain Hclean);
        rewrite ?Hb; try lia. exact Hfile.
    + intros c listed Hfile Hg. split.
      * exact (Daily_listing_complete r w listed (date_string (D - 2)) c
                 Hplain Hclean Hg (date_string_no_separator _) Hfile).
      * intros Hin.
        apply (Daily_dated_backup_reported r w (D - 2) c Hplain Hclean) in Hin;
          rewrite ?Hb in *; try lia. exact Hfile.
  - intros Hplain. split.
    + intros Hin. rewrite Daily_OutdatedFiles_eq in Hin.
      destruct (days r <=? 0); [inversion Hin |].
      destruct (fst (filepath_Glob (Daily.pattern r) w)) as [listed | e] eqn:Hg;
        [| inversion Hin].
      apply list_elem_of_filter in Hin as [_ Hin].
      exact (PathFacts.Daily_glob_excludes_active r w listed Hplain Hg Hin).
    + intros Hdd f Hin. exact (Daily_reported_not_active r w f Hplain Hdd Hin).
Qed.

Lemma three_days_clean : clean_file_name (three_days "-").
Proof. split; [reflexivity | discriminate]. Qed.

Lemma C8_witness :
  let r := three_days "-" in
  let out := fst (Daily.OutdatedFiles r daily_world) in
  ("app.log-2023-11-10" ∈ out /\ "app.log-2023-11-12" ∉ out)
  /\ "app.log" ∉ out.
Proof.
  pose proof (C8_Daily_OutdatedFiles (three_days "-") daily_world)
    as (_ & _ & _ & _ & _ & _ & _ & Hdated & Hactive).
  destruct (Hdated three_days_plain three_days_clean eq_refl 0 eq_refl
              ltac:(vm_compute; discriminate) ltac:(vm_compute; discriminate))
    as [H4 H2].
  split; [split |].
  - apply (H4 []). vm_compute. reflexivity.
  - apply (H2 [] ["app.log-2023-11-10"; "app.log-2023-11-12"]);
      vm_compute; reflexivity.
  - apply (proj1 (Hactive three_days_plain)).
Defined.

(** C8 needs the file name to be a clean path: [Glob] lists the
    cleaned names and the boundary keeps the file name as given.  With
    [./app.log] the listed names all sort after the boundary, and the
    backup of four days ago is not reported; with [b/../a.log] they all
    sort before it, and the backup of two days ago is reported. *)
Example unclean_name_keeps_old_backup :
  let r := three_days_of "./app.log" in
  fst (filepath_Glob (Daily.pattern r) daily_world)
  = inl ["app.log-2023-11-10"; "app.log-2023-11-12"]
  /\ fst (Daily.boundaryFile r daily_world) = "./app.log-2023-11-11"
  /\ fst (Daily.OutdatedFiles r daily_world) = [].
Proof. vm_compute. repeat split. Qed.

Example unclean_name_reports_young_backup :
  let r := three_days_of "b/../a.log" in
  fst (filepath_Glob (Daily.pattern r) a_log_world)
  = inl ["a.log-2023-11-10"; "a.log-2023-11-12"]
  /\ fst (Daily.boundaryFile r a_log_world) = "b/../a.log-2023-11-11"
  /\ fst (Daily.OutdatedFiles r a_log_world)
     = ["a.log-2023-11-10"; "a.log-2023-11-12"].
Proof. vm_compute. repeat split. Qed.

Example unclean_names_are_plain :
  plain_names (three_days_of "./app.log")
  /\ plain_names (three_days_of "b/../a.log").
Proof.
  unfold plain_names. splits;
    first [discriminate | vm_compute; reflexivity | vm_compute; discriminate].
Qed.

(** X17: for a file name that is a clean path, with plain names, the
    backup the daily rule names at one time, when it exists at a later
    time (with [.gz] under a rule set to gzip), is reported by
    [OutdatedFiles] exactly when its local day is before the local day
    of the instant [days] times 24 hours before now; and when the
    offset [z] in force now is the offset applied to that instant,
    exactly when more local days than the window have passed since it
    was named. *)
Theorem Daily_backup_outdated_after_window (r : DailyRotateRule) w0 w c :
  plain_names r -> clean_file_name r ->
  0 < days r <= max_keep_days ->
  four_digit_year (zone w0) (now w0) ->
  0 <= day_year (boundary_day r w) <= 9999 ->
  let name := fst (Daily.BackupFileName r w0)
              +:+ (if gzip r then gzipExt else "") in
  files w !! name = Some c ->
  (name ∈ fst (Daily.OutdatedFiles r w)
   <-> local_day (zone w0) (now w0) < boundary_day r w)
  /\ forall z, z = zone w ->
       (name ∈ fst (Daily.OutdatedFiles r w)
        <-> days r < local_day z (now w) - local_day (zone w0) (now w0)).
Proof.
  intros Hplain Hclean Hd H0 Hb name Hfile.
  assert (Hname : name = dated_backup r (local_day (zone w0) (now w0))).
  { unfold name, dated_backup. rewrite Daily_BackupFileName_eq.
    rewrite !StrOrder.append_assoc. reflexivity. }
  rewrite Hname in *.
  assert (Hiff : dated_backup r (local_day (zone w0) (now w0))
                   ∈ fst (Daily.OutdatedFiles r w)
                 <-> local_day (zone w0) (now w0) < boundary_day r w).
  { apply (Daily_dated_backup_reported r w _ c); try assumption. lia. }
  split; [exact Hiff |].
  intros z ->. rewrite Hiff, (boundary_day_eq r w Hd). lia.
Qed.

Lemma Daily_backup_outdated_after_window_witness :
  let r := three_days "-" in
  let w0 := four_days_before in
  let w := daily_world in
  let name := fst (Daily.BackupFileName r w0)
              +:+ (if gzip r then gzipExt else "") in
  (name ∈ fst (Daily.OutdatedFiles r w)
   <-> local_day (zone w0) (now w0) < boundary_day r w)
  /\ (name ∈ fst (Daily.OutdatedFiles r w)
      <-> days r < local_day (zone w) (now w) - local_day (zone w0) (now w0)).
Proof.
  destruct (Daily_backup_outdated_after_window (three_days "-") four_days_before
              daily_world []) as [Hday Hpassed].
  - exact three_days_plain.
  - exact three_days_clean.
  - vm_compute. split; [reflexivity | discriminate].
  - unfold four_digit_year. vm_compute. split; discriminate.
  - vm_compute. split; discriminate.
  - vm_compute. reflexivity.
  - split; [exact Hday | exact (Hpassed 0 eq_refl)].
Defined.
(** ** The count test and the age test of the size rule *)




